(** * FinancialSentimentCollector (dataset.py)

    A shallow embedding of the collection-and-aggregation pipeline of
    [FinancialSentimentCollector]: the price series collector with its
    rolling indicators, the news collector with its fallback chain, the
    social collector with its hourly engagement-weighted aggregates, and the
    batch orchestrator with its snapshot files.

    Conventions of the embedding.
    - A Python [int] is a [Z].  A Python [float] that is known to be finite
      is an exact rational [Q]: rounding error, overflow and the sign of zero
      are not modelled.  numpy scalars, which may be [nan] or infinite, are
      values of [float64] below.
    - A Python [str] is a [string], [len] is the number of characters.
    - A [dict] whose keys are fixed by the code is a record (a key that is
      only sometimes present is an [option] field); a [dict] keyed by data
      (tickers, dates) is a [gmap].
    - Code under [try]/[except] runs in the [result] monad; the handler is
      [catch].
    - Everything the class reaches outside the process (providers, clock,
      disk) and the third-party routines it calls (VADER, numpy's [std],
      [re.sub], [strftime], the HTML parser) are fields of [World]. *)

From Stdlib Require Import ZArith QArith Lqa String Ascii.
From stdpp Require Import gmap strings list fin_maps sorting pretty.

Local Open Scope string_scope.

(** ** Exceptions *)

Inductive result (A : Type) : Type :=
| Ok (a : A)
| Raise (msg : string).
Arguments Ok {A} a.
Arguments Raise {A} msg.

#[global] Instance result_ret : MRet result := fun A a => Ok a.
#[global] Instance result_fmap : FMap result := fun A B f r =>
  match r with
  | Ok a => Ok (f a)
  | Raise msg => Raise msg
  end.
#[global] Instance result_bind : MBind result := fun A B k r =>
  match r with
  | Ok a => k a
  | Raise msg => Raise msg
  end.

(** [try: body except Exception as e: handler(str(e))] *)
Definition catch {A} (body : result A) (handler : string → A) : A :=
  match body with
  | Ok a => a
  | Raise msg => handler msg
  end.

Fixpoint mapM {A B} (f : A → result B) (l : list A) : result (list B) :=
  match l with
  | [] => Ok []
  | x :: l' => y ← f x; ys ← mapM f l'; Ok (y :: ys)
  end.

(** ** Numbers *)

(** [round(x, ndigits)] on a finite float: the multiple of [10^-ndigits]
    nearest to [x], ties going to the even multiple. *)
Definition round_half_even (x : Q) : Z :=
  let n := Qnum x in
  let d := Zpos (Qden x) in
  let fl := (n / d)%Z in
  let r2 := (2 * (n mod d))%Z in
  if (r2 <? d)%Z then fl
  else if (d <? r2)%Z then (fl + 1)%Z
  else if Z.even fl then fl else (fl + 1)%Z.

Definition py_round (x : Q) (ndigits : nat) : Q :=
  let s := Pos.pow 10 (Pos.of_nat ndigits) in
  Qmake (round_half_even (x * inject_Z (Zpos s))) s.

(** A numpy [float64] scalar. *)
Inductive float64 : Type :=
| Fin (q : Q)
| Inf (negative : bool)
| NaN.

Definition Qsign_neg (q : Q) : bool := (Qnum q <? 0)%Z.
Definition Qis_zero (q : Q) : bool := (Qnum q =? 0)%Z.
Definition Qis_pos (q : Q) : bool := (0 <? Qnum q)%Z.

#[global] Instance float64_inhabited : Inhabited float64 := populate NaN.

Definition fadd (a b : float64) : float64 :=
  match a, b with
  | Fin x, Fin y => Fin (x + y)
  | NaN, _ | _, NaN => NaN
  | Inf s, Inf t => if Bool.eqb s t then Inf s else NaN
  | Inf s, Fin _ => Inf s
  | Fin _, Inf t => Inf t
  end.

Definition fneg (a : float64) : float64 :=
  match a with
  | Fin x => Fin (- x)
  | Inf s => Inf (negb s)
  | NaN => NaN
  end.

Definition fsub (a b : float64) : float64 := fadd a (fneg b).

Definition fmul (a b : float64) : float64 :=
  match a, b with
  | Fin x, Fin y => Fin (x * y)
  | NaN, _ | _, NaN => NaN
  | Inf s, Inf t => Inf (xorb s t)
  | Inf s, Fin y | Fin y, Inf s =>
      if Qis_zero y then NaN else Inf (xorb s (Qsign_neg y))
  end.

(** numpy division: dividing by zero warns and yields [inf] or [nan], it
    does not raise. *)
Definition fdiv (a b : float64) : float64 :=
  match a, b with
  | Fin x, Fin y =>
      if Qis_zero y then (if Qis_zero x then NaN else Inf (Qsign_neg x))
      else Fin (x / y)
  | NaN, _ | _, NaN => NaN
  | Inf _, Inf _ => NaN
  | Inf s, Fin y => Inf (xorb s (Qsign_neg y))
  | Fin _, Inf _ => Fin 0
  end.

(** [x > 0] *)
Definition fgt0 (a : float64) : bool :=
  match a with
  | Fin x => Qis_pos x
  | Inf s => negb s
  | NaN => false
  end.

Definition isnan (a : float64) : bool :=
  match a with NaN => true | _ => false end.

(** [np.mean] of a one-dimensional array. *)
Definition np_mean (a : list float64) : float64 :=
  fdiv (foldl fadd (Fin 0) a) (Fin (inject_Z (Z.of_nat (length a)))).

(** [round(x, ndigits)] with [ndigits] given: [nan] and the infinities round
    to themselves. *)
Definition round_float (x : float64) (ndigits : nat) : float64 :=
  match x with
  | Fin q => Fin (py_round q ndigits)
  | other => other
  end.

(** [int(x)]: truncation towards zero. *)
Definition py_int (x : float64) : result Z :=
  match x with
  | Fin q => Ok (Z.quot (Qnum q) (Zpos (Qden q)))
  | Inf _ => Raise "cannot convert float infinity to integer"
  | NaN => Raise "cannot convert float NaN to integer"
  end.

(** [a[lo:hi]] for [0 <= lo <= hi]. *)
Definition slice {A} (lo hi : nat) (a : list A) : list A :=
  take (hi - lo) (drop lo a).

(** [range(lo, hi)] *)
Definition range (lo hi : nat) : list nat := seq lo (hi - lo).

(** ** Strings *)

Definition is_space (c : ascii) : bool :=
  let n := nat_of_ascii c in
  (n =? 32)%nat || ((9 <=? n)%nat && (n <=? 13)%nat)
  || ((28 <=? n)%nat && (n <=? 31)%nat).

Fixpoint lstrip (s : string) : string :=
  match s with
  | String c s' => if is_space c then lstrip s' else s
  | EmptyString => EmptyString
  end.

Fixpoint rstrip (s : string) : string :=
  match s with
  | String c s' =>
      match rstrip s' with
      | EmptyString => if is_space c then EmptyString else String c EmptyString
      | t => String c t
      end
  | EmptyString => EmptyString
  end.

(** [s.strip()] *)
Definition strip (s : string) : string := rstrip (lstrip s).

Definition lower_char (c : ascii) : ascii :=
  let n := nat_of_ascii c in
  if (65 <=? n)%nat && (n <=? 90)%nat then ascii_of_nat (n + 32) else c.

(** [s.lower()] *)
Fixpoint lower (s : string) : string :=
  match s with
  | String c s' => String (lower_char c) (lower s')
  | EmptyString => EmptyString
  end.

(** [s.split(sep)] for a one-character separator. *)
Fixpoint split (sep : ascii) (s : string) : list string :=
  match s with
  | EmptyString => [EmptyString]
  | String c s' =>
      if Ascii.eqb c sep then EmptyString :: split sep s'
      else match split sep s' with
           | h :: t => String c h :: t
           | [] => [String c EmptyString]
           end
  end.

(** [os.path.join(a, b)] on a POSIX system. *)
Definition path_join (a b : string) : string :=
  match b with
  | String "/" _ => b
  | _ =>
      match a with
      | EmptyString => b
      | _ => if String.eqb (substring (String.length a - 1) 1 a) "/"
             then a +:+ b else a +:+ "/" +:+ b
      end
  end.

(** Truthiness of an optional string: [None] and [""] are false. *)
Definition truthy (o : option string) : bool :=
  match o with
  | Some s => negb (String.eqb s "")
  | None => false
  end.

(** [f"{x}"] of a string-or-[None] value. *)
Definition fmt (o : option string) : string :=
  match o with
  | Some s => s
  | None => "None"
  end.

(** ** Data *)

(** One row of the price-history frame: the index and the OHLCV columns. *)
Module Bar.
Record t := mk {
  date : Z;
  Open : float64;
  High : float64;
  Low : float64;
  Close : float64;
  Volume : float64 }.
End Bar.

(** A [data_point] dict.  In the five readings [None] is Python's [None];
    in the three derived fields [None] means that the key is absent. *)
Module PricePoint.
Record t := mk {
  timestamp : string;
  open : option float64;
  high : option float64;
  low : option float64;
  close : option float64;
  volume : option Z;
  volatility_5period : option float64;
  momentum_5period : option float64;
  volume_ratio_5period : option float64 }.

Definition set_volatility (v : float64) (p : t) : t :=
  mk (timestamp p) (open p) (high p) (low p) (close p) (volume p)
     (Some v) (momentum_5period p) (volume_ratio_5period p).
Definition set_momentum (v : float64) (p : t) : t :=
  mk (timestamp p) (open p) (high p) (low p) (close p) (volume p)
     (volatility_5period p) (Some v) (volume_ratio_5period p).
Definition set_volume_ratio (v : float64) (p : t) : t :=
  mk (timestamp p) (open p) (high p) (low p) (close p) (volume p)
     (volatility_5period p) (momentum_5period p) (Some v).
End PricePoint.

Module PriceMeta.
Record t := mk {
  period : string;
  data_points : Z;
  start_time : option string;
  end_time : option string;
  collected_at : string }.
End PriceMeta.

(** The dict returned by [polarity_scores]. *)
Module Vader.
Record t := mk { compound : Q; pos : Q; neg : Q; neu : Q }.
End Vader.

(** The ["sentiment"] dict of an article or a tweet. *)
Module Sentiment.
Record t := mk {
  compound : Q;
  positive : Q;
  negative : Q;
  neutral : Q;
  label : string }.
End Sentiment.

(** An article object of the news provider's response: every key is
    present, every value is a string or [null]. *)
Module RawArticle.
Record t := mk {
  source_name : option string;
  title : option string;
  description : option string;
  publishedAt : option string;
  url : option string }.
End RawArticle.

Module Article.
Record t := mk {
  source : option string;
  title : option string;
  published_at : option string;
  url : option string;
  sentiment : Sentiment.t }.
End Article.

(** The per-date accumulator of [daily_sentiment]. *)
Module DailyAcc.
Record t := mk {
  articles : Z;
  sentiment_sum : Q;
  positive_count : Z;
  negative_count : Z;
  neutral_count : Z }.
End DailyAcc.

Module Daily.
Record t := mk {
  date : string;
  articles_count : Z;
  avg_sentiment : Q;
  positive_ratio : Q;
  negative_ratio : Q;
  neutral_ratio : Q }.
End Daily.

Module NewsMeta.
Record t := mk {
  total_articles : Z;
  period_days : Z;
  start_date : string;
  end_date : string;
  collected_at : string }.
End NewsMeta.

Module AltNewsMeta.
Record t := mk {
  total_articles : Z;
  note : string;
  collected_at : string }.
End AltNewsMeta.

(** A status of the social platform's search, as tweepy presents it. *)
Module Status.
Record t := mk {
  id_str : string;
  created_at : Z;
  full_text : string;
  followers_count : Z;
  retweet_count : Z;
  favorite_count : Z }.
End Status.

Module Tweet.
Record t := mk {
  id : string;
  created_at : string;
  text : string;
  user_followers : Z;
  retweet_count : Z;
  favorite_count : Z;
  sentiment : Sentiment.t }.
End Tweet.

(** The per-hour accumulator of [hourly_sentiment]. *)
Module HourlyAcc.
Record t := mk {
  tweets : Z;
  sentiment_sum : Q;
  sentiment_weighted_sum : Q;
  total_weight : Q;
  positive_count : Z;
  negative_count : Z;
  neutral_count : Z }.
End HourlyAcc.

Module Hourly.
Record t := mk {
  date_hour : string;
  tweets_count : Z;
  avg_sentiment : Q;
  weighted_sentiment : Q;
  positive_ratio : Q;
  negative_ratio : Q;
  neutral_ratio : Q }.
End Hourly.

Module SocialMeta.
Record t := mk {
  total_tweets : Z;
  period_days : Z;
  start_date : string;
  end_date : string;
  collected_at : string }.
End SocialMeta.

(** What a collector returns.  Every [return] of the three collectors
    builds one of these dicts; the key ["error"] is present in the last
    form only. *)
Inductive Payload : Type :=
| PriceData (ticker asset_type interval : string)
    (price_data : list PricePoint.t) (metadata : PriceMeta.t)
| NewsData (ticker asset_type : string)
    (daily_averages : list Daily.t) (articles : list Article.t)
    (metadata : NewsMeta.t)
| AltNewsData (ticker asset_type : string)
    (articles : list Article.t) (metadata : AltNewsMeta.t)
| SocialData (ticker asset_type : string)
    (hourly_averages : list Hourly.t) (tweets : list Tweet.t)
    (metadata : SocialMeta.t)
| StatusOnly (ticker status : string) (collected_at : option string)
| Error (ticker : option string) (error : string).

(** ["error" in data] *)
Definition has_error (data : Payload) : bool :=
  match data with
  | Error _ _ => true
  | _ => false
  end.

(** [data["error"]] *)
Definition get_error (data : Payload) : result string :=
  match data with
  | Error _ e => Ok e
  | _ => Raise "'error'"
  end.

(** ** The outside world *)

(** What [response.json()] gives for the news provider. *)
Module NewsBody.
Record t := mk {
  status : option string;
  totalResults : option Z;
  articles : option (list RawArticle.t) }.
End NewsBody.

Module Response.
(** A [requests] response of the news provider; [json] raises when the
    body does not parse. *)
Record news := mk_news {
  status_code : Z;
  json : result NewsBody.t }.
(** A response to a page fetch. *)
Record page := mk_page {
  page_status_code : Z;
  page_text : string }.
End Response.

(** A candidate article element found in a page: the text of its first
    [h2] or [h3], when there is one, and of its date-like element. *)
Module Block.
Record t := mk {
  heading : option string;
  date_text : option string }.
End Block.

Module Credentials.
Record t := mk {
  api_key : string;
  api_secret : string;
  access_token : string;
  access_secret : string }.
End Credentials.

Record World := {
  (** [datetime.now()] *)
  now : Z;
  (** [d.strftime(fmt)] *)
  strftime : string → Z → string;
  (** [datetime.strptime(s, fmt)] *)
  strptime : string → string → result Z;
  (** [re.sub(pattern, repl, s)] *)
  re_sub : string → string → string → string;
  (** [np.std] *)
  np_std : list float64 → float64;
  (** [SentimentIntensityAnalyzer.polarity_scores], with the finance terms
      of [update_vader_lexicon] merged into the lexicon *)
  polarity_scores : string → Vader.t;
  (** [yf.Ticker(symbol).history(period=, interval=)] *)
  yf_history : string → string → string → result (list Bar.t);
  (** [yf.Ticker(ticker).info.get("shortName")] *)
  yf_short_name : string → result (option string);
  (** [requests.get(url)] to the news provider *)
  newsapi_get : string → result Response.news;
  (** [requests.get(url, headers=, timeout=10)] *)
  http_get : string → result Response.page;
  (** the article elements [BeautifulSoup] finds in a page *)
  article_elements : string → result (list Block.t);
  (** the statuses [tweepy.Cursor(api.search_tweets, q=query, ...)] yields *)
  search_tweets : Credentials.t → string → result (list Status.t);
  (** whether [open(path, 'w')] succeeds *)
  disk_accepts : string → bool }.

(** ** The collector object *)

Record Collector := {
  output_dir : string;
  price_dir : string;
  news_dir : string;
  social_dir : string;
  combined_dir : string;
  twitter_credentials : option Credentials.t;
  newsapi_key : option string }.

(** [__init__]; the directories it creates and the lexicon update are
    outside the embedding. *)
Definition init (output_dir : string)
    (twitter_api_key twitter_api_secret : option string)
    (twitter_access_token twitter_access_secret : option string)
    (newsapi_key : option string) : Collector :=
  {| output_dir := output_dir;
     price_dir := path_join output_dir "price_data";
     news_dir := path_join output_dir "news_sentiment";
     social_dir := path_join output_dir "social_sentiment";
     combined_dir := path_join output_dir "combined_data";
     twitter_credentials :=
       if truthy twitter_api_key && truthy twitter_api_secret
          && truthy twitter_access_token && truthy twitter_access_secret
       then Some (Credentials.mk (default "" twitter_api_key)
                    (default "" twitter_api_secret)
                    (default "" twitter_access_token)
                    (default "" twitter_access_secret))
       else None;
     newsapi_key := newsapi_key |}.

Definition TIME_FORMAT : string := "%Y-%m-%d %H:%M:%S".

(** ** Price series collector *)

Section PriceCollector.
Variable w : World.

(** The body of the loop over [hist.iterrows()]. *)
Definition data_point (row : Bar.t) : result PricePoint.t :=
  let reading (x : float64) := if isnan x then None else Some x in
  volume ← (if isnan (Bar.Volume row) then Ok None
            else Some <$> py_int (Bar.Volume row));
  Ok (PricePoint.mk (strftime w TIME_FORMAT (Bar.date row))
        (reading (Bar.Open row)) (reading (Bar.High row))
        (reading (Bar.Low row)) (reading (Bar.Close row))
        volume None None None).

(** The values the three indicator loops compute at index [i]; the volume
    ratio only when [avg_volume > 0]. *)
Definition volatility_at (closes : list float64) (i : nat) : float64 :=
  let window := slice (i - 5) i closes in
  let volatility := fmul (fdiv (np_std w window) (np_mean window)) (Fin 100) in
  round_float volatility 2.

Definition momentum_at (closes : list float64) (i : nat) : float64 :=
  let momentum :=
    fmul (fdiv (fsub (closes !!! i) (closes !!! (i - 5)%nat))
               (closes !!! (i - 5)%nat)) (Fin 100) in
  round_float momentum 2.

Definition volume_ratio_at (volumes : list float64) (i : nat)
    : option float64 :=
  let avg_volume := np_mean (slice (i - 5) i volumes) in
  if fgt0 avg_volume then
    let vol_ratio := fdiv (volumes !!! i) avg_volume in
    Some (round_float vol_ratio 2)
  else None.

(** The bodies of the three loops: the assignment to a key of
    [price_data[i]]. *)
Definition volatility_step (closes : list float64)
    (price_data : list PricePoint.t) (i : nat) : list PricePoint.t :=
  alter (PricePoint.set_volatility (volatility_at closes i)) i price_data.

Definition momentum_step (closes : list float64)
    (price_data : list PricePoint.t) (i : nat) : list PricePoint.t :=
  alter (PricePoint.set_momentum (momentum_at closes i)) i price_data.

Definition volume_ratio_step (volumes : list float64)
    (price_data : list PricePoint.t) (i : nat) : list PricePoint.t :=
  match volume_ratio_at volumes i with
  | Some vol_ratio =>
      alter (PricePoint.set_volume_ratio vol_ratio) i price_data
  | None => price_data
  end.

(** The block under [if len(price_data) > 10]. *)
Definition add_indicators (hist : list Bar.t)
    (price_data : list PricePoint.t) : list PricePoint.t :=
  if (10 <? length price_data)%nat then
    let closes := Bar.Close <$> hist in
    let volumes := Bar.Volume <$> hist in
    let n := length price_data in
    let price_data := foldl (volatility_step closes) price_data (range 5 n) in
    let price_data := foldl (momentum_step closes) price_data (range 5 n) in
    foldl (volume_ratio_step volumes) price_data (range 5 n)
  else price_data.

(** What the three loops together do to the point at index [i]. *)
Definition with_indicators (hist : list Bar.t) (i : nat)
    (p : PricePoint.t) : PricePoint.t :=
  let p := PricePoint.set_volatility (volatility_at (Bar.Close <$> hist) i) p in
  let p := PricePoint.set_momentum (momentum_at (Bar.Close <$> hist) i) p in
  match volume_ratio_at (Bar.Volume <$> hist) i with
  | Some vol_ratio => PricePoint.set_volume_ratio vol_ratio p
  | None => p
  end.

(** [ticker if asset_type != "crypto" else f"{ticker}-USD"] *)
Definition provider_symbol (ticker asset_type : string) : string :=
  if negb (String.eqb asset_type "crypto") then ticker else ticker +:+ "-USD".

Definition collect_price_data (ticker asset_type period interval : string)
    : Payload :=
  catch
    (hist ← yf_history w (provider_symbol ticker asset_type) period interval;
     match hist with
     | [] => Ok (Error None ("No historical data available for " +:+ ticker))
     | _ =>
         price_data ← mapM data_point hist;
         let price_data := add_indicators hist price_data in
         Ok (PriceData ticker asset_type interval price_data
               {| PriceMeta.period := period;
                  PriceMeta.data_points := Z.of_nat (length price_data);
                  PriceMeta.start_time :=
                    PricePoint.timestamp <$> head price_data;
                  PriceMeta.end_time :=
                    PricePoint.timestamp <$> last price_data;
                  PriceMeta.collected_at := strftime w TIME_FORMAT (now w) |})
     end)
    (fun e => Error (Some ticker) e).

End PriceCollector.

(** ** Sentiment entries *)

(** The conditional expression stored under ["label"]. *)
Definition label_of (compound : Q) : string :=
  if Qle_bool 0.05 compound then "positive"
  else if Qle_bool compound (-0.05) then "negative"
  else "neutral".

(** The ["sentiment"] dict built from the scorer's output. *)
Definition sentiment_entry (sentiment : Vader.t) : Sentiment.t :=
  {| Sentiment.compound := Vader.compound sentiment;
     Sentiment.positive := Vader.pos sentiment;
     Sentiment.negative := Vader.neg sentiment;
     Sentiment.neutral := Vader.neu sentiment;
     Sentiment.label := label_of (Vader.compound sentiment) |}.

(** [sorted(l, key=...)] on string keys. *)
Definition key_le {A} (key : A → string) : relation A :=
  fun a b => Is_true (String.leb (key a) (key b)).

#[global] Instance key_le_dec {A} (key : A → string) (a b : A) :
  Decision (key_le key a b) := Is_true_dec _.

Definition sorted_by {A} (key : A → string) (l : list A) : list A :=
  merge_sort (key_le key) l.

(** ** News sentiment collector *)

Section NewsCollector.
Variable w : World.
Variable self : Collector.

(** *** The fallback path *)

Definition alternative_urls (ticker asset_type : string) : list string :=
  if String.eqb asset_type "crypto" then
    [ "https://www.coindesk.com/search?q=" +:+ lower ticker;
      "https://cointelegraph.com/tags/" +:+ lower ticker ]
  else
    [ "https://www.marketwatch.com/search?q=" +:+ ticker
        +:+ "&ts=0&tab=Articles" ].

(** The body of the loop over [article_elements[:20]]; [None] is
    [continue]. *)
Definition alternative_article (url : string) (element : Block.t)
    : option Article.t :=
  match Block.heading element with
  | None => None
  | Some heading =>
      let title := strip heading in
      let sentiment := polarity_scores w title in
      let pub_date :=
        match Block.date_text element with
        | Some d => strip d
        | None => "N/A"
        end in
      Some {| Article.source := Some (split "/" url !!! 2%nat);
              Article.title := Some title;
              Article.published_at := Some pub_date;
              Article.url := Some "N/A";
              Article.sentiment := sentiment_entry sentiment |}
  end.

(** The body of the loop over [urls]: the articles one page contributes. *)
Definition scrape (url : string) : list Article.t :=
  catch
    (response ← http_get w url;
     if (Response.page_status_code response =? 200)%Z then
       elements ← article_elements w (Response.page_text response);
       Ok (omap (alternative_article url) (take 20 elements))
     else Ok [])
    (fun _ => []).

Definition collect_alternative_news (ticker asset_type : string)
    (days_back : Z) : Payload :=
  catch
    (let urls := alternative_urls ticker asset_type in
     let articles := concat (scrape <$> urls) in
     match articles with
     | [] =>
         Ok (StatusOnly ticker "No articles found through alternative sources"
               (Some (strftime w TIME_FORMAT (now w))))
     | _ =>
         Ok (AltNewsData ticker asset_type articles
               {| AltNewsMeta.total_articles := Z.of_nat (length articles);
                  AltNewsMeta.note :=
                    "Data collected through alternative sources - limited reliability";
                  AltNewsMeta.collected_at := strftime w TIME_FORMAT (now w) |})
     end)
    (fun e => Error (Some ticker) ("Alternative news collection failed: " +:+ e)).

(** *** The primary path *)

Definition primary_query (ticker asset_type : string) : result string :=
  if String.eqb asset_type "crypto" then
    if String.eqb ticker "BTC" then Ok "Bitcoin OR BTC"
    else if String.eqb ticker "ETH" then Ok "Ethereum OR ETH"
    else Ok (ticker +:+ " cryptocurrency")
  else
    short_name ← yf_short_name w ticker;
    let company_name := default ticker short_name in
    Ok ("(" +:+ ticker +:+ " OR " +:+ company_name +:+ ") stock").

Definition primary_url (query : string) (start_date end_date : Z) : string :=
  "https://newsapi.org/v2/everything?q=" +:+ query
  +:+ "&from=" +:+ strftime w "%Y-%m-%d" start_date
  +:+ "&to=" +:+ strftime w "%Y-%m-%d" end_date
  +:+ "&language=en&sortBy=publishedAt&apiKey="
  +:+ fmt (newsapi_key self).

(** The body of the loop over the returned articles; [None] is
    [continue]. *)
Definition primary_article (article : RawArticle.t) : option Article.t :=
  let text :=
    fmt (RawArticle.title article) +:+ " "
    +:+ fmt (RawArticle.description article) in
  if (String.length (strip text) <? 20)%nat then None
  else
    let sentiment := polarity_scores w text in
    Some {| Article.source := RawArticle.source_name article;
            Article.title := RawArticle.title article;
            Article.published_at := RawArticle.publishedAt article;
            Article.url := RawArticle.url article;
            Article.sentiment := sentiment_entry sentiment |}.

Definition daily_init : DailyAcc.t :=
  {| DailyAcc.articles := 0; DailyAcc.sentiment_sum := 0;
     DailyAcc.positive_count := 0; DailyAcc.negative_count := 0;
     DailyAcc.neutral_count := 0 |}.

(** The updates made to [daily_sentiment[date]] for one article. *)
Definition daily_add (article : Article.t) (data : DailyAcc.t) : DailyAcc.t :=
  let label := Sentiment.label (Article.sentiment article) in
  {| DailyAcc.articles := DailyAcc.articles data + 1;
     DailyAcc.sentiment_sum :=
       DailyAcc.sentiment_sum data
       + Sentiment.compound (Article.sentiment article);
     DailyAcc.positive_count :=
       if String.eqb label "positive" then DailyAcc.positive_count data + 1
       else DailyAcc.positive_count data;
     DailyAcc.negative_count :=
       if String.eqb label "positive" then DailyAcc.negative_count data
       else if String.eqb label "negative"
            then DailyAcc.negative_count data + 1
            else DailyAcc.negative_count data;
     DailyAcc.neutral_count :=
       if String.eqb label "positive" then DailyAcc.neutral_count data
       else if String.eqb label "negative" then DailyAcc.neutral_count data
            else DailyAcc.neutral_count data + 1 |}.

(** The body of the grouping loop.  [published_at.split("T")] raises on a
    [None], which the loop's handler turns into [continue]. *)
Definition daily_step (daily_sentiment : gmap string DailyAcc.t)
    (article : Article.t) : gmap string DailyAcc.t :=
  match Article.published_at article with
  | None => daily_sentiment
  | Some published_at =>
      let date := split "T" published_at !!! 0%nat in
      let data := default daily_init (daily_sentiment !! date) in
      <[date := daily_add article data]> daily_sentiment
  end.

(** The body of the loop over [daily_sentiment.items()]. *)
Definition daily_average (item : string * DailyAcc.t) : option Daily.t :=
  let '(date, data) := item in
  if (0 <? DailyAcc.articles data)%Z then
    let articles := inject_Z (DailyAcc.articles data) in
    let avg_sentiment := (DailyAcc.sentiment_sum data / articles)%Q in
    Some {| Daily.date := date;
            Daily.articles_count := DailyAcc.articles data;
            Daily.avg_sentiment := py_round avg_sentiment 3;
            Daily.positive_ratio :=
              py_round (inject_Z (DailyAcc.positive_count data) / articles) 3;
            Daily.negative_ratio :=
              py_round (inject_Z (DailyAcc.negative_count data) / articles) 3;
            Daily.neutral_ratio :=
              py_round (inject_Z (DailyAcc.neutral_count data) / articles) 3 |}
  else None.

Definition daily_averages_of (articles : list Article.t) : list Daily.t :=
  let daily_sentiment := foldl daily_step ∅ articles in
  sorted_by Daily.date (omap daily_average (map_to_list daily_sentiment)).

Definition collect_news_sentiment (ticker asset_type : string)
    (days_back : Z) : Payload :=
  if negb (truthy (newsapi_key self)) then
    collect_alternative_news ticker asset_type days_back
  else
    catch
      (query ← primary_query ticker asset_type;
       let end_date := now w in
       let start_date := (end_date - 86400 * days_back)%Z in
       response ← newsapi_get w (primary_url query start_date end_date);
       if negb (Response.status_code response =? 200)%Z then
         Ok (collect_alternative_news ticker asset_type days_back)
       else
         news_data ← Response.json response;
         if negb (bool_decide (NewsBody.status news_data = Some "ok"))
            || (default 0 (NewsBody.totalResults news_data) =? 0)%Z
         then Ok (collect_alternative_news ticker asset_type days_back)
         else
           let articles :=
             omap primary_article (default [] (NewsBody.articles news_data)) in
           Ok (NewsData ticker asset_type (daily_averages_of articles) articles
                 {| NewsMeta.total_articles := Z.of_nat (length articles);
                    NewsMeta.period_days := days_back;
                    NewsMeta.start_date := strftime w "%Y-%m-%d" start_date;
                    NewsMeta.end_date := strftime w "%Y-%m-%d" end_date;
                    NewsMeta.collected_at := strftime w TIME_FORMAT (now w) |}))
      (fun e => Error (Some ticker) e).

End NewsCollector.

(** ** Social sentiment collector *)

(** The engagement weight of a post:
    [1 + 0.1 * (retweet_count + favorite_count) + 0.001 * user_followers]. *)
Definition weight (user_followers retweet_count favorite_count : Z) : Q :=
  1 + 0.1 * inject_Z (retweet_count + favorite_count)
  + 0.001 * inject_Z user_followers.

Definition hourly_init : HourlyAcc.t :=
  {| HourlyAcc.tweets := 0; HourlyAcc.sentiment_sum := 0;
     HourlyAcc.sentiment_weighted_sum := 0; HourlyAcc.total_weight := 0;
     HourlyAcc.positive_count := 0; HourlyAcc.negative_count := 0;
     HourlyAcc.neutral_count := 0 |}.

Definition tweet_weight (tweet : Tweet.t) : Q :=
  weight (Tweet.user_followers tweet) (Tweet.retweet_count tweet)
    (Tweet.favorite_count tweet).

(** The updates made to [hourly_sentiment[date_hour]] for one tweet. *)
Definition hourly_add (tweet : Tweet.t) (data : HourlyAcc.t) : HourlyAcc.t :=
  let weight := tweet_weight tweet in
  let compound := Sentiment.compound (Tweet.sentiment tweet) in
  let label := Sentiment.label (Tweet.sentiment tweet) in
  {| HourlyAcc.tweets := HourlyAcc.tweets data + 1;
     HourlyAcc.sentiment_sum := HourlyAcc.sentiment_sum data + compound;
     HourlyAcc.sentiment_weighted_sum :=
       HourlyAcc.sentiment_weighted_sum data + compound * weight;
     HourlyAcc.total_weight := HourlyAcc.total_weight data + weight;
     HourlyAcc.positive_count :=
       if String.eqb label "positive" then HourlyAcc.positive_count data + 1
       else HourlyAcc.positive_count data;
     HourlyAcc.negative_count :=
       if String.eqb label "positive" then HourlyAcc.negative_count data
       else if String.eqb label "negative"
            then HourlyAcc.negative_count data + 1
            else HourlyAcc.negative_count data;
     HourlyAcc.neutral_count :=
       if String.eqb label "positive" then HourlyAcc.neutral_count data
       else if String.eqb label "negative" then HourlyAcc.neutral_count data
            else HourlyAcc.neutral_count data + 1 |}.

(** The body of the loop over [hourly_sentiment.items()]. *)
Definition hourly_average (item : string * HourlyAcc.t) : option Hourly.t :=
  let '(date_hour, data) := item in
  if (0 <? HourlyAcc.tweets data)%Z then
    let tweets := inject_Z (HourlyAcc.tweets data) in
    let avg_sentiment := (HourlyAcc.sentiment_sum data / tweets)%Q in
    let weighted_avg :=
      if Qis_pos (HourlyAcc.total_weight data)
      then (HourlyAcc.sentiment_weighted_sum data
            / HourlyAcc.total_weight data)%Q
      else avg_sentiment in
    Some {| Hourly.date_hour := date_hour;
            Hourly.tweets_count := HourlyAcc.tweets data;
            Hourly.avg_sentiment := py_round avg_sentiment 3;
            Hourly.weighted_sentiment := py_round weighted_avg 3;
            Hourly.positive_ratio :=
              py_round (inject_Z (HourlyAcc.positive_count data) / tweets) 3;
            Hourly.negative_ratio :=
              py_round (inject_Z (HourlyAcc.negative_count data) / tweets) 3;
            Hourly.neutral_ratio :=
              py_round (inject_Z (HourlyAcc.neutral_count data) / tweets) 3 |}
  else None.

Section SocialCollector.
Variable w : World.
Variable self : Collector.

Definition social_query (ticker asset_type : string) : string :=
  if String.eqb asset_type "crypto" then
    if String.eqb ticker "BTC" then "$BTC OR #Bitcoin OR Bitcoin"
    else if String.eqb ticker "ETH" then "$ETH OR #Ethereum OR Ethereum"
    else "$" +:+ ticker +:+ " OR #" +:+ ticker
  else "$" +:+ ticker +:+ " OR #" +:+ ticker +:+ " stock".

(** The four substitutions and the final [strip]. *)
Definition clean_text (text : string) : string :=
  let text := re_sub w "http\S+" "" text in
  let text := re_sub w "@\w+" "" text in
  let text := re_sub w "RT\s+" "" text in
  let text := re_sub w "\s+" " " text in
  strip text.

(** The body of the loop over the fetched statuses; [None] is
    [continue]. *)
Definition tweet_entry (start_date : Z) (tweet : Status.t) : option Tweet.t :=
  let created_at := Status.created_at tweet in
  if (created_at <? start_date)%Z then None
  else
    let text := clean_text (Status.full_text tweet) in
    if (String.length text <? 10)%nat then None
    else
      let sentiment := polarity_scores w text in
      Some {| Tweet.id := Status.id_str tweet;
              Tweet.created_at := strftime w TIME_FORMAT created_at;
              Tweet.text := text;
              Tweet.user_followers := Status.followers_count tweet;
              Tweet.retweet_count := Status.retweet_count tweet;
              Tweet.favorite_count := Status.favorite_count tweet;
              Tweet.sentiment := sentiment_entry sentiment |}.

(** The bucket key of a tweet; [strptime] raising sends the grouping loop
    to its handler. *)
Definition date_hour_of (tweet : Tweet.t) : result string :=
  created_dt ← strptime w (Tweet.created_at tweet) TIME_FORMAT;
  Ok (strftime w "%Y-%m-%d %H" created_dt).

(** The body of the grouping loop. *)
Definition hourly_step (hourly_sentiment : gmap string HourlyAcc.t)
    (tweet : Tweet.t) : gmap string HourlyAcc.t :=
  catch
    (date_hour ← date_hour_of tweet;
     let data := default hourly_init (hourly_sentiment !! date_hour) in
     Ok (<[date_hour := hourly_add tweet data]> hourly_sentiment))
    (fun _ => hourly_sentiment).

Definition hourly_averages_of (tweets : list Tweet.t) : list Hourly.t :=
  let hourly_sentiment := foldl hourly_step ∅ tweets in
  sorted_by Hourly.date_hour
    (omap hourly_average (map_to_list hourly_sentiment)).

Definition collect_social_sentiment (ticker asset_type : string)
    (days_back : Z) : Payload :=
  match twitter_credentials self with
  | None => StatusOnly ticker "Twitter API credentials not provided" None
  | Some credentials =>
      catch
        (let query := social_query ticker asset_type in
         let end_date := now w in
         let start_date := (end_date - 86400 * days_back)%Z in
         statuses ← search_tweets w credentials query;
         let tweets := omap (tweet_entry start_date) (take 500 statuses) in
         Ok (SocialData ticker asset_type (hourly_averages_of tweets)
               (take 100 tweets)
               {| SocialMeta.total_tweets := Z.of_nat (length tweets);
                  SocialMeta.period_days := days_back;
                  SocialMeta.start_date := strftime w "%Y-%m-%d" start_date;
                  SocialMeta.end_date := strftime w "%Y-%m-%d" end_date;
                  SocialMeta.collected_at := strftime w TIME_FORMAT (now w) |}))
        (fun e =>
           Error (Some ticker) ("Social sentiment collection failed: " +:+ e))
  end.

End SocialCollector.

(** ** Batch orchestrator *)

Inductive Category : Type := Price | News | Social.

Definition category_name (c : Category) : string :=
  match c with
  | Price => "price"
  | News => "news"
  | Social => "social"
  end.

Definition category_dir (self : Collector) (c : Category) : string :=
  match c with
  | Price => price_dir self
  | News => news_dir self
  | Social => social_dir self
  end.

(** [os.path.join(self.<category>_dir, f"{ticker}_<category>.json")] *)
Definition file_path (self : Collector) (c : Category) (ticker : string)
    : string :=
  path_join (category_dir self c)
    (ticker +:+ "_" +:+ category_name c +:+ ".json").

Definition error_key (c : Category) : string := category_name c +:+ "_error".

(** A value stored in [results[ticker]]: a payload under the category's
    key, a message under its error key. *)
Inductive Entry : Type :=
| Data (data : Payload)
| Message (e : string).

(** The state the completion loops act on: the [results] dict and the
    snapshot files written so far, oldest first. *)
Record Batch := {
  results : gmap string (gmap string Entry);
  written : list (string * Payload) }.

(** [if ticker not in results: results[ticker] = {}] followed by
    [results[ticker][key] = v]. *)
Definition record_entry (ticker key : string) (v : Entry) (st : Batch)
    : Batch :=
  {| results :=
       <[ticker := <[key := v]> (default ∅ (results st !! ticker))]>
         (results st);
     written := written st |}.

(** [with open(file_path, 'w') as f: json.dump(data, f, indent=2)] *)
Definition save (w : World) (file_path : string) (data : Payload)
    (st : Batch) : result Batch :=
  if disk_accepts w file_path then
    Ok {| results := results st; written := written st ++ [(file_path, data)] |}
  else Raise ("[Errno 2] No such file or directory: '" +:+ file_path +:+ "'").

Section Orchestrator.
Variable w : World.
Variable self : Collector.

(** The body of a loop over [as_completed(future_to_ticker)]; [outcome] is
    what [future.result()] does. *)
Definition handle_completed (c : Category) (st : Batch)
    (completed : string * result Payload) : Batch :=
  let '(ticker, outcome) := completed in
  catch
    (data ← outcome;
     if negb (has_error data) then
       st ← save w (file_path self c ticker) data st;
       Ok (record_entry ticker (category_name c) (Data data) st)
     else
       e ← get_error data;
       Ok (record_entry ticker (error_key c) (Message e) st))
    (fun e => record_entry ticker (error_key c) (Message e) st).

(** One phase: the futures are handled in the order in which they
    complete. *)
Definition run_phase (c : Category)
    (completed : list (string * result Payload)) (st : Batch) : Batch :=
  foldl (handle_completed c) st completed.

(** [{executor.submit(collect, ticker, asset_type): ticker for ticker in
    tickers}]: no collector lets an exception escape, so each future holds
    the collector's return value. *)
Definition submit (collect : string → Payload) (tickers : list string)
    : list (string * result Payload) :=
  (fun ticker => (ticker, Ok (collect ticker))) <$> tickers.

(** [collect_sentiment_data_batch]; [as_completed] is the order in which the
    pool finishes the futures of a phase. *)
Definition collect_sentiment_data_batch
    (as_completed : list (string * result Payload)
                    → list (string * result Payload))
    (tickers : list string) (asset_type : string)
    (collect_price collect_news collect_social : bool) : Batch :=
  let st := {| results := ∅; written := [] |} in
  let st :=
    if collect_price then
      run_phase Price
        (as_completed
           (submit (fun t => collect_price_data w t asset_type "30d" "1h")
              tickers)) st
    else st in
  let st :=
    if collect_news then
      run_phase News
        (as_completed
           (submit (fun t => collect_news_sentiment w self t asset_type 7)
              tickers)) st
    else st in
  if collect_social && bool_decide (is_Some (twitter_credentials self)) then
    run_phase Social
      (as_completed
         (submit (fun t => collect_social_sentiment w self t asset_type 3)
            tickers)) st
  else st.

End Orchestrator.

(** ** A small world to run the collectors in

    Instants are seconds; the clock renders an instant as its decimal
    numeral, an hour as the number of the hour and a date as the number of
    the day, and reads numerals back. *)

Module Demo.

Fixpoint parse_digits (acc : Z) (s : string) : Z :=
  match s with
  | String c s' => parse_digits (10 * acc + (Z.of_nat (nat_of_ascii c) - 48)) s'
  | EmptyString => acc
  end.

Definition render (fmt : string) (t : Z) : string :=
  if String.eqb fmt "%Y-%m-%d %H" then pretty (t / 3600)%Z
  else if String.eqb fmt "%Y-%m-%d" then pretty (t / 86400)%Z
  else pretty t.

Definition parse (s fmt : string) : result Z := Ok (parse_digits 0 s).

(** The scorer of the demo world: the compound score is read off the first
    character of the text. *)
Definition scores (text : string) : Vader.t :=
  match text with
  | String "+" _ => Vader.mk 0.05 0.2 0 0.8
  | String "-" _ => Vader.mk (-0.05) 0 0.2 0.8
  | String "!" _ => Vader.mk 0.9 0.9 0 0.1
  | _ => Vader.mk 0 0 0 1
  end.

Definition world (history : result (list Bar.t))
    (news : result Response.news) (page : result Response.page)
    (elements : list Block.t) (statuses : result (list Status.t))
    (disk : string → bool) : World :=
  {| now := 864000;
     strftime := render;
     strptime := parse;
     re_sub := fun _ _ s => s;
     np_std := fun _ => Fin 0;
     polarity_scores := scores;
     yf_history := fun _ _ _ => history;
     yf_short_name := fun _ => Ok None;
     newsapi_get := fun _ => news;
     http_get := fun _ => page;
     article_elements := fun _ => Ok elements;
     search_tweets := fun _ _ => statuses;
     disk_accepts := disk |}.

Definition flat_bar (t : Z) : Bar.t :=
  Bar.mk t (Fin 100) (Fin 100) (Fin 100) (Fin 100) (Fin 1000).

(** A provider that returns [n] bars with close 100 and volume 1000. *)
Definition flat_world (n : nat) : World :=
  world (Ok (flat_bar <$> (Z.of_nat <$> seq 0 n))) (Raise "offline")
    (Raise "offline") [] (Raise "offline") (fun _ => true).

Definition collector : Collector :=
  init "financial_sentiment_data" None None None None None.

Definition keyed_collector : Collector :=
  init "financial_sentiment_data" (Some "k") (Some "s") (Some "t") (Some "a")
    (Some "news-key").

Definition credentials : Credentials.t := Credentials.mk "k" "s" "t" "a".

(** A news provider that answers every request with status 500. *)
Definition failing_news_world : World :=
  world (Raise "offline") (Ok (Response.mk_news 500 (Raise "no body")))
    (Ok (Response.mk_page 200 "<html>"))
    [ Block.mk (Some " + Shares rally after earnings ") (Some "2 hours ago");
      Block.mk None None;
      Block.mk (Some "- Regulators open a probe") None ]
    (Raise "offline") (fun _ => true).

(** The [i]-th post of a feed: one post a minute, going back from now. *)
Definition status (i : nat) : Status.t :=
  {| Status.id_str := pretty i;
     Status.created_at := (864000 - 60 * Z.of_nat i)%Z;
     Status.full_text :=
       (match (i mod 3)%nat with
        | 0%nat => "+ bullish on the quarter "
        | 1%nat => "- bearish on the guidance "
        | _ => "results are out today "
        end) +:+ pretty i;
     Status.followers_count := Z.of_nat (100 * i);
     Status.retweet_count := Z.of_nat i;
     Status.favorite_count := 2 |}.

Definition feed (n : nat) : list Status.t := status <$> seq 0 n.

(** A platform that returns [n] posts. *)
Definition social_world (n : nat) : World :=
  world (Raise "offline") (Raise "offline") (Raise "offline") []
    (Ok (feed n)) (fun _ => true).

(** The window start of a three-day collection. *)
Definition start_date : Z := 604800.

(** The first hourly aggregate of a four-post feed. *)
Definition first_hour : Hourly.t :=
  Eval vm_compute in
    default (Hourly.mk "" 0 0 0 0 0 0)
      (head (hourly_averages_of (social_world 4)
               (omap (tweet_entry (social_world 4) start_date) (feed 4)))).

(** The second tweet kept from a four-post feed. *)
Definition second_tweet : Tweet.t :=
  Eval vm_compute in
    default (Tweet.mk "" "" "" 0 0 0 (sentiment_entry (scores "")))
      (omap (tweet_entry (social_world 4) start_date) (feed 4) !! 1%nat).

(** Three futures of a news phase: a status payload, an error payload and
    a result that raises. *)
Definition completed_news : list (string * result Payload) :=
  [ ("AAPL", Ok (StatusOnly "AAPL"
                   "No articles found through alternative sources"
                   (Some "864000")));
    ("MSFT", Ok (Error (Some "MSFT") "connection reset"));
    ("TSLA", Raise "worker died") ].

Definition empty_batch : Batch := {| results := ∅; written := [] |}.

(** A day of three articles from the primary provider. *)
Definition raw_articles : list RawArticle.t :=
  [ RawArticle.mk (Some "Wire") (Some "+ Earnings beat expectations")
      (Some "Revenue up") (Some "2024-03-01T09:30:00Z") (Some "u1");
    RawArticle.mk (Some "Wire") (Some "- Guidance cut for next year")
      None (Some "2024-03-01T11:00:00Z") (Some "u2");
    RawArticle.mk (Some "Blog") (Some "Analyst day scheduled for May")
      (Some "Details follow") (Some "2024-03-01T15:45:00Z") None ].

Definition first_day : Daily.t :=
  Eval vm_compute in
    default (Daily.mk "" 0 0 0 0 0)
      (head (daily_averages_of
               (omap (primary_article (social_world 0)) raw_articles))).

End Demo.

(** The ["price_data"] list of a payload. *)
Definition price_data_of (data : Payload) : list PricePoint.t :=
  match data with
  | PriceData _ _ _ price_data _ => price_data
  | _ => []
  end.

(** A point that carries one of the three derived keys. *)
Definition derived (p : PricePoint.t) : bool :=
  bool_decide (is_Some (PricePoint.volatility_5period p))
  || bool_decide (is_Some (PricePoint.momentum_5period p))
  || bool_decide (is_Some (PricePoint.volume_ratio_5period p)).

(** ** Buckets, read off the list of items

    The grouping loops keep one accumulator per key.  The definitions below
    name the items a key collects and the quantities the accumulators are
    compared with. *)

(** The loop shape shared by the two grouping loops: an item without a key
    is skipped, another one updates the accumulator of its key, created from
    [init] when the key is new. *)
Definition group_step {A Acc} (key : A → option string)
    (add : A → Acc → Acc) (init : Acc)
    (m : gmap string Acc) (x : A) : gmap string Acc :=
  match key x with
  | None => m
  | Some k => <[k := add x (default init (m !! k))]> m
  end.

Definition bucket {A} (key : A → option string) (k : string) (l : list A)
    : list A :=
  filter (λ x, key x = Some k) l.

(** The date an article is grouped under, when [published_at] is a string. *)
Definition daily_key (article : Article.t) : option string :=
  (λ published_at, split "T" published_at !!! 0%nat)
    <$> Article.published_at article.

(** The hour a tweet is grouped under, when its timestamp parses. *)
Definition hourly_key (w : World) (tweet : Tweet.t) : option string :=
  match date_hour_of w tweet with
  | Ok date_hour => Some date_hour
  | Raise _ => None
  end.

(** The sum of a list of floats, added left to right from 0. *)
Definition Qsum (l : list Q) : Q := foldl Qplus 0%Q l.

(** The number of sentiment entries with a given label. *)
Definition count_label (label : string) (l : list Sentiment.t) : Z :=
  Z.of_nat (length (filter (λ s, Sentiment.label s = label) l)).

Definition tweet_compound (tweet : Tweet.t) : Q :=
  Sentiment.compound (Tweet.sentiment tweet).

(** The three strings the code stores under ["label"]. *)
Definition valid_label (label : string) : Prop :=
  label = "positive" ∨ label = "negative" ∨ label = "neutral".

Definition Zsum (l : list Z) : Z := foldr Z.add 0%Z l.

(** The number of tweets the hourly aggregates account for. *)
Definition total_count (hourly_averages : list Hourly.t) : Z :=
  Zsum (Hourly.tweets_count <$> hourly_averages).

(** ** Outcomes of a completed future *)

(** The snapshot a completed future calls for: one for a returned payload
    without the key ["error"], none otherwise. *)
Definition snapshot_of (self : Collector) (c : Category)
    (completed : string * result Payload) : option (string * Payload) :=
  match completed.2 with
  | Ok data =>
      if has_error data then None
      else Some (file_path self c completed.1, data)
  | Raise _ => None
  end.

(** The message of a failed future: the payload's ["error"], or the text of
    the exception [future.result()] raised. *)
Definition failure_message (outcome : result Payload) : option string :=
  match outcome with
  | Ok (Error _ e) => Some e
  | Ok _ => None
  | Raise e => Some e
  end.

(** [results[ticker][key]], when both keys are present. *)
Definition result_entry (st : Batch) (ticker key : string) : option Entry :=
  results st !! ticker ≫= (λ entries, entries !! key).

(** Whether the batch runs the phase of a category. *)
Definition phase_enabled (self : Collector)
    (collect_price collect_news collect_social : bool) (c : Category) : bool :=
  match c with
  | Price => collect_price
  | News => collect_news
  | Social => collect_social && bool_decide (is_Some (twitter_credentials self))
  end.

(** The call the batch submits for a ticker in the phase of a category. *)
Definition submitted_call (w : World) (self : Collector) (asset_type : string)
    (c : Category) (ticker : string) : Payload :=
  match c with
  | Price => collect_price_data w ticker asset_type "30d" "1h"
  | News => collect_news_sentiment w self ticker asset_type 7
  | Social => collect_social_sentiment w self ticker asset_type 3
  end.

(** The key and the value one iteration of a completion loop stores in
    [results[ticker]]: the payload under the category's key when it has no
    ["error"] and the file opens, a message under the error key
    otherwise. *)
Definition recorded (w : World) (self : Collector) (c : Category)
    (completed : string * result Payload) : string * Entry :=
  match completed.2 with
  | Raise e => (error_key c, Message e)
  | Ok data =>
      match failure_message (Ok data) with
      | Some e => (error_key c, Message e)
      | None =>
          let path := file_path self c completed.1 in
          if disk_accepts w path then (category_name c, Data data)
          else (error_key c,
                Message ("[Errno 2] No such file or directory: '"
                         +:+ path +:+ "'"))
      end
  end.

(** ** Ticker lists *)

Definition _get_stock_list (list_type : string) : list string :=
  if String.eqb list_type "major" then
    ["AAPL"; "MSFT"; "AMZN"; "GOOGL"; "META"; "TSLA"; "NVDA"; "JPM"; "BAC";
     "WMT"]
  else if String.eqb list_type "tech" then
    ["AAPL"; "MSFT"; "GOOGL"; "META"; "AMZN"; "NVDA"; "TSLA"; "NFLX"; "CRM";
     "ADBE"; "INTC"; "AMD"; "PYPL"; "UBER"; "ABNB"]
  else if String.eqb list_type "finance" then
    ["JPM"; "BAC"; "WFC"; "C"; "GS"; "MS"; "BLK"; "AXP"; "V"; "MA"; "COF";
     "SCHW"]
  else if String.eqb list_type "volatile" then
    ["TSLA"; "GME"; "AMC"; "COIN"; "RIVN"; "DKNG"; "PLTR"; "NIO"; "SNAP";
     "RBLX"; "HOOD"; "SPCE"]
  else if String.eqb list_type "meme" then
    ["GME"; "AMC"; "BB"; "EXPR"; "KOSS"; "NOK"; "BBBY"; "WISH"; "CLOV";
     "MVIS"; "TLRY"; "SNDL"]
  else
    ["AAPL"; "MSFT"; "AMZN"; "GOOGL"; "META"; "TSLA"; "NVDA"; "JPM"; "BAC";
     "WMT"].

Definition _get_crypto_list (list_type : string) : list string :=
  if String.eqb list_type "major" then
    ["BTC"; "ETH"; "BNB"; "SOL"; "XRP"; "ADA"; "DOGE"; "DOT"; "AVAX";
     "MATIC"]
  else if String.eqb list_type "meme" then
    ["DOGE"; "SHIB"; "PEPE"; "FLOKI"; "BONK"; "ELON"; "SAMO"; "WIF"; "MONA";
     "BABYDOGE"]
  else
    ["BTC"; "ETH"; "BNB"; "SOL"; "XRP"; "ADA"; "DOGE"; "DOT"; "AVAX";
     "MATIC"].

(** ** The finance lexicon *)

(** The dict literal of [update_vader_lexicon], in source order. *)
Definition finance_lexicon : list (string * Q) :=
  [ ("bullish", 2.5); ("outperform", 2.0); ("buy", 2.0); ("upgrade", 2.0);
    ("beat", 1.5); ("exceeded", 1.5); ("profit", 1.5); ("growth", 1.5);
    ("upside", 1.5); ("dividend", 1.0); ("uptrend", 1.5); ("rally", 1.5);
    ("bearish", -2.5); ("underperform", -2.0); ("sell", -2.0);
    ("downgrade", -2.0); ("miss", -1.5); ("below", -1.0); ("loss", -2.0);
    ("debt", -1.0); ("downside", -1.5); ("crash", -3.0);
    ("downtrend", -1.5); ("bankruptcy", -3.0); ("recession", -2.5);
    ("inflation", -1.0); ("volatility", -0.5) ]%Q.

(** [lexicon.update(d)]: the items of [d] are stored one by one. *)
Definition dict_update (lexicon : gmap string Q) (d : list (string * Q))
    : gmap string Q :=
  foldl (fun lexicon item => <[item.1 := item.2]> lexicon) lexicon d.

(** [update_vader_lexicon], as a function of the analyzer's lexicon.  The
    scorer of a [World] stays abstract: this is the update of the dict, not
    its effect on the scores. *)
Definition update_vader_lexicon (lexicon : gmap string Q) : gmap string Q :=
  dict_update lexicon finance_lexicon.

(** ** Paths *)

(** What [os.path.join] puts in front of a component that does not start
    with a slash. *)
Definition join_prefix (a : string) : string :=
  match a with
  | EmptyString => ""
  | _ => if String.eqb (substring (String.length a - 1) 1 a) "/"
         then a else a +:+ "/"
  end.

(** A ticker that does not start with a slash. *)
Definition relative (ticker : string) : Prop :=
  ∀ t', ticker ≠ String "/" t'.

(** ** Sample runs

    Results of the collectors in the small world, computed once. *)

Module Sample.

Definition flat_hist : list Bar.t :=
  Demo.flat_bar <$> (Z.of_nat <$> seq 0 12).

Definition flat_points : list PricePoint.t :=
  Eval vm_compute in
    price_data_of
      (collect_price_data (Demo.flat_world 12) "AAPL" "stock" "30d" "1h").

Definition flat_meta : PriceMeta.t :=
  Eval vm_compute in
    match collect_price_data (Demo.flat_world 12) "AAPL" "stock" "30d" "1h"
    with
    | PriceData _ _ _ _ metadata => metadata
    | _ => PriceMeta.mk "" 0 None None ""
    end.

(** The point of index 5 of the flat series. *)
Definition sixth_point : PricePoint.t :=
  Eval vm_compute in
    default (PricePoint.mk "" None None None None None None None None)
      (flat_points !! 5%nat).




(** A news provider that answers with three articles. *)
Definition news_body : NewsBody.t :=
  NewsBody.mk (Some "ok") (Some 3%Z) (Some Demo.raw_articles).

Definition news_response : Response.news :=
  Response.mk_news 200 (Ok news_body).

Definition news_world : World :=
  Demo.world (Raise "offline") (Ok news_response) (Raise "offline") []
    (Raise "offline") (fun _ => true).

Definition social_hours : list Hourly.t :=
  Eval vm_compute in
    match collect_social_sentiment (Demo.social_world 4) Demo.keyed_collector
            "AAPL" "stock" 3 with
    | SocialData _ _ hourly_averages _ _ => hourly_averages
    | _ => []
    end.

Definition social_tweets : list Tweet.t :=
  Eval vm_compute in
    match collect_social_sentiment (Demo.social_world 4) Demo.keyed_collector
            "AAPL" "stock" 3 with
    | SocialData _ _ _ tweets _ => tweets
    | _ => []
    end.

Definition social_meta : SocialMeta.t :=
  Eval vm_compute in
    match collect_social_sentiment (Demo.social_world 4) Demo.keyed_collector
            "AAPL" "stock" 3 with
    | SocialData _ _ _ _ metadata => metadata
    | _ => SocialMeta.mk 0 0 "" "" ""
    end.

(** A collector constructed with an empty API secret. *)
Definition half_keyed_collector : Collector :=
  init "financial_sentiment_data" (Some "k") (Some "") (Some "t") (Some "a")
    None.

End Sample.

(** * Properties *)

Local Open Scope list_scope.

(** ** Loops that assign to one index per iteration *)

Section Pointwise.
Context {A : Type} (step : list A → nat → list A) (g : nat → A → A).
Hypothesis step_lookup : ∀ l i j,
  step l i !! j = if decide (i = j) then g i <$> l !! j else l !! j.

Lemma foldl_pointwise n : ∀ a l j,
  foldl step l (seq a n) !! j
  = if decide (a ≤ j < a + n)%nat then g j <$> l !! j else l !! j.
Proof.
  induction n as [|n IH]; intros a l j; simpl.
  - case_decide; [lia | done].
  - rewrite IH, step_lookup.
    repeat case_decide; subst; try lia; done.
Qed.

Lemma foldl_range_pointwise lo hi l j :
  foldl step l (range lo hi) !! j
  = if decide (lo ≤ j < hi)%nat then g j <$> l !! j else l !! j.
Proof.
  unfold range. rewrite foldl_pointwise.
  repeat case_decide; try lia; done.
Qed.
End Pointwise.

Lemma mapM_Ok_length {A B} (f : A → result B) l l' :
  mapM f l = Ok l' → length l' = length l.
Proof.
  revert l'. induction l as [|x l IH]; intros l'; simpl.
  - by intros [= <-].
  - destruct (f x) as [y|]; simpl; [|done].
    destruct (mapM f l) as [ys|]; simpl; [|done].
    intros [= <-]. simpl. by rewrite (IH ys).
Qed.

Lemma mapM_Ok_lookup {A B} (f : A → result B) l l' i y :
  mapM f l = Ok l' → l' !! i = Some y → ∃ x, l !! i = Some x ∧ f x = Ok y.
Proof.
  revert l' i. induction l as [|x l IH]; intros l' i; simpl.
  - by intros [= <-].
  - destruct (f x) as [y0|] eqn:Hx; simpl; [|done].
    destruct (mapM f l) as [ys|]; simpl; [|done].
    intros [= <-]. destruct i as [|i]; simpl.
    + intros [= <-]. eauto.
    + intros Hi. eapply IH; eauto.
Qed.

Lemma mapM_total {A B} (f : A → result B) l :
  Forall (λ x, ∃ y, f x = Ok y) l → ∃ l', mapM f l = Ok l'.
Proof.
  induction 1 as [|x l [y Hy] _ [l' IH]]; simpl; [by eexists|].
  rewrite Hy, IH. simpl. by eexists.
Qed.

(** ** Price series *)

Section PriceProperties.
Variable w : World.

Lemma volatility_step_lookup closes l i j :
  volatility_step w closes l i !! j
  = if decide (i = j)
    then PricePoint.set_volatility (volatility_at w closes i) <$> l !! j
    else l !! j.
Proof.
  unfold volatility_step. rewrite list_lookup_alter.
  case_decide; subst; done.
Qed.

Lemma momentum_step_lookup closes l i j :
  momentum_step closes l i !! j
  = if decide (i = j)
    then PricePoint.set_momentum (momentum_at closes i) <$> l !! j
    else l !! j.
Proof.
  unfold momentum_step. rewrite list_lookup_alter.
  case_decide; subst; done.
Qed.

Lemma volume_ratio_step_lookup volumes l i j :
  volume_ratio_step volumes l i !! j
  = if decide (i = j)
    then (match volume_ratio_at volumes i with
          | Some v => PricePoint.set_volume_ratio v
          | None => id
          end) <$> l !! j
    else l !! j.
Proof.
  unfold volume_ratio_step. destruct (volume_ratio_at volumes i).
  - rewrite list_lookup_alter. case_decide; subst; done.
  - case_decide; [|done]. by destruct (l !! j).
Qed.

(** The block under [if len(price_data) > 10], read index by index. *)
Lemma add_indicators_lookup hist price_data j :
  add_indicators w hist price_data !! j
  = if decide (10 < length price_data ∧ 5 ≤ j)%nat
    then with_indicators w hist j <$> price_data !! j
    else price_data !! j.
Proof.
  unfold add_indicators.
  destruct (10 <? length price_data)%nat eqn:Hlen.
  - apply Nat.ltb_lt in Hlen.
    rewrite (foldl_range_pointwise _ _ (volume_ratio_step_lookup _)).
    rewrite (foldl_range_pointwise _ _ (momentum_step_lookup _)).
    rewrite (foldl_range_pointwise _ _ (volatility_step_lookup _)).
    destruct (decide (5 ≤ j < length price_data)%nat) as [Hj|Hj].
    + rewrite decide_True by lia.
      destruct (price_data !! j) as [p|]; [|done]. simpl.
      unfold with_indicators.
      by destruct (volume_ratio_at _ j).
    + destruct (decide (10 < length price_data ∧ 5 ≤ j)%nat) as [Hj'|]; [|done].
      rewrite (lookup_ge_None_2 price_data j) by lia. done.
  - apply Nat.ltb_ge in Hlen. rewrite decide_False by lia. done.
Qed.

Lemma add_indicators_length hist price_data :
  length (add_indicators w hist price_data) = length price_data.
Proof.
  apply Nat.le_antisymm.
  - apply Nat.nlt_ge. intros Hlt.
    destruct (lookup_lt_is_Some_2 (add_indicators w hist price_data)
                (length price_data)) as [p Hp]; [lia|].
    rewrite add_indicators_lookup in Hp.
    rewrite (lookup_ge_None_2 price_data (length price_data)) in Hp by lia.
    by case_decide.
  - apply Nat.nlt_ge. intros Hlt.
    destruct (lookup_lt_is_Some_2 price_data
                (length (add_indicators w hist price_data))) as [p Hp]; [lia|].
    pose proof (add_indicators_lookup hist price_data
                  (length (add_indicators w hist price_data))) as E.
    rewrite (lookup_ge_None_2 (add_indicators w hist price_data)) in E by lia.
    rewrite Hp in E. by case_decide.
Qed.

(** A freshly converted bar carries no derived key. *)
Lemma data_point_fresh row p :
  data_point w row = Ok p →
  PricePoint.volatility_5period p = None
  ∧ PricePoint.momentum_5period p = None
  ∧ PricePoint.volume_ratio_5period p = None.
Proof.
  unfold data_point.
  destruct (isnan (Bar.Volume row)); simpl.
  - by intros [= <-].
  - destruct (py_int (Bar.Volume row)); simpl; [|done]. by intros [= <-].
Qed.

(** The conversion raises only on an infinite volume reading. *)
Lemma data_point_total row :
  (∀ s, Bar.Volume row ≠ Inf s) → ∃ p, data_point w row = Ok p.
Proof.
  intros Hv. unfold data_point.
  destruct (Bar.Volume row) as [q|s|] eqn:E; simpl; eauto.
  by destruct (Hv s).
Qed.

(** The collector's result on a non-empty history whose rows convert. *)
Lemma collect_price_data_series ticker asset_type period interval hist :
  yf_history w (provider_symbol ticker asset_type) period interval = Ok hist →
  hist ≠ [] →
  Forall (λ row, ∀ s, Bar.Volume row ≠ Inf s) hist →
  ∃ points metadata,
    mapM (data_point w) hist = Ok points
    ∧ collect_price_data w ticker asset_type period interval
      = PriceData ticker asset_type interval
          (add_indicators w hist points) metadata.
Proof.
  intros Hfetch Hne Hvol.
  destruct (mapM_total (data_point w) hist) as [points Hpoints].
  { eapply Forall_impl; [exact Hvol|]. intros row. apply data_point_total. }
  exists points. eexists. split; [done|].
  unfold collect_price_data. rewrite Hfetch. simpl.
  destruct hist as [|row hist']; [done|].
  rewrite Hpoints. simpl. reflexivity.
Qed.

End PriceProperties.

Lemma fmap_constant {A B} (f : A → B) (c : B) (l : list A) :
  Forall (λ x, f x = c) l → f <$> l = replicate (length l) c.
Proof. induction 1 as [|x l Hx _ IH]; [done|]. rewrite fmap_cons, Hx, IH. done. Qed.

Lemma slice_replicate {A} (c : A) (n i : nat) :
  (5 ≤ i ≤ n)%nat → slice (i - 5) i (replicate n c) = replicate 5 c.
Proof.
  intros Hi. unfold slice. rewrite drop_replicate, take_replicate.
  f_equal. lia.
Qed.

(** C2 (amended).  A price series of at least 11 bars carries
    [volatility_5period] and [momentum_5period] on every point of index 5 or
    more and on no point of index below 5; a series of at most 10 bars
    carries them on no point.  The series has one point per bar. *)
Theorem indicators_attached_from_index_5
    (w : World) (ticker asset_type period interval : string)
    (hist : list Bar.t) :
  yf_history w (provider_symbol ticker asset_type) period interval = Ok hist →
  hist ≠ [] →
  Forall (λ row, ∀ s, Bar.Volume row ≠ Inf s) hist →
  ∃ price_data metadata,
    collect_price_data w ticker asset_type period interval
    = PriceData ticker asset_type interval price_data metadata
    ∧ length price_data = length hist
    ∧ ∀ i p, price_data !! i = Some p →
        if decide (10 < length hist ∧ 5 ≤ i)%nat
        then is_Some (PricePoint.volatility_5period p)
             ∧ is_Some (PricePoint.momentum_5period p)
        else PricePoint.volatility_5period p = None
             ∧ PricePoint.momentum_5period p = None.
Proof.
  intros Hfetch Hne Hvol.
  destruct (collect_price_data_series w _ _ _ _ _ Hfetch Hne Hvol)
    as (points & metadata & Hpoints & Hres).
  pose proof (mapM_Ok_length _ _ _ Hpoints) as Hlen.
  exists (add_indicators w hist points), metadata.
  split; [exact Hres|]. split.
  { by rewrite add_indicators_length. }
  intros i p. rewrite add_indicators_lookup, Hlen.
  case_decide as Hi.
  - destruct (points !! i) as [p0|] eqn:Hp0; [|done].
    intros [= <-]. unfold with_indicators.
    destruct (volume_ratio_at _ i); simpl; eauto.
  - intros Hp.
    destruct (mapM_Ok_lookup _ _ _ _ _ Hpoints Hp) as (row & _ & Hrow).
    apply data_point_fresh in Hrow. tauto.
Qed.

Lemma indicators_attached_witness :
  ∃ price_data metadata,
    collect_price_data (Demo.flat_world 12) "BTC" "crypto" "30d" "1h"
    = PriceData "BTC" "crypto" "1h" price_data metadata
    ∧ length price_data = 12%nat
    ∧ ∀ i p, price_data !! i = Some p →
        if decide (10 < 12 ∧ 5 ≤ i)%nat
        then is_Some (PricePoint.volatility_5period p)
             ∧ is_Some (PricePoint.momentum_5period p)
        else PricePoint.volatility_5period p = None
             ∧ PricePoint.momentum_5period p = None.
Proof.
  refine (indicators_attached_from_index_5 (Demo.flat_world 12)
            "BTC" "crypto" "30d" "1h"
            (Demo.flat_bar <$> (Z.of_nat <$> seq 0 12)) _ _ _).
  - reflexivity.
  - discriminate.
  - repeat constructor; discriminate.
Defined.

(** C2 as stated fails: a series of 10 bars has points of index 5 to 9, and
    none of them carries a derived field. *)
Lemma indicators_missing_on_10_bars :
  let price_data :=
    price_data_of
      (collect_price_data (Demo.flat_world 10) "AAPL" "stock" "30d" "1h") in
  length price_data = 10%nat
  ∧ ∃ p, price_data !! 5%nat = Some p
      ∧ PricePoint.volatility_5period p = None
      ∧ PricePoint.momentum_5period p = None.
Proof. vm_compute. split; [reflexivity|]. eexists. repeat split. Qed.

(** C1 (amended).  When the provider returns bars that all have close 100
    and volume 1000, a series of at least 11 bars has [momentum_5period] 0.0
    and [volume_ratio_5period] 1.0 on every point of index 5 or more and no
    derived field below index 5; a series of at most 10 bars, and so one of
    exactly 6, has no derived indicator row at all. *)
Theorem flat_series_indicators
    (w : World) (ticker asset_type period interval : string)
    (hist : list Bar.t) :
  yf_history w (provider_symbol ticker asset_type) period interval = Ok hist →
  hist ≠ [] →
  Forall (λ row, Bar.Close row = Fin 100 ∧ Bar.Volume row = Fin 1000) hist →
  ∃ price_data metadata,
    collect_price_data w ticker asset_type period interval
    = PriceData ticker asset_type interval price_data metadata
    ∧ length price_data = length hist
    ∧ ∀ i p, price_data !! i = Some p →
        if decide (10 < length hist ∧ 5 ≤ i)%nat
        then ∃ m v,
               PricePoint.momentum_5period p = Some (Fin m) ∧ (m == 0)%Q
               ∧ PricePoint.volume_ratio_5period p = Some (Fin v) ∧ (v == 1)%Q
        else derived p = false.
Proof.
  intros Hfetch Hne Hflat.
  assert (Hvol : Forall (λ row, ∀ s, Bar.Volume row ≠ Inf s) hist).
  { eapply Forall_impl; [exact Hflat|]. intros row [_ ->]. done. }
  destruct (collect_price_data_series w _ _ _ _ _ Hfetch Hne Hvol)
    as (points & metadata & Hpoints & Hres).
  pose proof (mapM_Ok_length _ _ _ Hpoints) as Hlen.
  exists (add_indicators w hist points), metadata.
  split; [exact Hres|]. split.
  { by rewrite add_indicators_length. }
  intros i p Hp.
  assert (Hi : (i < length hist)%nat).
  { rewrite <- Hlen, <- (add_indicators_length w hist).
    by eapply lookup_lt_Some. }
  revert Hp. rewrite add_indicators_lookup, Hlen.
  case_decide as Hwin.
  - destruct (points !! i) as [p0|] eqn:Hp0; [|done].
    intros [= <-]. unfold with_indicators, momentum_at, volume_ratio_at.
    rewrite (fmap_constant Bar.Close (Fin 100) hist),
            (fmap_constant Bar.Volume (Fin 1000) hist).
    2,3: eapply Forall_impl; [exact Hflat|]; by intros row [? ?].
    rewrite slice_replicate by lia.
    rewrite !lookup_total_replicate_2 by lia.
    exists (py_round ((100 - 100) / 100 * 100) 2),
           (py_round (1000 / ((0 + 1000 + 1000 + 1000 + 1000 + 1000) / inject_Z 5)) 2).
    repeat split; reflexivity.
  - intros Hp.
    destruct (mapM_Ok_lookup _ _ _ _ _ Hpoints Hp) as (row & _ & Hrow).
    apply data_point_fresh in Hrow. destruct Hrow as (E1 & E2 & E3).
    unfold derived. by rewrite E1, E2, E3.
Qed.

Lemma flat_series_witness :
  ∃ price_data metadata,
    collect_price_data (Demo.flat_world 11) "AAPL" "stock" "30d" "1h"
    = PriceData "AAPL" "stock" "1h" price_data metadata
    ∧ length price_data = 11%nat
    ∧ ∀ i p, price_data !! i = Some p →
        if decide (10 < 11 ∧ 5 ≤ i)%nat
        then ∃ m v,
               PricePoint.momentum_5period p = Some (Fin m) ∧ (m == 0)%Q
               ∧ PricePoint.volume_ratio_5period p = Some (Fin v) ∧ (v == 1)%Q
        else derived p = false.
Proof.
  refine (flat_series_indicators (Demo.flat_world 11)
            "AAPL" "stock" "30d" "1h"
            (Demo.flat_bar <$> (Z.of_nat <$> seq 0 11)) _ _ _).
  - reflexivity.
  - discriminate.
  - repeat constructor.
Defined.

(** C1 as stated fails: on exactly 6 bars with close 100 and volume 1000 the
    series has 6 points and the point of index 5 carries neither
    [momentum_5period] nor [volume_ratio_5period]; no point is a derived
    indicator row. *)
Lemma six_flat_bars_no_indicator_row :
  let price_data :=
    price_data_of
      (collect_price_data (Demo.flat_world 6) "AAPL" "stock" "30d" "1h") in
  length price_data = 6%nat
  ∧ (∃ p, price_data !! 5%nat = Some p
      ∧ PricePoint.momentum_5period p = None
      ∧ PricePoint.volume_ratio_5period p = None)
  ∧ Forall (λ p, derived p = false) price_data.
Proof.
  vm_compute. split; [reflexivity|]. split.
  - eexists. repeat split.
  - repeat constructor.
Qed.

(** ** Rounding *)

Lemma round_half_even_bound (x : Q) :
  (- Zpos (Qden x) <= 2 * (round_half_even x * Zpos (Qden x) - Qnum x)
   <= Zpos (Qden x))%Z.
Proof.
  unfold round_half_even.
  destruct x as [n d]; simpl.
  pose proof (Z.div_mod n (Zpos d) ltac:(lia)) as Hdm.
  pose proof (Z.mod_pos_bound n (Zpos d) ltac:(lia)) as Hmod.
  set (fl := (n / Zpos d)%Z) in *. set (r := (n mod Zpos d)%Z) in *.
  destruct (Z.ltb_spec (2 * r) (Zpos d)); [nia|].
  destruct (Z.ltb_spec (Zpos d) (2 * r)); [nia|].
  destruct (Z.even fl); nia.
Qed.

Lemma round_half_even_close (x : Q) :
  (- (1 # 2) <= inject_Z (round_half_even x) - x <= 1 # 2)%Q.
Proof.
  pose proof (round_half_even_bound x) as Hb.
  destruct x as [n d]; simpl in Hb.
  unfold Qle, Qminus, Qplus, Qopp, inject_Z; simpl.
  split; nia.
Qed.

(** Rounding to 3 decimals moves a value by at most half a thousandth. *)
Lemma py_round_3_close (x : Q) :
  (- (1 # 2000) <= py_round x 3 - x <= 1 # 2000)%Q.
Proof.
  unfold py_round. change (10 ^ Pos.of_nat 3)%positive with 1000%positive.
  pose proof (round_half_even_close (x * inject_Z 1000)) as Hc.
  set (k := round_half_even (x * inject_Z 1000)) in *.
  assert (E : (k # 1000 == inject_Z k * (1 # 1000))%Q).
  { unfold Qeq, Qmult, inject_Z; simpl. lia. }
  rewrite E.
  assert (E1000 : (inject_Z 1000 == 1000)%Q) by reflexivity.
  rewrite E1000 in Hc. lra.
Qed.

(** The rounded value is a whole number of thousandths. *)
Lemma py_round_3_thousandths (x : Q) :
  ∃ k : Z, py_round x 3 = (k # 1000)%Q
           ∧ (- (1 # 2) <= inject_Z k - x * 1000 <= 1 # 2)%Q.
Proof.
  exists (round_half_even (x * inject_Z 1000)). split; [reflexivity|].
  pose proof (round_half_even_close (x * inject_Z 1000)) as Hc.
  set (k := round_half_even (x * inject_Z 1000)) in *.
  assert (E1000 : (inject_Z 1000 == 1000)%Q) by reflexivity.
  rewrite E1000 in Hc. exact Hc.
Qed.

(** Three label ratios over one positive count, each rounded to three
    decimals, add up to 1 give or take one thousandth. *)
Lemma rounded_ratios_sum (p q r n : Z) :
  (0 < n)%Z → (p + q + r = n)%Z →
  (- (1 # 1000)
   <= py_round (inject_Z p / inject_Z n) 3
      + py_round (inject_Z q / inject_Z n) 3
      + py_round (inject_Z r / inject_Z n) 3 - 1
   <= 1 # 1000)%Q.
Proof.
  intros Hn Hsum.
  destruct (py_round_3_thousandths (inject_Z p / inject_Z n)) as (kp & -> & Hp).
  destruct (py_round_3_thousandths (inject_Z q / inject_Z n)) as (kq & -> & Hq).
  destruct (py_round_3_thousandths (inject_Z r / inject_Z n)) as (kr & -> & Hr).
  assert (Hn' : ¬ (inject_Z n == 0)%Q).
  { unfold Qeq, inject_Z; simpl. lia. }
  assert (Hone : (inject_Z p / inject_Z n + inject_Z q / inject_Z n
                  + inject_Z r / inject_Z n == 1)%Q).
  { subst n. rewrite !inject_Z_plus in *. field. exact Hn'. }
  assert (Hk : (- (3 # 2) <= inject_Z (kp + kq + kr) - 1000 <= 3 # 2)%Q).
  { rewrite !inject_Z_plus. lra. }
  assert (Hz : (-1 <= kp + kq + kr - 1000 <= 1)%Z).
  { destruct Hk as [Hlo Hhi]. revert Hlo Hhi.
    unfold Qle, Qminus, Qplus, Qopp, inject_Z; simpl. lia. }
  assert (E : ((kp # 1000) + (kq # 1000) + (kr # 1000)
               == inject_Z (kp + kq + kr) * (1 # 1000))%Q).
  { unfold Qeq, Qmult, Qplus, inject_Z; simpl. lia. }
  rewrite E.
  assert (Hq' : (-1 <= inject_Z (kp + kq + kr) - 1000 <= 1)%Q).
  { unfold Qle, Qminus, Qplus, Qopp, inject_Z; simpl. lia. }
  lra.
Qed.

(** ** Grouping loops *)

Section Grouping.
Context {A Acc : Type} (key : A → option string)
  (add : A → Acc → Acc) (init : Acc).

Lemma bucket_snoc k l x :
  bucket key k (l ++ [x])
  = bucket key k l ++ (if decide (key x = Some k) then [x] else []).
Proof.
  unfold bucket. rewrite filter_app. f_equal.
Qed.

(** After the loop, the accumulator of a key is the fold of [add] over the
    items of that key, and a key without items has no accumulator. *)
Lemma group_lookup l k :
  foldl (group_step key add init) ∅ l !! k
  = match bucket key k l with
    | [] => None
    | b => Some (foldl (λ acc x, add x acc) init b)
    end.
Proof.
  induction l as [|x l IH] using rev_ind; [done|].
  rewrite foldl_snoc, bucket_snoc. unfold group_step at 1.
  destruct (key x) as [kx|] eqn:Hkx.
  - destruct (decide (kx = k)) as [->|Hne].
    + rewrite lookup_insert_eq, IH, decide_True by done.
      destruct (bucket key k l) as [|y b]; [done|].
      simpl. by rewrite foldl_snoc.
    + rewrite lookup_insert_ne, IH, decide_False by congruence.
      by rewrite app_nil_r.
  - rewrite IH, decide_False by congruence. by rewrite app_nil_r.
Qed.

Lemma group_lookup_Some l k acc :
  foldl (group_step key add init) ∅ l !! k = Some acc →
  bucket key k l ≠ [] ∧ acc = foldl (λ acc x, add x acc) init (bucket key k l).
Proof.
  rewrite group_lookup. destruct (bucket key k l); [done|].
  intros [= <-]. done.
Qed.
End Grouping.

Lemma Qsum_snoc (l : list Q) (x : Q) : Qsum (l ++ [x]) = (Qsum l + x)%Q.
Proof. unfold Qsum. by rewrite foldl_snoc. Qed.

Lemma count_label_snoc label l s :
  count_label label (l ++ [s])
  = (count_label label l
     + if decide (Sentiment.label s = label) then 1 else 0)%Z.
Proof.
  unfold count_label. rewrite filter_app, length_app, filter_cons, filter_nil.
  case_decide; simpl; lia.
Qed.

Lemma String_eqb_decide (a b : string) :
  String.eqb a b = bool_decide (a = b).
Proof.
  destruct (String.eqb_spec a b).
  - by rewrite bool_decide_eq_true_2.
  - by rewrite bool_decide_eq_false_2.
Qed.


(** ** Labels *)

Lemma label_of_valid (compound : Q) : valid_label (label_of compound).
Proof.
  unfold valid_label, label_of.
  destruct (Qle_bool 0.05 compound); [auto|].
  destruct (Qle_bool compound (-0.05)); auto.
Qed.

Lemma primary_article_label w raw article :
  primary_article w raw = Some article →
  Sentiment.label (Article.sentiment article)
  = label_of (Sentiment.compound (Article.sentiment article)).
Proof.
  unfold primary_article. case_match; [done|]. by intros [= <-].
Qed.

Lemma alternative_article_label w url element article :
  alternative_article w url element = Some article →
  Sentiment.label (Article.sentiment article)
  = label_of (Sentiment.compound (Article.sentiment article)).
Proof.
  unfold alternative_article. case_match; [|done]. by intros [= <-].
Qed.

Lemma tweet_entry_label w start status tweet :
  tweet_entry w start status = Some tweet →
  Sentiment.label (Tweet.sentiment tweet) = label_of (tweet_compound tweet).
Proof.
  unfold tweet_entry. repeat case_match; try done. by intros [= <-].
Qed.

(** ** Accumulators *)

Ltac label_cases :=
  repeat match goal with
  | |- context [String.eqb ?a ?b] => rewrite (String_eqb_decide a b)
  | |- context [bool_decide ?P] => destruct (bool_decide_reflect P)
  | |- context [decide ?P] => destruct (decide P)
  end.

Lemma hourly_accumulator (b : list Tweet.t) :
  Forall (λ t, valid_label (Sentiment.label (Tweet.sentiment t))) b →
  foldl (λ acc t, hourly_add t acc) hourly_init b
  = {| HourlyAcc.tweets := Z.of_nat (length b);
       HourlyAcc.sentiment_sum := Qsum (tweet_compound <$> b);
       HourlyAcc.sentiment_weighted_sum :=
         Qsum ((λ t, tweet_compound t * tweet_weight t)%Q <$> b);
       HourlyAcc.total_weight := Qsum (tweet_weight <$> b);
       HourlyAcc.positive_count :=
         count_label "positive" (Tweet.sentiment <$> b);
       HourlyAcc.negative_count :=
         count_label "negative" (Tweet.sentiment <$> b);
       HourlyAcc.neutral_count :=
         count_label "neutral" (Tweet.sentiment <$> b) |}.
Proof.
  induction b as [|t b IH] using rev_ind; intros Hvalid; [done|].
  apply Forall_app in Hvalid as [Hb Ht].
  apply Forall_inv in Ht.
  rewrite foldl_snoc, (IH Hb). unfold hourly_add.
  rewrite !fmap_app, !list_fmap_singleton, !Qsum_snoc, !count_label_snoc,
    length_app. simpl.
  f_equal; try reflexivity; try lia;
    label_cases; destruct Ht as [?|[?|?]]; congruence || lia.
Qed.

Lemma daily_accumulator (b : list Article.t) :
  Forall (λ a, valid_label (Sentiment.label (Article.sentiment a))) b →
  foldl (λ acc a, daily_add a acc) daily_init b
  = {| DailyAcc.articles := Z.of_nat (length b);
       DailyAcc.sentiment_sum :=
         Qsum ((λ a, Sentiment.compound (Article.sentiment a)) <$> b);
       DailyAcc.positive_count :=
         count_label "positive" (Article.sentiment <$> b);
       DailyAcc.negative_count :=
         count_label "negative" (Article.sentiment <$> b);
       DailyAcc.neutral_count :=
         count_label "neutral" (Article.sentiment <$> b) |}.
Proof.
  induction b as [|a b IH] using rev_ind; intros Hvalid; [done|].
  apply Forall_app in Hvalid as [Hb Ha].
  apply Forall_inv in Ha.
  rewrite foldl_snoc, (IH Hb). unfold daily_add.
  rewrite !fmap_app, !list_fmap_singleton, !Qsum_snoc, !count_label_snoc,
    length_app. simpl.
  f_equal; try reflexivity; try lia;
    label_cases; destruct Ha as [?|[?|?]]; congruence || lia.
Qed.

(** The label counts of valid labels add up to the number of items. *)
Lemma count_label_total (l : list Sentiment.t) :
  Forall (λ s, valid_label (Sentiment.label s)) l →
  (count_label "positive" l + count_label "negative" l
   + count_label "neutral" l = Z.of_nat (length l))%Z.
Proof.
  induction l as [|s l IH] using rev_ind; intros Hvalid; [done|].
  apply Forall_app in Hvalid as [Hl Hs].
  apply Forall_inv in Hs.
  rewrite !count_label_snoc, length_app. simpl.
  specialize (IH Hl).
  label_cases; destruct Hs as [?|[?|?]]; congruence || lia.
Qed.

Lemma foldl_ext_eq {A B} (f g : A → B → A) (l : list B) (a : A) :
  (∀ a x, f a x = g a x) → foldl f a l = foldl g a l.
Proof.
  intros Hfg. revert a. induction l as [|x l IH]; intros a; simpl; [done|].
  by rewrite Hfg, IH.
Qed.

Lemma daily_fold_group (articles : list Article.t) :
  foldl daily_step ∅ articles
  = foldl (group_step daily_key daily_add daily_init) ∅ articles.
Proof.
  apply foldl_ext_eq. intros m a.
  unfold daily_step, group_step, daily_key.
  by destruct (Article.published_at a).
Qed.

Lemma hourly_fold_group w (tweets : list Tweet.t) :
  foldl (hourly_step w) ∅ tweets
  = foldl (group_step (hourly_key w) hourly_add hourly_init) ∅ tweets.
Proof.
  apply foldl_ext_eq. intros m t.
  unfold hourly_step, group_step, hourly_key.
  by destruct (date_hour_of w t).
Qed.

Lemma elem_of_sorted_by {A} (key : A → string) (l : list A) (x : A) :
  x ∈ sorted_by key l ↔ x ∈ l.
Proof. unfold sorted_by. by rewrite merge_sort_Permutation. Qed.

(** An emitted hourly aggregate comes from the accumulator of its key, and
    that accumulator is the fold over the tweets of the key. *)
Lemma hourly_averages_elem w (tweets : list Tweet.t) (h : Hourly.t) :
  h ∈ hourly_averages_of w tweets →
  let b := bucket (hourly_key w) (Hourly.date_hour h) tweets in
  b ≠ []
  ∧ hourly_average
      (Hourly.date_hour h, foldl (λ acc t, hourly_add t acc) hourly_init b)
    = Some h.
Proof.
  unfold hourly_averages_of. rewrite elem_of_sorted_by, list_elem_of_omap.
  intros ([k data] & Hin & Hh).
  apply elem_of_map_to_list in Hin.
  rewrite hourly_fold_group in Hin.
  apply group_lookup_Some in Hin as [Hne ->].
  assert (Hk : Hourly.date_hour h = k).
  { unfold hourly_average in Hh. case_match; [|done]. by injection Hh as <-. }
  simpl. rewrite Hk. done.
Qed.

Lemma daily_averages_elem (articles : list Article.t) (d : Daily.t) :
  d ∈ daily_averages_of articles →
  let b := bucket daily_key (Daily.date d) articles in
  b ≠ []
  ∧ daily_average
      (Daily.date d, foldl (λ acc a, daily_add a acc) daily_init b)
    = Some d.
Proof.
  unfold daily_averages_of. rewrite elem_of_sorted_by, list_elem_of_omap.
  intros ([k data] & Hin & Hd).
  apply elem_of_map_to_list in Hin.
  rewrite daily_fold_group in Hin.
  apply group_lookup_Some in Hin as [Hne ->].
  assert (Hk : Daily.date d = k).
  { unfold daily_average in Hd. case_match; [|done]. by injection Hd as <-. }
  simpl. rewrite Hk. done.
Qed.

Lemma primary_articles_valid w (raw : list RawArticle.t) :
  Forall (λ a, valid_label (Sentiment.label (Article.sentiment a)))
    (omap (primary_article w) raw).
Proof.
  apply Forall_forall. intros a Ha.
  apply list_elem_of_omap in Ha as (r & _ & Hr).
  rewrite (primary_article_label _ _ _ Hr). apply label_of_valid.
Qed.

Lemma tweet_entries_valid w start (statuses : list Status.t) :
  Forall (λ t, valid_label (Sentiment.label (Tweet.sentiment t)))
    (omap (tweet_entry w start) statuses).
Proof.
  apply Forall_forall. intros t Ht.
  apply list_elem_of_omap in Ht as (s & _ & Hs).
  rewrite (tweet_entry_label _ _ _ _ Hs). apply label_of_valid.
Qed.

Lemma bucket_Forall {A} (P : A → Prop) key k (l : list A) :
  Forall P l → Forall P (bucket key k l).
Proof.
  rewrite !Forall_forall. intros HP x Hx.
  apply list_elem_of_filter in Hx as [_ Hx]. by apply HP.
Qed.

Lemma nonempty_length_pos {A} (l : list A) :
  l ≠ [] → (0 < Z.of_nat (length l))%Z.
Proof. destruct l; [done|]. simpl. lia. Qed.

(** C5.  Every emitted daily and hourly aggregate stands for a bucket with
    at least one item; its three ratios are the counts of the bucket's
    positive, negative and neutral labels over that same item count, each
    rounded to three decimals; the three counts add up to the item count and
    the three ratios add up to 1 give or take 0.001. *)
Theorem label_ratios_sum_to_one (w : World) :
  (∀ (raw : list RawArticle.t) (d : Daily.t),
     d ∈ daily_averages_of (omap (primary_article w) raw) →
     let b := Article.sentiment
                <$> bucket daily_key (Daily.date d)
                      (omap (primary_article w) raw) in
     let n := Z.of_nat (length b) in
     (0 < n)%Z
     ∧ Daily.articles_count d = n
     ∧ Daily.positive_ratio d
       = py_round (inject_Z (count_label "positive" b) / inject_Z n) 3
     ∧ Daily.negative_ratio d
       = py_round (inject_Z (count_label "negative" b) / inject_Z n) 3
     ∧ Daily.neutral_ratio d
       = py_round (inject_Z (count_label "neutral" b) / inject_Z n) 3
     ∧ (count_label "positive" b + count_label "negative" b
        + count_label "neutral" b = n)%Z
     ∧ (- (1 # 1000)
        <= Daily.positive_ratio d + Daily.negative_ratio d
           + Daily.neutral_ratio d - 1
        <= 1 # 1000)%Q)
  ∧ (∀ (statuses : list Status.t) (start_date : Z) (h : Hourly.t),
     h ∈ hourly_averages_of w (omap (tweet_entry w start_date) statuses) →
     let b := Tweet.sentiment
                <$> bucket (hourly_key w) (Hourly.date_hour h)
                      (omap (tweet_entry w start_date) statuses) in
     let n := Z.of_nat (length b) in
     (0 < n)%Z
     ∧ Hourly.tweets_count h = n
     ∧ Hourly.positive_ratio h
       = py_round (inject_Z (count_label "positive" b) / inject_Z n) 3
     ∧ Hourly.negative_ratio h
       = py_round (inject_Z (count_label "negative" b) / inject_Z n) 3
     ∧ Hourly.neutral_ratio h
       = py_round (inject_Z (count_label "neutral" b) / inject_Z n) 3
     ∧ (count_label "positive" b + count_label "negative" b
        + count_label "neutral" b = n)%Z
     ∧ (- (1 # 1000)
        <= Hourly.positive_ratio h + Hourly.negative_ratio h
           + Hourly.neutral_ratio h - 1
        <= 1 # 1000)%Q).
Proof.
  split.
  - intros raw d Hd. cbv zeta.
    apply daily_averages_elem in Hd as [Hne Hd].
    pose proof (bucket_Forall _ daily_key (Daily.date d) _
                  (primary_articles_valid w raw)) as Hvalid.
    set (b0 := bucket daily_key (Daily.date d) (omap (primary_article w) raw))
      in *.
    rewrite (daily_accumulator b0 Hvalid) in Hd.
    pose proof (nonempty_length_pos b0 Hne) as Hpos.
    assert (Htotal := count_label_total (Article.sentiment <$> b0)).
    rewrite length_fmap in Htotal |- *.
    unfold daily_average in Hd; simpl in Hd.
    destruct (Z.ltb_spec 0 (Z.of_nat (length b0))); [|lia].
    injection Hd as <-. simpl.
    assert (Hsum : (count_label "positive" (Article.sentiment <$> b0)
                    + count_label "negative" (Article.sentiment <$> b0)
                    + count_label "neutral" (Article.sentiment <$> b0)
                    = Z.of_nat (length b0))%Z).
    { apply Htotal. apply Forall_fmap. exact Hvalid. }
    repeat split; try done.
    all: apply rounded_ratios_sum; done.
  - intros statuses start_date h Hh. cbv zeta.
    apply hourly_averages_elem in Hh as [Hne Hh].
    pose proof (bucket_Forall _ (hourly_key w) (Hourly.date_hour h) _
                  (tweet_entries_valid w start_date statuses)) as Hvalid.
    set (b0 := bucket (hourly_key w) (Hourly.date_hour h)
                 (omap (tweet_entry w start_date) statuses)) in *.
    rewrite (hourly_accumulator b0 Hvalid) in Hh.
    pose proof (nonempty_length_pos b0 Hne) as Hpos.
    assert (Htotal := count_label_total (Tweet.sentiment <$> b0)).
    rewrite length_fmap in Htotal |- *.
    unfold hourly_average in Hh; simpl in Hh.
    destruct (Z.ltb_spec 0 (Z.of_nat (length b0))); [|lia].
    injection Hh as <-. simpl.
    assert (Hsum : (count_label "positive" (Tweet.sentiment <$> b0)
                    + count_label "negative" (Tweet.sentiment <$> b0)
                    + count_label "neutral" (Tweet.sentiment <$> b0)
                    = Z.of_nat (length b0))%Z).
    { apply Htotal. apply Forall_fmap. exact Hvalid. }
    repeat split; try done.
    all: apply rounded_ratios_sum; done.
Qed.

(** ** Engagement weight *)

Lemma weight_unfold (f r l : Z) :
  (weight f r l
   == 1 + (1 # 10) * (inject_Z r + inject_Z l) + (1 # 1000) * inject_Z f)%Q.
Proof. unfold weight. rewrite inject_Z_plus. reflexivity. Qed.

(** C7.  [weight(0, 0, 0)] is 1, and on nonnegative inputs the weight grows
    with each of its three arguments, the other two held fixed: weakly for
    [<=] and strictly for [<]. *)
Theorem weight_monotone :
  (weight 0 0 0 == 1)%Q
  ∧ ∀ followers reposts likes : Z,
      (0 <= followers)%Z → (0 <= reposts)%Z → (0 <= likes)%Z →
      (∀ followers', (followers <= followers')%Z →
         (weight followers reposts likes <= weight followers' reposts likes)%Q)
      ∧ (∀ reposts', (reposts <= reposts')%Z →
         (weight followers reposts likes <= weight followers reposts' likes)%Q)
      ∧ (∀ likes', (likes <= likes')%Z →
         (weight followers reposts likes <= weight followers reposts likes')%Q)
      ∧ (∀ followers', (followers < followers')%Z →
         (weight followers reposts likes < weight followers' reposts likes)%Q)
      ∧ (∀ reposts', (reposts < reposts')%Z →
         (weight followers reposts likes < weight followers reposts' likes)%Q)
      ∧ (∀ likes', (likes < likes')%Z →
         (weight followers reposts likes < weight followers reposts likes')%Q).
Proof.
  split; [reflexivity|].
  intros f r l _ _ _.
  repeat split; intros x Hx; rewrite !weight_unfold;
    first [ rewrite Zle_Qle in Hx | rewrite Zlt_Qlt in Hx ]; lra.
Qed.

Lemma weight_monotone_witness :
  (weight 1200 3 40 < weight 1200 4 40)%Q.
Proof.
  refine (proj1 (proj2 (proj2 (proj2 (proj2
            (proj2 weight_monotone 1200 3 40 _ _ _)%Z)))) 4%Z _); lia.
Defined.

(** ** Labels against the thresholds *)

Lemma label_of_positive c : label_of c = "positive" ↔ (0.05 <= c)%Q.
Proof.
  unfold label_of. rewrite <- Qle_bool_iff.
  destruct (Qle_bool 0.05 c); [done|].
  destruct (Qle_bool c (-0.05)); split; done.
Qed.

Lemma label_of_negative c : label_of c = "negative" ↔ (c <= -0.05)%Q.
Proof.
  unfold label_of.
  destruct (Qle_bool 0.05 c) eqn:Hp.
  - apply Qle_bool_iff in Hp. split; [done|]. intros Hn. lra.
  - rewrite <- Qle_bool_iff. destruct (Qle_bool c (-0.05)); split; done.
Qed.

Lemma label_of_neutral c :
  label_of c = "neutral" ↔ (-0.05 < c ∧ c < 0.05)%Q.
Proof.
  unfold label_of.
  destruct (Qle_bool 0.05 c) eqn:Hp.
  - apply Qle_bool_iff in Hp. split; [done|]. intros [_ Hlt]. lra.
  - destruct (Qle_bool c (-0.05)) eqn:Hn.
    + apply Qle_bool_iff in Hn. split; [done|]. intros [Hlt _]. lra.
    + split; [|done]. intros _.
      split; apply Qnot_le_lt; rewrite <- Qle_bool_iff; congruence.
Qed.

(** C4.  The label stored with a scored news article, of the primary or of
    the fallback path, and with a scored tweet is "positive" exactly when
    the stored compound score is at least 0.05, "negative" exactly when it is
    at most -0.05 and "neutral" exactly when it lies strictly between; a
    compound of 0.05 is labelled positive and one of -0.05 negative. *)
Theorem label_matches_thresholds (w : World) :
  let rule (s : Sentiment.t) :=
    (Sentiment.label s = "positive" ↔ (0.05 <= Sentiment.compound s)%Q)
    ∧ (Sentiment.label s = "negative" ↔ (Sentiment.compound s <= -0.05)%Q)
    ∧ (Sentiment.label s = "neutral"
       ↔ (-0.05 < Sentiment.compound s ∧ Sentiment.compound s < 0.05)%Q) in
  (∀ raw article,
     primary_article w raw = Some article → rule (Article.sentiment article))
  ∧ (∀ url element article,
     alternative_article w url element = Some article →
     rule (Article.sentiment article))
  ∧ (∀ start_date status tweet,
     tweet_entry w start_date status = Some tweet →
     rule (Tweet.sentiment tweet))
  ∧ (∀ scores, (Vader.compound scores == 0.05)%Q →
     Sentiment.label (sentiment_entry scores) = "positive")
  ∧ (∀ scores, (Vader.compound scores == -0.05)%Q →
     Sentiment.label (sentiment_entry scores) = "negative").
Proof.
  intros rule.
  assert (Hrule : ∀ s, Sentiment.label s = label_of (Sentiment.compound s) →
                       rule s).
  { intros s Hs. unfold rule. rewrite Hs.
    split; [apply label_of_positive|].
    split; [apply label_of_negative | apply label_of_neutral]. }
  split; [|split; [|split; [|split]]].
  - intros raw a Ha. apply Hrule. by eapply primary_article_label.
  - intros url e a Ha. apply Hrule. by eapply alternative_article_label.
  - intros start s t Ht. apply Hrule. by eapply tweet_entry_label.
  - intros scores Hc. simpl. apply label_of_positive. lra.
  - intros scores Hc. simpl. apply label_of_negative. lra.
Qed.

Lemma label_matches_thresholds_witness :
  Sentiment.label
    (sentiment_entry (Demo.scores "+ earnings beat expectations"))
  = "positive".
Proof.
  refine (proj1 (proj2 (proj2 (proj2
            (label_matches_thresholds
               (Demo.flat_world 0))))) (Demo.scores "+ earnings beat expectations") _).
  reflexivity.
Defined.

(** ** Weighted sentiment *)

Lemma Qis_pos_iff (q : Q) : Qis_pos q = true ↔ (0 < q)%Q.
Proof.
  unfold Qis_pos, Qlt. simpl. rewrite Z.ltb_lt. lia.
Qed.

Lemma Qis_pos_zero (q : Q) : (q == 0)%Q → Qis_pos q = false.
Proof.
  intros Hq. destruct (Qis_pos q) eqn:E; [|done].
  apply Qis_pos_iff in E. lra.
Qed.

(** What the loop over [hourly_sentiment.items()] stores for the two
    averages of an hour, in terms of the tweets of that hour. *)
Lemma hourly_averages_values
    (w : World) (statuses : list Status.t) (start_date : Z) (h : Hourly.t) :
  h ∈ hourly_averages_of w (omap (tweet_entry w start_date) statuses) →
  let b := bucket (hourly_key w) (Hourly.date_hour h)
             (omap (tweet_entry w start_date) statuses) in
  let total_weight := Qsum (tweet_weight <$> b) in
  let weighted_sum :=
    Qsum ((λ t, tweet_compound t * tweet_weight t)%Q <$> b) in
  let average :=
    (Qsum (tweet_compound <$> b) / inject_Z (Z.of_nat (length b)))%Q in
  Hourly.avg_sentiment h = py_round average 3
  ∧ Hourly.weighted_sentiment h
    = py_round (if Qis_pos total_weight then (weighted_sum / total_weight)%Q
                else average) 3.
Proof.
  intros Hh. cbv zeta.
  apply hourly_averages_elem in Hh as [Hne Hh].
  pose proof (bucket_Forall _ (hourly_key w) (Hourly.date_hour h) _
                (tweet_entries_valid w start_date statuses)) as Hvalid.
  set (b0 := bucket (hourly_key w) (Hourly.date_hour h)
               (omap (tweet_entry w start_date) statuses)) in *.
  rewrite (hourly_accumulator b0 Hvalid) in Hh.
  pose proof (nonempty_length_pos b0 Hne) as Hpos.
  unfold hourly_average in Hh; simpl in Hh.
  destruct (Z.ltb_spec 0 (Z.of_nat (length b0))); [|lia].
  injection Hh as <-. simpl. done.
Qed.

(** C8.  In an emitted hourly aggregate, [weighted_sentiment] is the sum of
    compound times weight over the tweets of the hour, divided by the sum of
    their weights and rounded to three decimals, when that sum of weights is
    positive; when the sum of weights is zero it is the unweighted average
    compound of the hour rounded to three decimals, the value stored as
    [avg_sentiment]. *)
Theorem weighted_sentiment_formula
    (w : World) (statuses : list Status.t) (start_date : Z) (h : Hourly.t) :
  h ∈ hourly_averages_of w (omap (tweet_entry w start_date) statuses) →
  let b := bucket (hourly_key w) (Hourly.date_hour h)
             (omap (tweet_entry w start_date) statuses) in
  let total_weight := Qsum (tweet_weight <$> b) in
  let weighted_sum :=
    Qsum ((λ t, tweet_compound t * tweet_weight t)%Q <$> b) in
  let average :=
    (Qsum (tweet_compound <$> b) / inject_Z (Z.of_nat (length b)))%Q in
  ((0 < total_weight)%Q →
     Hourly.weighted_sentiment h = py_round (weighted_sum / total_weight) 3)
  ∧ ((total_weight == 0)%Q →
     Hourly.weighted_sentiment h = py_round average 3
     ∧ Hourly.weighted_sentiment h = Hourly.avg_sentiment h).
Proof.
  intros Hh. cbv zeta.
  destruct (hourly_averages_values w statuses start_date h Hh) as [Havg Hwt].
  cbv zeta in Havg, Hwt. rewrite Havg, Hwt. split.
  - intros Hw. apply Qis_pos_iff in Hw. by rewrite Hw.
  - intros Hw. apply Qis_pos_zero in Hw. by rewrite Hw.
Qed.

(** ** Total weight of a bucket *)

Lemma tweet_entry_counts w start status tweet :
  tweet_entry w start status = Some tweet →
  Tweet.user_followers tweet = Status.followers_count status
  ∧ Tweet.retweet_count tweet = Status.retweet_count status
  ∧ Tweet.favorite_count tweet = Status.favorite_count status.
Proof.
  unfold tweet_entry. repeat case_match; try done. by intros [= <-].
Qed.

Lemma weight_ge_1 (f r l : Z) :
  (0 <= f)%Z → (0 <= r)%Z → (0 <= l)%Z → (1 <= weight f r l)%Q.
Proof.
  intros Hf Hr Hl. rewrite weight_unfold.
  rewrite Zle_Qle in Hf, Hr, Hl. change (inject_Z 0) with 0%Q in *. lra.
Qed.

Lemma Qsum_ge_length (l : list Q) :
  Forall (λ x, (1 <= x)%Q) l → (inject_Z (Z.of_nat (length l)) <= Qsum l)%Q.
Proof.
  induction l as [|x l IH] using rev_ind; intros Hl.
  - done.
  - apply Forall_app in Hl as [Hl Hx]. apply Forall_inv in Hx.
    rewrite Qsum_snoc, length_app, Nat2Z.inj_add, inject_Z_plus. simpl.
    specialize (IH Hl). change (inject_Z (Z.of_nat 1)) with 1%Q. lra.
Qed.

(** C10.  When every fetched post has nonnegative follower, repost and like
    counts, every tweet has an engagement weight of at least 1; every bucket
    of the hourly grouping then has at least one tweet and a total weight of
    at least its tweet count, so that its total weight is positive, never
    zero, and every emitted [weighted_sentiment] comes from the weighted
    branch. *)
Theorem total_weight_never_zero
    (w : World) (statuses : list Status.t) (start_date : Z) :
  Forall (λ s, (0 <= Status.followers_count s)%Z
               ∧ (0 <= Status.retweet_count s)%Z
               ∧ (0 <= Status.favorite_count s)%Z) statuses →
  let tweets := omap (tweet_entry w start_date) statuses in
  (∀ t, t ∈ tweets → (1 <= tweet_weight t)%Q)
  ∧ (∀ date_hour data,
       foldl (hourly_step w) ∅ tweets !! date_hour = Some data →
       (1 <= HourlyAcc.tweets data)%Z
       ∧ (inject_Z (HourlyAcc.tweets data) <= HourlyAcc.total_weight data)%Q
       ∧ ¬ (HourlyAcc.total_weight data == 0)%Q
       ∧ Qis_pos (HourlyAcc.total_weight data) = true)
  ∧ (∀ h, h ∈ hourly_averages_of w tweets →
       let b := bucket (hourly_key w) (Hourly.date_hour h) tweets in
       Hourly.weighted_sentiment h
       = py_round (Qsum ((λ t, tweet_compound t * tweet_weight t)%Q <$> b)
                   / Qsum (tweet_weight <$> b)) 3).
Proof.
  intros Hnonneg tweets.
  assert (Hweights : ∀ t, t ∈ tweets → (1 <= tweet_weight t)%Q).
  { intros t Ht. apply list_elem_of_omap in Ht as (s & Hs & Hst).
    rewrite Forall_forall in Hnonneg. destruct (Hnonneg s Hs) as (Hf & Hr & Hl).
    destruct (tweet_entry_counts _ _ _ _ Hst) as (Ef & Er & El).
    unfold tweet_weight. rewrite Ef, Er, El. by apply weight_ge_1. }
  assert (Hbucket : ∀ k, bucket (hourly_key w) k tweets ≠ [] →
    let b := bucket (hourly_key w) k tweets in
    (1 <= Z.of_nat (length b))%Z
    ∧ (inject_Z (Z.of_nat (length b)) <= Qsum (tweet_weight <$> b))%Q
    ∧ (0 < Qsum (tweet_weight <$> b))%Q).
  { intros k Hne b.
    pose proof (nonempty_length_pos b Hne) as Hpos.
    assert (Hge : (inject_Z (Z.of_nat (length b))
                   <= Qsum (tweet_weight <$> b))%Q).
    { rewrite <- (length_fmap tweet_weight b). apply Qsum_ge_length.
      apply Forall_fmap, Forall_forall. intros t Ht. simpl.
      apply Hweights. unfold b, bucket in Ht.
      by apply list_elem_of_filter in Ht as [_ Ht]. }
    split; [lia|]. split; [exact Hge|].
    assert (Hone : (1 <= inject_Z (Z.of_nat (length b)))%Q).
    { change 1%Q with (inject_Z 1). rewrite <- Zle_Qle. lia. }
    lra. }
  split; [exact Hweights|]. split.
  - intros k data Hdata.
    rewrite hourly_fold_group in Hdata.
    apply group_lookup_Some in Hdata as [Hne ->].
    rewrite hourly_accumulator
      by apply bucket_Forall, tweet_entries_valid.
    simpl. destruct (Hbucket k Hne) as (H1 & H2 & H3).
    split; [exact H1|]. split; [exact H2|]. split; [lra|].
    by apply Qis_pos_iff.
  - intros h Hh b.
    destruct (hourly_averages_values w statuses start_date h Hh) as [_ Hwt].
    cbv zeta in Hwt. rewrite Hwt.
    apply hourly_averages_elem in Hh as [Hne _].
    destruct (Hbucket (Hourly.date_hour h) Hne) as (_ & _ & H3).
    apply Qis_pos_iff in H3. unfold b, tweets in *. by rewrite H3.
Qed.

(** ** The bundle of the social collector *)

Lemma Zsum_Permutation (l l' : list Z) : l ≡ₚ l' → Zsum l = Zsum l'.
Proof. induction 1; simpl; lia. Qed.

Lemma Zsum_tweets_insert (m : gmap string HourlyAcc.t) k (t : Tweet.t) :
  Zsum ((λ item, HourlyAcc.tweets item.2)
          <$> map_to_list
                (<[k := hourly_add t (default hourly_init (m !! k))]> m))
  = (Zsum ((λ item, HourlyAcc.tweets item.2) <$> map_to_list m) + 1)%Z.
Proof.
  destruct (m !! k) as [v|] eqn:Hk; simpl.
  - rewrite <- insert_delete_eq.
    rewrite (Zsum_Permutation _ _
               (fmap_Permutation _ _ _
                  (map_to_list_insert (delete k m) k (hourly_add t v)
                     (lookup_delete_eq m k)))).
    rewrite <- (Zsum_Permutation _ _
                  (fmap_Permutation _ _ _ (map_to_list_delete m k v Hk))).
    rewrite !fmap_cons. simpl. lia.
  - rewrite (Zsum_Permutation _ _
               (fmap_Permutation _ _ _
                  (map_to_list_insert m k (hourly_add t hourly_init) Hk))).
    rewrite fmap_cons. simpl. lia.
Qed.

(** The accumulators together count every tweet that has a key. *)
Lemma hourly_fold_total w (tweets : list Tweet.t) :
  Zsum ((λ item, HourlyAcc.tweets item.2)
          <$> map_to_list (foldl (hourly_step w) ∅ tweets))
  = Z.of_nat (length (filter (λ t, is_Some (hourly_key w t)) tweets)).
Proof.
  rewrite hourly_fold_group.
  induction tweets as [|t tweets IH] using rev_ind.
  { simpl. by rewrite map_to_list_empty. }
  rewrite foldl_snoc, filter_app, length_app, filter_cons, filter_nil.
  unfold group_step at 1.
  destruct (hourly_key w t) as [k|] eqn:Hk.
  - rewrite Zsum_tweets_insert, IH.
    rewrite decide_True by eauto. simpl. lia.
  - rewrite IH. rewrite decide_False by (by intros [? ?]). simpl. lia.
Qed.

Lemma hourly_average_counts (items : list (string * HourlyAcc.t)) :
  Forall (λ item, (0 < HourlyAcc.tweets item.2)%Z) items →
  Hourly.tweets_count <$> omap hourly_average items
  = (λ item, HourlyAcc.tweets item.2) <$> items.
Proof.
  induction 1 as [|[k data] items Hpos _ IH]; [done|].
  simpl in Hpos. rewrite fmap_cons, <- IH. clear IH.
  change (omap hourly_average ((k, data) :: items))
    with (match hourly_average (k, data) with
          | Some h => h :: omap hourly_average items
          | None => omap hourly_average items
          end).
  unfold hourly_average at 1.
  destruct (Z.ltb_spec 0 (HourlyAcc.tweets data)); [|lia].
  by rewrite fmap_cons.
Qed.

Lemma filter_all {A} (P : A → Prop) `{∀ x, Decision (P x)} (l : list A) :
  Forall P l → filter P l = l.
Proof.
  induction 1 as [|x l Hx _ IH]; [done|].
  by rewrite filter_cons_True, IH.
Qed.

(** The aggregates count every tweet whose timestamp parses. *)
Lemma hourly_averages_total w start_date (statuses : list Status.t) :
  let tweets := omap (tweet_entry w start_date) statuses in
  total_count (hourly_averages_of w tweets)
  = Z.of_nat (length (filter (λ t, is_Some (hourly_key w t)) tweets)).
Proof.
  intros tweets. unfold total_count, hourly_averages_of, sorted_by.
  rewrite (Zsum_Permutation _ _
             (fmap_Permutation _ _ _ (merge_sort_Permutation _ _))).
  rewrite hourly_average_counts; [apply hourly_fold_total|].
  apply Forall_forall. intros [k data] Hin. simpl.
  apply elem_of_map_to_list in Hin.
  rewrite hourly_fold_group in Hin.
  apply group_lookup_Some in Hin as [Hne ->].
  rewrite hourly_accumulator
    by apply bucket_Forall, tweet_entries_valid.
  simpl. by apply nonempty_length_pos.
Qed.

Lemma omap_length_le {A B} (f : A → option B) (l : list A) :
  (length (omap f l) ≤ length l)%nat.
Proof.
  induction l as [|x l IH]; [done|].
  change (omap f (x :: l))
    with (match f x with Some y => y :: omap f l | None => omap f l end).
  destruct (f x); cbn [length]; lia.
Qed.

(** C9.  A successful social collection that keeps K of the fetched posts
    (at most 500 are fetched) returns the first min(K, 100) of them, in fetch
    order, as its tweet list, reports K as [total_tweets], and computes the
    hourly aggregates from all K posts: the tweet counts of the aggregates
    add up to K. *)
Theorem social_bundle_caps_tweets_only
    (w : World) (self : Collector) (ticker asset_type : string)
    (days_back : Z) (credentials : Credentials.t)
    (statuses : list Status.t) :
  twitter_credentials self = Some credentials →
  search_tweets w credentials (social_query ticker asset_type) = Ok statuses →
  (∀ t, ∃ d, strptime w (strftime w TIME_FORMAT t) TIME_FORMAT = Ok d) →
  let start_date := (now w - 86400 * days_back)%Z in
  let kept := omap (tweet_entry w start_date) (take 500 statuses) in
  let K := length kept in
  ∃ metadata,
    collect_social_sentiment w self ticker asset_type days_back
    = SocialData ticker asset_type (hourly_averages_of w kept)
        (take 100 kept) metadata
    ∧ (K ≤ 500)%nat
    ∧ length (take 100 kept) = (K `min` 100)%nat
    ∧ SocialMeta.total_tweets metadata = Z.of_nat K
    ∧ total_count (hourly_averages_of w kept) = Z.of_nat K.
Proof.
  intros Hcred Hfetch Hclock start_date kept K.
  eexists. split; [|split; [|split; [|split]]].
  - unfold collect_social_sentiment. rewrite Hcred, Hfetch. simpl.
    reflexivity.
  - unfold K, kept. etrans; [apply omap_length_le|].
    rewrite length_take. lia.
  - rewrite length_take. lia.
  - reflexivity.
  - unfold K, kept. rewrite hourly_averages_total. f_equal. f_equal.
    apply filter_all, Forall_forall. intros t Ht.
    apply list_elem_of_omap in Ht as (s & _ & Hs).
    unfold hourly_key, date_hour_of.
    assert (Et : Tweet.created_at t
                 = strftime w TIME_FORMAT (Status.created_at s)).
    { revert Hs. unfold tweet_entry. repeat case_match; try done.
      by intros [= <-]. }
    rewrite Et. destruct (Hclock (Status.created_at s)) as [d ->].
    simpl. eauto.
Qed.

(** ** Fallback of the news collector *)

(** C3.  With a news credential configured, a primary fetch answered with
    HTTP status 500 makes the news collector return what the fallback
    returns for the same ticker, asset type and [days_back]; a collector
    without a news credential returns the same, so the two results are
    equal. *)
Theorem http_500_takes_fallback
    (w : World) (keyed unkeyed : Collector) (ticker asset_type : string)
    (days_back : Z) (query : string) (response : Response.news) :
  truthy (newsapi_key keyed) = true →
  truthy (newsapi_key unkeyed) = false →
  primary_query w ticker asset_type = Ok query →
  newsapi_get w
    (primary_url w keyed query (now w - 86400 * days_back)%Z (now w))
  = Ok response →
  Response.status_code response = 500%Z →
  collect_news_sentiment w keyed ticker asset_type days_back
  = collect_alternative_news w ticker asset_type days_back
  ∧ collect_news_sentiment w unkeyed ticker asset_type days_back
    = collect_alternative_news w ticker asset_type days_back
  ∧ collect_news_sentiment w keyed ticker asset_type days_back
    = collect_news_sentiment w unkeyed ticker asset_type days_back.
Proof.
  intros Hkey Hnokey Hquery Hget Hstatus.
  assert (E1 : collect_news_sentiment w keyed ticker asset_type days_back
               = collect_alternative_news w ticker asset_type days_back).
  { unfold collect_news_sentiment.
    rewrite Hkey, Hquery. simpl. rewrite Hget. simpl.
    rewrite Hstatus. reflexivity. }
  assert (E2 : collect_news_sentiment w unkeyed ticker asset_type days_back
               = collect_alternative_news w ticker asset_type days_back).
  { unfold collect_news_sentiment. by rewrite Hnokey. }
  split; [exact E1|]. split; [exact E2|]. by rewrite E1, E2.
Qed.

(** ** Completion loops of the orchestrator *)

Section OrchestratorProperties.
Variable w : World.
Variable self : Collector.
Hypothesis disk_reliable : ∀ path, disk_accepts w path = true.

Lemma category_keys_differ (c : Category) : category_name c ≠ error_key c.
Proof. by destruct c. Qed.

Lemma handle_completed_written c st completed :
  written (handle_completed w self c st completed)
  = written st ++ option_list (snapshot_of self c completed).
Proof.
  destruct completed as [ticker [data|msg]];
    unfold handle_completed, snapshot_of; simpl.
  - destruct (has_error data) eqn:Herr; simpl.
    + destruct data; try done. simpl. by rewrite app_nil_r.
    + unfold save. rewrite disk_reliable. simpl. done.
  - by rewrite app_nil_r.
Qed.

(** The files a phase writes: one per successful future, in completion
    order. *)
Lemma run_phase_written c completed st :
  written (run_phase w self c completed st)
  = written st ++ omap (snapshot_of self c) completed.
Proof.
  unfold run_phase. revert st.
  induction completed as [|x completed IH]; intros st; simpl.
  - by rewrite app_nil_r.
  - rewrite IH, handle_completed_written, <- app_assoc. f_equal.
    change (omap (snapshot_of self c) (x :: completed))
      with (match snapshot_of self c x with
            | Some y => y :: omap (snapshot_of self c) completed
            | None => omap (snapshot_of self c) completed
            end).
    by destruct (snapshot_of self c x).
Qed.

Lemma result_entry_record ticker key v st ticker' key' :
  result_entry (record_entry ticker key v st) ticker' key'
  = if decide (ticker = ticker' ∧ key = key') then Some v
    else result_entry st ticker' key'.
Proof.
  unfold result_entry, record_entry. simpl.
  destruct (decide (ticker = ticker')) as [->|Hne].
  - rewrite lookup_insert_eq. simpl.
    destruct (decide (key = key')) as [->|Hk].
    + rewrite lookup_insert_eq. by rewrite decide_True.
    + rewrite lookup_insert_ne by done. rewrite decide_False by tauto.
      by destruct (results st !! ticker').
  - rewrite lookup_insert_ne by done. rewrite decide_False by tauto. done.
Qed.

(** What one iteration does to an entry of [results]. *)
Lemma handle_completed_entry c st ticker outcome ticker' key' :
  result_entry (handle_completed w self c st (ticker, outcome)) ticker' key'
  = match failure_message outcome, outcome with
    | Some e, _ =>
        if decide (ticker = ticker' ∧ error_key c = key')
        then Some (Message e) else result_entry st ticker' key'
    | None, Ok data =>
        if decide (ticker = ticker' ∧ category_name c = key')
        then Some (Data data) else result_entry st ticker' key'
    | None, Raise _ => result_entry st ticker' key'
    end.
Proof.
  destruct outcome as [data|msg]; unfold handle_completed; simpl.
  - destruct data; simpl; unfold save; rewrite ?disk_reliable; simpl;
      by rewrite result_entry_record.
  - by rewrite result_entry_record.
Qed.

End OrchestratorProperties.

Lemma failure_message_has_error data :
  failure_message (Ok data) = None ↔ has_error data = false.
Proof. by destruct data. Qed.

(** A failed future leaves a message under the error key of its ticker. *)
Lemma run_phase_failure_recorded w self c completed st ticker outcome e :
  (∀ path, disk_accepts w path = true) →
  (ticker, outcome) ∈ completed →
  failure_message outcome = Some e →
  ∃ outcome' e',
    (ticker, outcome') ∈ completed
    ∧ failure_message outcome' = Some e'
    ∧ result_entry (run_phase w self c completed st) ticker (error_key c)
      = Some (Message e').
Proof.
  intros Hdisk. unfold run_phase.
  induction completed as [|[t o] completed IH] using rev_ind; intros Hin He.
  { by apply elem_of_nil in Hin. }
  rewrite foldl_snoc, handle_completed_entry by done.
  destruct (failure_message o) as [eo|] eqn:Ho.
  - destruct (decide (t = ticker)) as [->|Hne].
    + exists o, eo. rewrite decide_True by done.
      split; [|done]. apply elem_of_app. right. by apply list_elem_of_singleton.
    + rewrite decide_False by tauto.
      apply elem_of_app in Hin as [Hin|Hin].
      2: { apply list_elem_of_singleton in Hin. congruence. }
      destruct (IH Hin He) as (o' & e' & Hin' & He' & Hentry).
      exists o', e'. split; [|done]. apply elem_of_app. by left.
  - assert (Hin' : (ticker, outcome) ∈ completed).
    { apply elem_of_app in Hin as [Hin|Hin]; [done|].
      apply list_elem_of_singleton in Hin. congruence. }
    destruct (IH Hin' He) as (o' & e' & Hin'' & He' & Hentry).
    exists o', e'. split; [apply elem_of_app; by left|]. split; [done|].
    destruct o as [data|msg]; [|done].
    rewrite decide_False; [done|].
    intros [_ Hk]. by apply (category_keys_differ c).
Qed.

(** A successful future leaves its payload under the key of its
    category. *)
Lemma run_phase_success_recorded w self c completed st ticker data :
  (∀ path, disk_accepts w path = true) →
  (ticker, Ok data) ∈ completed →
  has_error data = false →
  ∃ data',
    (ticker, Ok data') ∈ completed
    ∧ has_error data' = false
    ∧ result_entry (run_phase w self c completed st) ticker (category_name c)
      = Some (Data data').
Proof.
  intros Hdisk. unfold run_phase.
  induction completed as [|[t o] completed IH] using rev_ind; intros Hin He.
  { by apply elem_of_nil in Hin. }
  rewrite foldl_snoc, handle_completed_entry by done.
  destruct (failure_message o) as [eo|] eqn:Ho.
  - assert (Hin' : (ticker, Ok data) ∈ completed).
    { apply elem_of_app in Hin as [Hin|Hin]; [done|].
      apply list_elem_of_singleton in Hin. injection Hin as Ht Ho'.
      subst t o. apply failure_message_has_error in He. congruence. }
    destruct (IH Hin' He) as (d' & Hin'' & He' & Hentry).
    exists d'. split; [apply elem_of_app; by left|]. split; [done|].
    rewrite decide_False; [done|].
    intros [_ Hk]. by apply (category_keys_differ c).
  - destruct o as [d|msg]; [|done].
    destruct (decide (t = ticker)) as [->|Hne].
    + exists d. rewrite decide_True by done.
      apply failure_message_has_error in Ho.
      split; [|done]. apply elem_of_app. right. by apply list_elem_of_singleton.
    + rewrite decide_False by tauto.
      apply elem_of_app in Hin as [Hin|Hin].
      2: { apply list_elem_of_singleton in Hin. congruence. }
      destruct (IH Hin He) as (d' & Hin' & He' & Hentry).
      exists d'. split; [|done]. apply elem_of_app. by left.
Qed.

(** C6.  On a disk that accepts every write, a phase of the orchestrator
    writes a snapshot file exactly for the futures that returned a payload
    without the key ["error"], at the path of the category and the ticker and
    with that payload as content.  A future that returned a payload with
    ["error"], or whose result raised, has a message recorded under the
    category's error key of its ticker and adds no file; a successful one has
    its payload recorded under the category's key. *)
Theorem snapshot_written_iff_success
    (w : World) (self : Collector) (c : Category)
    (completed : list (string * result Payload)) (st : Batch) :
  (∀ path, disk_accepts w path = true) →
  let st' := run_phase w self c completed st in
  (∀ path data,
     (path, data) ∈ written st'
     ↔ (path, data) ∈ written st
       ∨ ∃ ticker, (ticker, Ok data) ∈ completed
                   ∧ has_error data = false
                   ∧ path = file_path self c ticker)
  ∧ (∀ ticker outcome e,
       (ticker, outcome) ∈ completed →
       failure_message outcome = Some e →
       snapshot_of self c (ticker, outcome) = None
       ∧ ∃ outcome' e',
           (ticker, outcome') ∈ completed
           ∧ failure_message outcome' = Some e'
           ∧ result_entry st' ticker (error_key c) = Some (Message e'))
  ∧ (∀ ticker data,
       (ticker, Ok data) ∈ completed →
       has_error data = false →
       ∃ data',
         (ticker, Ok data') ∈ completed
         ∧ has_error data' = false
         ∧ result_entry st' ticker (category_name c) = Some (Data data')).
Proof.
  intros Hdisk st'. split; [|split].
  - intros path data. unfold st'.
    rewrite (run_phase_written w self Hdisk), elem_of_app, list_elem_of_omap.
    apply or_iff_compat_l. split.
    + intros ([ticker outcome] & Hin & Hsnap).
      unfold snapshot_of in Hsnap. simpl in Hsnap.
      destruct outcome as [d|msg]; [|done].
      destruct (has_error d) eqn:Herr; [done|].
      injection Hsnap as <- <-. eauto.
    + intros (ticker & Hin & Herr & ->).
      exists (ticker, Ok data). split; [done|].
      unfold snapshot_of. simpl. by rewrite Herr.
  - intros ticker outcome e Hin He. split.
    + unfold snapshot_of. simpl.
      destruct outcome as [d|msg]; [|done]. by destruct d.
    + by eapply run_phase_failure_recorded.
  - intros ticker data Hin Herr. by eapply run_phase_success_recorded.
Qed.

(** When the disk refuses the path, a successful payload is not written and
    the refusal is recorded under the error key. *)
Lemma refused_write_is_recorded w self c st ticker data :
  has_error data = false →
  disk_accepts w (file_path self c ticker) = false →
  let st' := handle_completed w self c st (ticker, Ok data) in
  written st' = written st
  ∧ ∃ e, result_entry st' ticker (error_key c) = Some (Message e).
Proof.
  intros Herr Hdisk. unfold handle_completed, save. simpl.
  rewrite Herr, Hdisk. simpl. split; [done|].
  eexists. rewrite result_entry_record. by rewrite decide_True.
Qed.

(** ** The whole batch *)

Section BatchProperties.
Variable w : World.
Variable self : Collector.
Variable as_completed :
  list (string * result Payload) → list (string * result Payload).
Hypothesis completion_order : ∀ l, as_completed l ≡ₚ l.
Hypothesis disk_reliable : ∀ path, disk_accepts w path = true.

Lemma elem_of_submit (collect : string → Payload) tickers ticker outcome :
  (ticker, outcome) ∈ as_completed (submit collect tickers)
  ↔ ticker ∈ tickers ∧ outcome = Ok (collect ticker).
Proof.
  rewrite completion_order. unfold submit. rewrite list_elem_of_fmap. split.
  - intros (t & [= -> ->] & Ht). done.
  - intros [Ht ->]. eauto.
Qed.

(** The snapshots of one submitted phase. *)
Lemma phase_snapshots c (collect : string → Payload) tickers path data :
  (path, data)
  ∈ omap (snapshot_of self c) (as_completed (submit collect tickers))
  ↔ ∃ ticker, ticker ∈ tickers ∧ data = collect ticker
              ∧ has_error data = false ∧ path = file_path self c ticker.
Proof.
  rewrite list_elem_of_omap. split.
  - intros ([ticker outcome] & Hin & Hsnap).
    apply elem_of_submit in Hin as [Ht ->].
    unfold snapshot_of in Hsnap. simpl in Hsnap.
    destruct (has_error (collect ticker)) eqn:Herr; [done|].
    injection Hsnap as <- <-. eauto.
  - intros (ticker & Ht & -> & Herr & ->).
    exists (ticker, Ok (collect ticker)). split.
    + by apply elem_of_submit.
    + unfold snapshot_of. simpl. by rewrite Herr.
Qed.

(** A batch writes exactly the snapshots of the calls that returned a
    payload without ["error"], over the enabled phases and the tickers of
    the batch. *)
Lemma batch_snapshots tickers asset_type
    (collect_price collect_news collect_social : bool) path data :
  (path, data)
  ∈ written (collect_sentiment_data_batch w self as_completed tickers
               asset_type collect_price collect_news collect_social)
  ↔ ∃ c ticker,
      phase_enabled self collect_price collect_news collect_social c = true
      ∧ ticker ∈ tickers
      ∧ data = submitted_call w self asset_type c ticker
      ∧ has_error data = false
      ∧ path = file_path self c ticker.
Proof.
  unfold collect_sentiment_data_batch.
  set (social := collect_social
                 && bool_decide (is_Some (twitter_credentials self))).
  assert (Hsplit :
    (path, data)
    ∈ (if collect_price
       then omap (snapshot_of self Price)
              (as_completed
                 (submit (λ t, collect_price_data w t asset_type "30d" "1h")
                    tickers))
       else [])
      ++ (if collect_news
          then omap (snapshot_of self News)
                 (as_completed
                    (submit (λ t, collect_news_sentiment w self t asset_type 7)
                       tickers))
          else [])
      ++ (if social
          then omap (snapshot_of self Social)
                 (as_completed
                    (submit
                       (λ t, collect_social_sentiment w self t asset_type 3)
                       tickers))
          else [])
    ↔ ∃ c ticker,
        phase_enabled self collect_price collect_news collect_social c = true
        ∧ ticker ∈ tickers
        ∧ data = submitted_call w self asset_type c ticker
        ∧ has_error data = false
        ∧ path = file_path self c ticker).
  { rewrite !elem_of_app. split.
    - intros [Hin|[Hin|Hin]].
      + destruct collect_price; [|by apply elem_of_nil in Hin].
        apply phase_snapshots in Hin as (t & ? & ? & ? & ?).
        exists Price, t. done.
      + destruct collect_news; [|by apply elem_of_nil in Hin].
        apply phase_snapshots in Hin as (t & ? & ? & ? & ?).
        exists News, t. done.
      + destruct social eqn:Hs; [|by apply elem_of_nil in Hin].
        apply phase_snapshots in Hin as (t & ? & ? & ? & ?).
        exists Social, t. done.
    - intros ([| |] & t & Hen & Ht & Hd & Herr & Hp); simpl in Hen.
      + left. rewrite Hen. apply phase_snapshots. eauto.
      + right; left. rewrite Hen. apply phase_snapshots. eauto.
      + right; right. fold social in Hen. rewrite Hen.
        apply phase_snapshots. eauto. }
  rewrite <- Hsplit. clear Hsplit.
  destruct collect_price, collect_news, social;
    rewrite ?(run_phase_written w self disk_reliable); simpl;
    rewrite ?app_nil_r, <- ?app_assoc; done.
Qed.

End BatchProperties.

(** Scenario B of the specification: a batch of three instruments, price
    collection only, leaves exactly three entries, each with a [price] key
    or a [price_error] key and never both. *)
Example price_only_batch :
  let st :=
    collect_sentiment_data_batch (Demo.flat_world 12) Demo.collector
      (λ l, reverse l) ["AAPL"; "MSFT"; "TSLA"] "stock" true false false in
  size (results st) = 3%nat
  ∧ (written st).*1
    = [ "financial_sentiment_data/price_data/TSLA_price.json";
        "financial_sentiment_data/price_data/MSFT_price.json";
        "financial_sentiment_data/price_data/AAPL_price.json" ]
  ∧ (λ t, (bool_decide (is_Some (result_entry st t "price")),
           bool_decide (is_Some (result_entry st t "price_error"))))
      <$> ["AAPL"; "MSFT"; "TSLA"]
    = [(true, false); (true, false); (true, false)].
Proof. vm_compute. repeat split. Qed.

(** ** The theorems at work in the demo world *)

Lemma first_hour_emitted :
  Demo.first_hour
  ∈ hourly_averages_of (Demo.social_world 4)
      (omap (tweet_entry (Demo.social_world 4) Demo.start_date) (Demo.feed 4)).
Proof. vm_compute. apply list_elem_of_here. Qed.

Lemma first_day_emitted :
  Demo.first_day
  ∈ daily_averages_of
      (omap (primary_article (Demo.social_world 0)) Demo.raw_articles).
Proof. vm_compute. apply list_elem_of_here. Qed.

Lemma label_ratios_witness :
  (- (1 # 1000)
   <= Hourly.positive_ratio Demo.first_hour
      + Hourly.negative_ratio Demo.first_hour
      + Hourly.neutral_ratio Demo.first_hour - 1
   <= 1 # 1000)%Q
  ∧ (- (1 # 1000)
     <= Daily.positive_ratio Demo.first_day
        + Daily.negative_ratio Demo.first_day
        + Daily.neutral_ratio Demo.first_day - 1
     <= 1 # 1000)%Q.
Proof.
  split.
  - exact (proj2 (proj2 (proj2 (proj2 (proj2 (proj2
             (proj2 (label_ratios_sum_to_one (Demo.social_world 4))
                (Demo.feed 4) Demo.start_date Demo.first_hour
                first_hour_emitted))))))).
  - exact (proj2 (proj2 (proj2 (proj2 (proj2 (proj2
             (proj1 (label_ratios_sum_to_one (Demo.social_world 0))
                Demo.raw_articles Demo.first_day
                first_day_emitted))))))).
Defined.

Lemma weighted_sentiment_witness :
  let b := bucket (hourly_key (Demo.social_world 4))
             (Hourly.date_hour Demo.first_hour)
             (omap (tweet_entry (Demo.social_world 4) Demo.start_date)
                (Demo.feed 4)) in
  Hourly.weighted_sentiment Demo.first_hour
  = py_round (Qsum ((λ t, tweet_compound t * tweet_weight t)%Q <$> b)
              / Qsum (tweet_weight <$> b)) 3.
Proof.
  refine (proj1 (weighted_sentiment_formula (Demo.social_world 4)
                   (Demo.feed 4) Demo.start_date Demo.first_hour
                   first_hour_emitted) _).
  reflexivity.
Defined.

Lemma second_tweet_kept :
  Demo.second_tweet
  ∈ omap (tweet_entry (Demo.social_world 4) Demo.start_date) (Demo.feed 4).
Proof. vm_compute. apply list_elem_of_further, list_elem_of_here. Qed.

Lemma total_weight_witness :
  (1 <= tweet_weight Demo.second_tweet)%Q
  ∧ Hourly.weighted_sentiment Demo.first_hour
    = py_round
        (Qsum ((λ t, tweet_compound t * tweet_weight t)%Q
                 <$> bucket (hourly_key (Demo.social_world 4))
                       (Hourly.date_hour Demo.first_hour)
                       (omap (tweet_entry (Demo.social_world 4)
                                Demo.start_date) (Demo.feed 4)))
         / Qsum (tweet_weight
                   <$> bucket (hourly_key (Demo.social_world 4))
                         (Hourly.date_hour Demo.first_hour)
                         (omap (tweet_entry (Demo.social_world 4)
                                  Demo.start_date) (Demo.feed 4)))) 3.
Proof.
  assert (Hnonneg :
    Forall (λ s, (0 <= Status.followers_count s)%Z
                 ∧ (0 <= Status.retweet_count s)%Z
                 ∧ (0 <= Status.favorite_count s)%Z) (Demo.feed 4)).
  { repeat constructor; discriminate. }
  split.
  - exact (proj1 (total_weight_never_zero (Demo.social_world 4)
                    (Demo.feed 4) Demo.start_date Hnonneg)
             Demo.second_tweet second_tweet_kept).
  - exact (proj2 (proj2 (total_weight_never_zero (Demo.social_world 4)
                           (Demo.feed 4) Demo.start_date Hnonneg))
             Demo.first_hour first_hour_emitted).
Defined.

Lemma social_bundle_witness :
  ∃ metadata,
    collect_social_sentiment (Demo.social_world 130) Demo.keyed_collector
      "AAPL" "stock" 3
    = SocialData "AAPL" "stock"
        (hourly_averages_of (Demo.social_world 130)
           (omap (tweet_entry (Demo.social_world 130) Demo.start_date)
              (take 500 (Demo.feed 130))))
        (take 100
           (omap (tweet_entry (Demo.social_world 130) Demo.start_date)
              (take 500 (Demo.feed 130))))
        metadata
    ∧ SocialMeta.total_tweets metadata = 130%Z.
Proof.
  destruct (social_bundle_caps_tweets_only (Demo.social_world 130)
              Demo.keyed_collector "AAPL" "stock" 3 Demo.credentials
              (Demo.feed 130))
    as (metadata & Hres & _ & _ & Htotal & _).
  - reflexivity.
  - reflexivity.
  - intros t. eexists. reflexivity.
  - exists metadata. split; [exact Hres|].
    rewrite Htotal. vm_compute. reflexivity.
Defined.

Lemma http_500_witness :
  collect_news_sentiment Demo.failing_news_world Demo.keyed_collector
    "AAPL" "stock" 7
  = collect_news_sentiment Demo.failing_news_world Demo.collector
      "AAPL" "stock" 7.
Proof.
  refine (proj2 (proj2
            (http_500_takes_fallback Demo.failing_news_world
               Demo.keyed_collector Demo.collector "AAPL" "stock" 7
               "(AAPL OR AAPL) stock" (Response.mk_news 500 (Raise "no body"))
               _ _ _ _ _))); reflexivity.
Defined.

Lemma snapshot_witness :
  let st' :=
    run_phase Demo.failing_news_world Demo.collector News
      Demo.completed_news Demo.empty_batch in
  snapshot_of Demo.collector News ("TSLA", Raise "worker died") = None
  ∧ ∃ outcome' e',
      ("TSLA", outcome') ∈ Demo.completed_news
      ∧ failure_message outcome' = Some e'
      ∧ result_entry st' "TSLA" (error_key News) = Some (Message e').
Proof.
  refine (proj1 (proj2
            (snapshot_written_iff_success Demo.failing_news_world
               Demo.collector News Demo.completed_news Demo.empty_batch _))
            "TSLA" (Raise "worker died") "worker died" _ _).
  - reflexivity.
  - unfold Demo.completed_news. do 2 apply list_elem_of_further.
    apply list_elem_of_here.
  - reflexivity.
Defined.

(** The fallback's result behind the two equal results of the witness
    above: the two headed blocks of the page, scored. *)
Example fallback_articles :
  match collect_news_sentiment Demo.failing_news_world Demo.keyed_collector
          "AAPL" "stock" 7 with
  | AltNewsData _ _ articles _ =>
      (λ a, (Article.title a, Sentiment.label (Article.sentiment a)))
        <$> articles
      = [ (Some "+ Shares rally after earnings", "positive");
          (Some "- Regulators open a probe", "negative") ]
  | _ => False
  end.
Proof. vm_compute. reflexivity. Qed.

(** The files and entries of the demo news phase. *)
Example completed_news_phase :
  let st' :=
    run_phase Demo.failing_news_world Demo.collector News
      Demo.completed_news Demo.empty_batch in
  (written st').*1 = ["financial_sentiment_data/news_sentiment/AAPL_news.json"]
  ∧ result_entry st' "MSFT" "news_error" = Some (Message "connection reset")
  ∧ result_entry st' "TSLA" "news_error" = Some (Message "worker died")
  ∧ result_entry st' "AAPL" "news_error" = None.
Proof. vm_compute. repeat split. Qed.

(** * Further properties *)

(** ** Price series: failures, readings and windows *)

Lemma mapM_Raise {A B} (f : A → result B) l msg :
  mapM f l = Raise msg → ∃ x, x ∈ l ∧ f x = Raise msg.
Proof.
  induction l as [|x l IH]; simpl; [done|].
  destruct (f x) as [y|m] eqn:Hx; simpl.
  - destruct (mapM f l) as [ys|m]; simpl; [done|].
    intros [= <-]. destruct IH as (x' & Hin & Hx'); [done|].
    exists x'. split; [by apply list_elem_of_further|done].
  - intros [= <-]. exists x. split; [apply list_elem_of_here|done].
Qed.

Lemma data_point_Raise w row msg :
  data_point w row = Raise msg → ∃ s, Bar.Volume row = Inf s.
Proof.
  unfold data_point. destruct (Bar.Volume row) as [q|s|]; simpl; try done.
  eauto.
Qed.

Lemma data_point_Inf w row s :
  Bar.Volume row = Inf s → ∃ msg, data_point w row = Raise msg.
Proof. intros E. unfold data_point. rewrite E. simpl. eauto. Qed.

Lemma mapM_Raise_elem {A B} (f : A → result B) l x msg :
  x ∈ l → f x = Raise msg → ∃ msg', mapM f l = Raise msg'.
Proof.
  induction l as [|y l IH]; intros Hin Hx.
  { by apply elem_of_nil in Hin. }
  simpl. apply elem_of_cons in Hin as [->|Hin].
  - rewrite Hx. simpl. eauto.
  - destruct (f y); simpl; [|eauto].
    destruct (IH Hin Hx) as [m ->]. simpl. eauto.
Qed.

(** X1.  The price collector returns a payload with the key ["error"]
    exactly when the provider raises, returns no bars, or returns a bar
    whose volume is infinite; in every other case it returns a price
    series. *)
Theorem price_collection_fails_iff
    (w : World) (ticker asset_type period interval : string) :
  has_error (collect_price_data w ticker asset_type period interval) = true
  ↔ match yf_history w (provider_symbol ticker asset_type) period interval with
    | Raise _ => True
    | Ok hist => hist = [] ∨ ∃ row s, row ∈ hist ∧ Bar.Volume row = Inf s
    end.
Proof.
  unfold collect_price_data.
  destruct (yf_history w _ period interval) as [hist|msg]; simpl; [|done].
  destruct hist as [|row0 hist]; simpl; [by split; eauto|].
  destruct (mapM (data_point w) (row0 :: hist)) as [points|msg] eqn:Hm.
  - simpl in Hm. rewrite Hm. simpl. split; [done|].
    intros [?|(row & s & Hin & Hs)]; [done|].
    destruct (data_point_Inf w row s Hs) as [m Hr].
    destruct (mapM_Raise_elem _ _ _ _ Hin Hr) as [m' Hm'].
    simpl in Hm'. congruence.
  - simpl in Hm. rewrite Hm. simpl. split; [|done]. intros _. right.
    change (mapM (data_point w) (row0 :: hist) = Raise msg) in Hm.
    apply mapM_Raise in Hm as (row & Hin & Hr).
    apply data_point_Raise in Hr as [s Hs]. eauto.
Qed.

(** The price series of a successful collection, with its metadata. *)
Lemma collect_price_data_inv
    (w : World) (ticker asset_type period interval : string)
    (hist : list Bar.t) (t a i : string) price_data metadata :
  yf_history w (provider_symbol ticker asset_type) period interval = Ok hist →
  collect_price_data w ticker asset_type period interval
  = PriceData t a i price_data metadata →
  ∃ points,
    hist ≠ []
    ∧ mapM (data_point w) hist = Ok points
    ∧ price_data = add_indicators w hist points
    ∧ metadata
      = {| PriceMeta.period := period;
           PriceMeta.data_points := Z.of_nat (length price_data);
           PriceMeta.start_time := PricePoint.timestamp <$> head price_data;
           PriceMeta.end_time := PricePoint.timestamp <$> last price_data;
           PriceMeta.collected_at := strftime w TIME_FORMAT (now w) |}.
Proof.
  intros Hfetch. unfold collect_price_data. rewrite Hfetch. simpl.
  destruct hist as [|row0 hist]; [done|]. simpl.
  destruct (mapM (data_point w) (row0 :: hist)) as [points|msg] eqn:Hm;
    simpl in Hm; rewrite Hm; simpl; [|done].
  intros [= <- <- <- <- <-]. by exists points.
Qed.

Lemma with_indicators_readings w hist i p :
  let p' := with_indicators w hist i p in
  PricePoint.timestamp p' = PricePoint.timestamp p
  ∧ PricePoint.open p' = PricePoint.open p
  ∧ PricePoint.high p' = PricePoint.high p
  ∧ PricePoint.low p' = PricePoint.low p
  ∧ PricePoint.close p' = PricePoint.close p
  ∧ PricePoint.volume p' = PricePoint.volume p.
Proof.
  unfold with_indicators. by destruct (volume_ratio_at _ i).
Qed.

Lemma mapM_Ok_lookup_fwd {A B} (f : A → result B) l l' i x :
  mapM f l = Ok l' → l !! i = Some x → ∃ y, l' !! i = Some y ∧ f x = Ok y.
Proof.
  intros Hm Hx.
  pose proof (mapM_Ok_length _ _ _ Hm) as Hlen.
  destruct (lookup_lt_is_Some_2 l' i) as [y Hy].
  { rewrite Hlen. by eapply lookup_lt_Some. }
  destruct (mapM_Ok_lookup _ _ _ _ _ Hm Hy) as (x' & Hx' & Hf).
  exists y. split; [done|]. congruence.
Qed.

(** The point the collector returns at an index, before the indicators. *)
Lemma price_point_lookup w hist points i row :
  mapM (data_point w) hist = Ok points →
  hist !! i = Some row →
  ∃ p0, data_point w row = Ok p0
        ∧ add_indicators w hist points !! i
          = Some (if decide (10 < length hist ∧ 5 ≤ i)%nat
                  then with_indicators w hist i p0 else p0).
Proof.
  intros Hm Hrow.
  destruct (mapM_Ok_lookup_fwd _ _ _ _ _ Hm Hrow) as (p0 & Hp0 & Hf).
  exists p0. split; [done|].
  rewrite add_indicators_lookup, (mapM_Ok_length _ _ _ Hm), Hp0.
  by case_decide.
Qed.

(** X2.  A returned price series has one point per bar, in order, and the
    indicator block changes no reading: the point of bar [i] carries the
    bar's formatted timestamp, each of open, high, low and close as the
    bar's reading or [None] for [nan], and the volume truncated to an
    integer or [None] for [nan].  The metadata counts the bars and names
    the timestamps of the first and the last bar. *)
Theorem readings_survive_indicators
    (w : World) (ticker asset_type period interval : string)
    (hist : list Bar.t) (t a iv : string)
    (price_data : list PricePoint.t) (metadata : PriceMeta.t) :
  yf_history w (provider_symbol ticker asset_type) period interval = Ok hist →
  collect_price_data w ticker asset_type period interval
  = PriceData t a iv price_data metadata →
  let stamp (row : Bar.t) := strftime w TIME_FORMAT (Bar.date row) in
  let reading (x : float64) := if isnan x then None else Some x in
  length price_data = length hist
  ∧ PriceMeta.data_points metadata = Z.of_nat (length hist)
  ∧ PriceMeta.start_time metadata = stamp <$> head hist
  ∧ PriceMeta.end_time metadata = stamp <$> last hist
  ∧ ∀ i row, hist !! i = Some row →
      ∃ p, price_data !! i = Some p
           ∧ PricePoint.timestamp p = stamp row
           ∧ PricePoint.open p = reading (Bar.Open row)
           ∧ PricePoint.high p = reading (Bar.High row)
           ∧ PricePoint.low p = reading (Bar.Low row)
           ∧ PricePoint.close p = reading (Bar.Close row)
           ∧ PricePoint.volume p
             = match Bar.Volume row with
               | Fin q => Some (Z.quot (Qnum q) (Zpos (Qden q)))
               | _ => None
               end.
Proof.
  intros Hfetch Hres stamp reading.
  destruct (collect_price_data_inv _ _ _ _ _ _ _ _ _ _ _ Hfetch Hres)
    as (points & Hne & Hm & -> & ->).
  pose proof (mapM_Ok_length _ _ _ Hm) as Hlen.
  assert (Hpoint : ∀ i row, hist !! i = Some row →
    ∃ p, add_indicators w hist points !! i = Some p
         ∧ PricePoint.timestamp p = stamp row
         ∧ PricePoint.open p = reading (Bar.Open row)
         ∧ PricePoint.high p = reading (Bar.High row)
         ∧ PricePoint.low p = reading (Bar.Low row)
         ∧ PricePoint.close p = reading (Bar.Close row)
         ∧ PricePoint.volume p
           = match Bar.Volume row with
             | Fin q => Some (Z.quot (Qnum q) (Zpos (Qden q)))
             | _ => None
             end).
  { intros i row Hrow.
    destruct (price_point_lookup w hist points i row Hm Hrow)
      as (p0 & Hp0 & Hlook).
    eexists. split; [exact Hlook|].
    assert (Hbase :
      PricePoint.timestamp p0 = stamp row
      ∧ PricePoint.open p0 = reading (Bar.Open row)
      ∧ PricePoint.high p0 = reading (Bar.High row)
      ∧ PricePoint.low p0 = reading (Bar.Low row)
      ∧ PricePoint.close p0 = reading (Bar.Close row)
      ∧ PricePoint.volume p0
        = match Bar.Volume row with
          | Fin q => Some (Z.quot (Qnum q) (Zpos (Qden q)))
          | _ => None
          end).
    { revert Hp0. unfold data_point.
      destruct (Bar.Volume row) as [q|s|]; simpl; try done;
        by intros [= <-]. }
    case_decide; [|exact Hbase].
    destruct (with_indicators_readings w hist i p0)
      as (-> & -> & -> & -> & -> & ->).
    exact Hbase. }
  simpl. rewrite add_indicators_length, Hlen.
  split; [done|]. split; [done|]. split; [|split; [|exact Hpoint]].
  - destruct hist as [|row0 hist']; [done|].
    destruct (Hpoint 0%nat row0 eq_refl) as (p & Hp & Ht & _).
    rewrite head_lookup, Hp. simpl. by rewrite Ht.
  - rewrite !last_lookup, add_indicators_length, Hlen.
    destruct (hist !! pred (length hist)) as [row|] eqn:Hrow.
    + destruct (Hpoint _ row Hrow) as (p & Hp & Ht & _).
      rewrite Hp. simpl. by rewrite Ht.
    + apply lookup_ge_None in Hrow.
      rewrite (lookup_ge_None_2 (add_indicators w hist points))
        by (rewrite add_indicators_length; lia).
      done.
Qed.

Lemma slice_constant {A} (c : A) (l : list A) (i : nat) :
  (5 ≤ i ≤ length l)%nat →
  (∀ j, (i - 5 ≤ j < i)%nat → l !! j = Some c) →
  slice (i - 5) i l = replicate 5 c.
Proof.
  intros Hi Hc. unfold slice. apply list_eq. intros k.
  destruct (decide (k < 5)%nat) as [Hk|Hk].
  - rewrite lookup_take_lt by lia. rewrite lookup_drop, Hc by lia.
    symmetry. apply lookup_replicate. split; [done|lia].
  - rewrite lookup_take_ge by lia.
    symmetry. apply lookup_replicate_None. lia.
Qed.

(** X3.  In a returned price series, a point carries
    [volume_ratio_5period] exactly when the series has more than 10 bars,
    the index is at least 5 and the mean volume of the five preceding bars
    is greater than 0; the value is then the bar's volume over that mean,
    rounded to two decimals.  When the five preceding volumes are all 0 the
    key is absent. *)
Theorem volume_ratio_attached_iff
    (w : World) (ticker asset_type period interval : string)
    (hist : list Bar.t) (t a iv : string)
    (price_data : list PricePoint.t) (metadata : PriceMeta.t)
    (i : nat) (p : PricePoint.t) :
  yf_history w (provider_symbol ticker asset_type) period interval = Ok hist →
  collect_price_data w ticker asset_type period interval
  = PriceData t a iv price_data metadata →
  price_data !! i = Some p →
  let volumes := Bar.Volume <$> hist in
  let avg_volume := np_mean (slice (i - 5) i volumes) in
  (is_Some (PricePoint.volume_ratio_5period p)
   ↔ (10 < length hist)%nat ∧ (5 ≤ i)%nat ∧ fgt0 avg_volume = true)
  ∧ (is_Some (PricePoint.volume_ratio_5period p) →
     PricePoint.volume_ratio_5period p
     = Some (round_float (fdiv (volumes !!! i) avg_volume) 2))
  ∧ ((∀ j, (i - 5 ≤ j < i)%nat → volumes !! j = Some (Fin 0)) →
     PricePoint.volume_ratio_5period p = None).
Proof.
  intros Hfetch Hres Hp volumes avg_volume.
  destruct (collect_price_data_inv _ _ _ _ _ _ _ _ _ _ _ Hfetch Hres)
    as (points & Hne & Hm & -> & _).
  pose proof (mapM_Ok_length _ _ _ Hm) as Hlen.
  assert (Hi : (i < length hist)%nat).
  { rewrite <- Hlen, <- (add_indicators_length w hist points).
    by eapply lookup_lt_Some. }
  destruct (lookup_lt_is_Some_2 hist i Hi) as [row Hrow].
  destruct (price_point_lookup w hist points i row Hm Hrow)
    as (p0 & Hp0 & Hlook).
  rewrite Hlook in Hp. injection Hp as <-.
  destruct (data_point_fresh w row p0 Hp0) as (_ & _ & Hfresh).
  assert (Hvalue :
    PricePoint.volume_ratio_5period
      (if decide (10 < length hist ∧ 5 ≤ i)%nat
       then with_indicators w hist i p0 else p0)
    = if decide (10 < length hist ∧ 5 ≤ i)%nat
      then (if fgt0 avg_volume
            then Some (round_float (fdiv (volumes !!! i) avg_volume) 2)
            else None)
      else None).
  { case_decide; [|exact Hfresh].
    unfold with_indicators, volume_ratio_at. fold volumes. fold avg_volume.
    destruct (fgt0 avg_volume); simpl; [done|exact Hfresh]. }
  rewrite Hvalue. split; [|split].
  - case_decide as Hwin.
    + destruct (fgt0 avg_volume); split.
      * intros _. tauto.
      * intros _. eauto.
      * by intros [? ?].
      * intros (_ & _ & ?). done.
    + split; [by intros [? ?]|]. intros (? & ? & _). tauto.
  - case_decide; [|by intros [? ?]].
    destruct (fgt0 avg_volume); [done|by intros [? ?]].
  - intros Hzero. case_decide as Hwin; [|done].
    assert (E : slice (i - 5) i volumes = replicate 5 (Fin 0)).
    { apply slice_constant; [|exact Hzero].
      unfold volumes. rewrite length_fmap. lia. }
    unfold avg_volume. rewrite E. reflexivity.
Qed.

(** ** Price series: no look-ahead *)

Lemma slice_take {A} (l : list A) (i : nat) :
  (5 ≤ i)%nat → slice (i - 5) i l = drop (i - 5) (take i l).
Proof.
  intros Hi. unfold slice. rewrite take_drop_commute. f_equal. f_equal. lia.
Qed.

Lemma lookup_total_take_S `{Inhabited A} (l : list A) (i : nat) :
  take (S i) l !!! i = l !!! i.
Proof.
  rewrite !list_lookup_total_alt. by rewrite lookup_take_lt by lia.
Qed.

Lemma with_indicators_prefix (w1 w2 : World) hist1 hist2 i p :
  (∀ l, np_std w1 l = np_std w2 l) →
  (5 ≤ i)%nat →
  take (S i) hist1 = take (S i) hist2 →
  with_indicators w1 hist1 i p = with_indicators w2 hist2 i p.
Proof.
  intros Hstd Hi Htake.
  assert (Hfield : ∀ f : Bar.t → float64,
            take (S i) (f <$> hist1) = take (S i) (f <$> hist2)).
  { intros f. by rewrite <- !fmap_take, Htake. }
  assert (Hslice : ∀ f : Bar.t → float64,
            slice (i - 5) i (f <$> hist1) = slice (i - 5) i (f <$> hist2)).
  { intros f. rewrite !slice_take by done.
    replace i with (i `min` S i)%nat at 2 4 by lia.
    by rewrite <- !take_take, Hfield. }
  assert (Hat : ∀ (f : Bar.t → float64) j, (j ≤ i)%nat →
            (f <$> hist1) !!! j = (f <$> hist2) !!! j).
  { intros f j Hj. rewrite !list_lookup_total_alt.
    rewrite <- (lookup_take_lt (f <$> hist1) (S i) j) by lia.
    rewrite <- (lookup_take_lt (f <$> hist2) (S i) j) by lia.
    by rewrite Hfield. }
  unfold with_indicators, volatility_at, momentum_at, volume_ratio_at.
  rewrite !Hslice, Hstd.
  rewrite (Hat Bar.Close i), (Hat Bar.Close (i - 5)%nat),
          (Hat Bar.Volume i) by lia.
  done.
Qed.

(** X4.  The indicators of a point look at no later bar: when two
    collections, each over more than 10 bars, agree on the bars up to and
    including index [i], they return the same point at index [i]. *)
Theorem indicators_have_no_lookahead
    (w1 w2 : World) (ticker asset_type period interval : string)
    (hist1 hist2 : list Bar.t) (i : nat) :
  (∀ l, np_std w1 l = np_std w2 l) →
  (∀ f t, strftime w1 f t = strftime w2 f t) →
  yf_history w1 (provider_symbol ticker asset_type) period interval = Ok hist1 →
  yf_history w2 (provider_symbol ticker asset_type) period interval = Ok hist2 →
  has_error (collect_price_data w1 ticker asset_type period interval) = false →
  has_error (collect_price_data w2 ticker asset_type period interval) = false →
  (10 < length hist1)%nat → (10 < length hist2)%nat →
  take (S i) hist1 = take (S i) hist2 →
  price_data_of (collect_price_data w1 ticker asset_type period interval) !! i
  = price_data_of (collect_price_data w2 ticker asset_type period interval) !! i.
Proof.
  intros Hstd Hfmt Hf1 Hf2 He1 He2 Hl1 Hl2 Htake.
  assert (Hshape : ∀ w hist,
    yf_history w (provider_symbol ticker asset_type) period interval = Ok hist →
    has_error (collect_price_data w ticker asset_type period interval) = false →
    ∃ points, mapM (data_point w) hist = Ok points
      ∧ price_data_of (collect_price_data w ticker asset_type period interval)
        = add_indicators w hist points).
  { intros w hist Hf He. revert He. unfold collect_price_data.
    rewrite Hf. simpl. destruct hist as [|row0 hist]; [done|]. simpl.
    destruct (mapM (data_point w) (row0 :: hist)) as [points|msg] eqn:Hm;
      simpl in Hm; rewrite Hm; simpl; [|done].
    intros _. by exists points. }
  destruct (Hshape w1 hist1 Hf1 He1) as (points1 & Hm1 & ->).
  destruct (Hshape w2 hist2 Hf2 He2) as (points2 & Hm2 & ->).
  destruct (hist1 !! i) as [row|] eqn:Hrow.
  - assert (Hrow2 : hist2 !! i = Some row).
    { rewrite <- (lookup_take_lt hist2 (S i) i), <- Htake by lia.
      by rewrite lookup_take_lt by lia. }
    destruct (price_point_lookup w1 hist1 points1 i row Hm1 Hrow)
      as (p1 & Hp1 & ->).
    destruct (price_point_lookup w2 hist2 points2 i row Hm2 Hrow2)
      as (p2 & Hp2 & ->).
    assert (p1 = p2) as <-.
    { revert Hp1 Hp2. unfold data_point. rewrite Hfmt.
      destruct (if isnan (Bar.Volume row) then _ else _); simpl; congruence. }
    f_equal. destruct (decide (5 ≤ i)%nat) as [Hi|Hi].
    + rewrite !decide_True by done. by apply with_indicators_prefix.
    + rewrite !decide_False by tauto. done.
  - apply lookup_ge_None in Hrow.
    assert (Hlen2 : (length hist2 ≤ i)%nat).
    { apply (f_equal length) in Htake. rewrite !length_take in Htake. lia. }
    rewrite !lookup_ge_None_2; [done| |].
    + rewrite add_indicators_length, (mapM_Ok_length _ _ _ Hm2). lia.
    + rewrite add_indicators_length, (mapM_Ok_length _ _ _ Hm1). lia.
Qed.

(** ** The fallback path of the news collector *)

Lemma omap_length_bound {A B} (f : A → option B) (l : list A) :
  (length (omap f l) ≤ length l)%nat.
Proof.
  induction l as [|x l IH]; [done|].
  change (omap f (x :: l))
    with (match f x with Some y => y :: omap f l | None => omap f l end).
  destruct (f x); cbn [length]; lia.
Qed.

Lemma scrape_cases w url :
  scrape w url = []
  ∨ ∃ response elements,
      http_get w url = Ok response
      ∧ Response.page_status_code response = 200%Z
      ∧ article_elements w (Response.page_text response) = Ok elements
      ∧ scrape w url = omap (alternative_article w url) (take 20 elements).
Proof.
  unfold scrape.
  destruct (http_get w url) as [response|msg]; simpl; [|by left].
  destruct (Z.eqb_spec (Response.page_status_code response) 200); [|by left].
  destruct (article_elements w _) as [elements|msg] eqn:He; simpl; [|by left].
  right. by exists response, elements.
Qed.

Lemma scrape_length w url : (length (scrape w url) ≤ 20)%nat.
Proof.
  destruct (scrape_cases w url) as [->|(r & els & _ & _ & _ & ->)]; [simpl; lia|].
  etrans; [apply omap_length_bound|]. rewrite length_take. lia.
Qed.


Lemma alternative_urls_length ticker asset_type :
  length (alternative_urls ticker asset_type)
  = if String.eqb asset_type "crypto" then 2%nat else 1%nat.
Proof. unfold alternative_urls. by destruct (String.eqb _ _). Qed.

Lemma concat_length_bound {A} (ls : list (list A)) (n : nat) :
  Forall (λ l, length l ≤ n)%nat ls → (length (concat ls) ≤ n * length ls)%nat.
Proof.
  induction 1 as [|l ls Hl _ IH]; simpl; [lia|].
  rewrite length_app. lia.
Qed.


(** The three returns of the fallback, by its list of articles. *)
Lemma collect_alternative_news_cases w ticker asset_type days_back :
  let articles := concat (scrape w <$> alternative_urls ticker asset_type) in
  (articles = []
   ∧ collect_alternative_news w ticker asset_type days_back
     = StatusOnly ticker "No articles found through alternative sources"
         (Some (strftime w TIME_FORMAT (now w))))
  ∨ (articles ≠ []
     ∧ collect_alternative_news w ticker asset_type days_back
       = AltNewsData ticker asset_type articles
           {| AltNewsMeta.total_articles := Z.of_nat (length articles);
              AltNewsMeta.note :=
                "Data collected through alternative sources - limited reliability";
              AltNewsMeta.collected_at := strftime w TIME_FORMAT (now w) |}).
Proof.
  intros articles. unfold collect_alternative_news. fold articles.
  destruct articles; [left|right]; done.
Qed.

Lemma collect_alternative_news_ok w ticker asset_type days_back :
  has_error (collect_alternative_news w ticker asset_type days_back) = false.
Proof.
  destruct (collect_alternative_news_cases w ticker asset_type days_back)
    as [[_ ->]|[_ ->]]; done.
Qed.

(** X5.  The fallback never returns a payload with the key ["error"]: it
    returns the status "No articles found through alternative sources" when
    no page yields an article, which is the case when every fetch raises or
    is answered with a status other than 200, and otherwise a bundle of at
    least one and at most 20 articles per page fetched (40 for a crypto
    asset, 20 otherwise) whose [total_articles] is the length of its
    list. *)
Theorem alternative_news_never_errors
    (w : World) (ticker asset_type : string) (days_back : Z) :
  let result := collect_alternative_news w ticker asset_type days_back in
  has_error result = false
  ∧ match result with
    | StatusOnly t status _ =>
        t = ticker
        ∧ status = "No articles found through alternative sources"
    | AltNewsData t a articles metadata =>
        t = ticker ∧ a = asset_type
        ∧ articles ≠ []
        ∧ (length articles
           ≤ if String.eqb asset_type "crypto" then 40 else 20)%nat
        ∧ AltNewsMeta.total_articles metadata = Z.of_nat (length articles)
    | _ => False
    end
  ∧ ((∀ url, match http_get w url with
             | Ok response => Response.page_status_code response ≠ 200%Z
             | Raise _ => True
             end) →
     result = StatusOnly ticker "No articles found through alternative sources"
                (Some (strftime w TIME_FORMAT (now w)))).
Proof.
  intros result. split; [apply collect_alternative_news_ok|].
  destruct (collect_alternative_news_cases w ticker asset_type days_back)
    as [[Hnil Hres]|[Hne Hres]]; unfold result; rewrite Hres.
  - split; [done|]. done.
  - split.
    + split; [done|]. split; [done|]. split; [done|]. split; [|done].
      etrans; [apply (concat_length_bound _ 20)|].
      * apply Forall_fmap, Forall_forall. intros url _. apply scrape_length.
      * rewrite length_fmap, alternative_urls_length.
        destruct (String.eqb _ _); lia.
    + intros Hdown. exfalso. apply Hne.
      assert (Hall : Forall (λ l : list Article.t, l = [])
                       (scrape w <$> alternative_urls ticker asset_type)).
      { apply Forall_fmap, Forall_forall. intros url _. simpl.
        unfold scrape. specialize (Hdown url).
        destruct (http_get w url) as [response|msg]; simpl; [|done].
        by destruct (Z.eqb_spec (Response.page_status_code response) 200). }
      clear -Hall. induction Hall as [|l ls -> _ IH]; simpl; done.
Qed.


(** ** The primary path of the news collector *)

(** X7.  The news collector returns a payload with the key ["error"]
    exactly when a news credential is configured and the primary path
    raises: while resolving the company name, in the request itself, or
    while parsing the body of a response with status 200.  A raising
    request is reported as an error and is not retried on the fallback;
    without a credential the collector never reports an error. *)
Theorem news_collection_fails_iff
    (w : World) (self : Collector) (ticker asset_type : string)
    (days_back : Z) :
  has_error (collect_news_sentiment w self ticker asset_type days_back) = true
  ↔ truthy (newsapi_key self) = true
    ∧ match primary_query w ticker asset_type with
      | Raise _ => True
      | Ok query =>
          match newsapi_get w
                  (primary_url w self query
                     (now w - 86400 * days_back)%Z (now w)) with
          | Raise _ => True
          | Ok response =>
              Response.status_code response = 200%Z
              ∧ ∃ msg, Response.json response = Raise msg
          end
      end.
Proof.
  unfold collect_news_sentiment.
  destruct (truthy (newsapi_key self)); simpl.
  2: { rewrite collect_alternative_news_ok. split; [done|by intros [? _]]. }
  destruct (primary_query w ticker asset_type) as [query|msg]; simpl;
    [|by split].
  destruct (newsapi_get w _) as [response|msg]; simpl; [|by split].
  destruct (Z.eqb_spec (Response.status_code response) 200) as [E|E]; simpl.
  - destruct (Response.json response) as [body|msg]; simpl.
    + destruct (negb _ || _); simpl.
      * rewrite collect_alternative_news_ok.
        split; [done|]. by intros (_ & _ & ? & ?).
      * split; [done|]. by intros (_ & _ & ? & ?).
    + split; [|done]. intros _. eauto.
  - rewrite collect_alternative_news_ok. split; [done|].
    intros (_ & ? & _). done.
Qed.

(** X8.  When the primary request is answered with status 200 and a body
    that parses, the collector takes the fallback if the body's status is
    not "ok" or its [totalResults] is 0 or missing.  Otherwise it returns
    the primary bundle: the kept articles are the returned ones whose
    title and description, joined by a space and stripped, have at least 20
    characters, in the provider's order; [total_articles] is their number
    and [period_days] is [days_back]. *)
Theorem news_body_decides_path
    (w : World) (self : Collector) (ticker asset_type : string)
    (days_back : Z) (query : string) (response : Response.news)
    (body : NewsBody.t) :
  truthy (newsapi_key self) = true →
  primary_query w ticker asset_type = Ok query →
  newsapi_get w
    (primary_url w self query (now w - 86400 * days_back)%Z (now w))
  = Ok response →
  Response.status_code response = 200%Z →
  Response.json response = Ok body →
  let result := collect_news_sentiment w self ticker asset_type days_back in
  let returned := default [] (NewsBody.articles body) in
  let long_enough (raw : RawArticle.t) :=
    (20 ≤ String.length
            (strip (fmt (RawArticle.title raw) +:+ " "
                    +:+ fmt (RawArticle.description raw))))%nat in
  if decide (NewsBody.status body = Some "ok"
             ∧ default 0%Z (NewsBody.totalResults body) ≠ 0%Z)
  then ∃ articles metadata,
         result = NewsData ticker asset_type (daily_averages_of articles)
                    articles metadata
         ∧ NewsMeta.total_articles metadata = Z.of_nat (length articles)
         ∧ NewsMeta.period_days metadata = days_back
         ∧ (λ a, (Article.title a, Article.published_at a)) <$> articles
           = (λ raw, (RawArticle.title raw, RawArticle.publishedAt raw))
               <$> filter long_enough returned
  else result = collect_alternative_news w ticker asset_type days_back.
Proof.
  intros Hkey Hquery Hget Hstatus Hjson result returned long_enough.
  unfold result, collect_news_sentiment.
  rewrite Hkey, Hquery. simpl. rewrite Hget. simpl.
  rewrite Hstatus. simpl. rewrite Hjson. simpl.
  case_decide as Hok.
  - destruct Hok as [Hs Ht].
    rewrite (bool_decide_eq_true_2 _ Hs). simpl.
    destruct (Z.eqb_spec (default 0%Z (NewsBody.totalResults body)) 0);
      [done|]. simpl.
    eexists _, _. split; [reflexivity|]. split; [done|]. split; [done|].
    fold returned. clear. induction returned as [|raw l IH]; [done|].
    rewrite filter_cons.
    change (omap (primary_article w) (raw :: l))
      with (match primary_article w raw with
            | Some y => y :: omap (primary_article w) l
            | None => omap (primary_article w) l
            end).
    unfold primary_article at 1.
    destruct (Nat.ltb_spec
                (String.length
                   (strip (fmt (RawArticle.title raw) +:+ " "
                           +:+ fmt (RawArticle.description raw)))) 20).
    + rewrite decide_False by (unfold long_enough; lia). exact IH.
    + rewrite decide_True by (unfold long_enough; lia).
      rewrite !fmap_cons, IH. done.
  - destruct (bool_decide_reflect (NewsBody.status body = Some "ok"));
      simpl; [|done].
    destruct (Z.eqb_spec (default 0%Z (NewsBody.totalResults body)) 0);
      simpl; [done|]. tauto.
Qed.

(** ** Order of the aggregates *)

Lemma String_leb_trans (s1 s2 s3 : string) :
  String.leb s1 s2 = true → String.leb s2 s3 = true → String.leb s1 s3 = true.
Proof.
  unfold String.leb. revert s2 s3.
  induction s1 as [|c1 s1 IH]; intros [|c2 s2] [|c3 s3]; simpl; try done.
  unfold Ascii.compare.
  destruct (N.compare_spec (N_of_ascii c1) (N_of_ascii c2)) as [E12|L12|G12];
    try done.
  - rewrite E12.
    destruct (N.compare_spec (N_of_ascii c2) (N_of_ascii c3)); try done.
    apply IH.
  - destruct (N.compare_spec (N_of_ascii c2) (N_of_ascii c3)) as [E23|L23|G23];
      try done; intros _ _.
    + rewrite <- E23. by rewrite (proj2 (N.compare_lt_iff _ _) L12).
    + by rewrite (proj2 (N.compare_lt_iff _ _) (N.lt_trans _ _ _ L12 L23)).
Qed.

Lemma key_le_trans {A} (key : A → string) :
  Transitive (key_le key).
Proof.
  intros a b c Hab Hbc. unfold key_le in *.
  apply Is_true_true. apply Is_true_true in Hab, Hbc.
  by eapply String_leb_trans.
Qed.

Lemma key_le_total {A} (key : A → string) : Total (key_le key).
Proof.
  intros a b. unfold key_le.
  destruct (String.leb_total (key a) (key b)) as [H|H];
    [left|right]; by apply Is_true_true.
Qed.

Lemma sorted_by_sorted {A} (key : A → string) (l : list A) :
  StronglySorted (key_le key) (sorted_by key l).
Proof.
  apply StronglySorted_merge_sort;
    [apply key_le_trans|apply key_le_total].
Qed.

Section Emitted.
Context {A Acc Out : Type} (key : A → option string)
  (add : A → Acc → Acc) (init : Acc)
  (average : string * Acc → option Out) (okey : Out → string)
  (count : Acc → Z) (ocount : Out → Z).
Hypothesis average_key : ∀ k acc o, average (k, acc) = Some o → okey o = k.
Hypothesis average_emits : ∀ k acc,
  (0 < count acc)%Z → ∃ o, average (k, acc) = Some o.
Hypothesis average_count : ∀ k acc o,
  average (k, acc) = Some o → ocount o = count acc.
Hypothesis count_init : count init = 0%Z.
Hypothesis count_add : ∀ x acc, count (add x acc) = (count acc + 1)%Z.

Lemma count_fold (b : list A) :
  count (foldl (λ acc x, add x acc) init b) = Z.of_nat (length b).
Proof.
  induction b as [|x b IH] using rev_ind; [simpl; by rewrite count_init|].
  rewrite foldl_snoc, count_add, IH, length_app. simpl. lia.
Qed.

Lemma emitted_keys_NoDup (items : list (string * Acc)) :
  NoDup items.*1 → NoDup (okey <$> omap average items).
Proof.
  induction items as [|[k acc] items IH]; [constructor|].
  rewrite fmap_cons. simpl. intros Hnd.
  apply NoDup_cons in Hnd as [Hk Hnd].
  change (omap average ((k, acc) :: items))
    with (match average (k, acc) with
          | Some o => o :: omap average items
          | None => omap average items
          end).
  destruct (average (k, acc)) as [o|] eqn:Ho; [|by apply IH].
  rewrite fmap_cons. apply NoDup_cons. split; [|by apply IH].
  rewrite (average_key _ _ _ Ho). intros Hin. apply Hk.
  apply list_elem_of_fmap in Hin as (o' & -> & Hin).
  apply list_elem_of_omap in Hin as ([k' acc'] & Hin & Ho').
  rewrite (average_key _ _ _ Ho').
  apply list_elem_of_fmap. by exists (k', acc').
Qed.

(** The emitted list is in ascending key order, has one entry per key, and
    its keys are the keys of the items. *)
Lemma emitted_ordered (l : list A) :
  let out :=
    sorted_by okey
      (omap average (map_to_list (foldl (group_step key add init) ∅ l))) in
  StronglySorted (key_le okey) out
  ∧ NoDup (okey <$> out)
  ∧ ∀ k, k ∈ (okey <$> out) ↔ ∃ x, x ∈ l ∧ key x = Some k.
Proof.
  intros out. split; [apply sorted_by_sorted|]. split.
  - unfold out, sorted_by.
    rewrite (fmap_Permutation _ _ _ (merge_sort_Permutation _ _)).
    apply emitted_keys_NoDup, NoDup_fst_map_to_list.
  - intros k. unfold out, sorted_by.
    rewrite (fmap_Permutation _ _ _ (merge_sort_Permutation _ _)).
    rewrite list_elem_of_fmap. split.
    + intros (o & -> & Hin).
      apply list_elem_of_omap in Hin as ([k' acc] & Hin & Ho).
      apply elem_of_map_to_list in Hin.
      apply group_lookup_Some in Hin as [Hne _].
      rewrite (average_key _ _ _ Ho).
      destruct (bucket key k' l) as [|x b] eqn:Hb; [done|].
      assert (Hx : x ∈ bucket key k' l) by (rewrite Hb; apply list_elem_of_here).
      unfold bucket in Hx. apply list_elem_of_filter in Hx as [? ?]. eauto.
    + intros (x & Hx & Hk).
      pose proof (group_lookup key add init l k) as Hlook.
      assert (Hb : x ∈ bucket key k l).
      { unfold bucket. by apply list_elem_of_filter. }
      destruct (bucket key k l) as [|x0 b] eqn:Eb.
      { by apply elem_of_nil in Hb. }
      destruct (average_emits k (foldl (λ acc x, add x acc) init (x0 :: b)))
        as [o Ho].
      { rewrite count_fold. simpl. lia. }
      exists o. split; [by rewrite (average_key _ _ _ Ho)|].
      apply list_elem_of_omap. eexists (k, _). split; [|exact Ho].
      by apply elem_of_map_to_list.
Qed.

Lemma Zsum_count_insert (m : gmap string Acc) k (x : A) :
  Zsum ((λ item, count item.2)
          <$> map_to_list (<[k := add x (default init (m !! k))]> m))
  = (Zsum ((λ item, count item.2) <$> map_to_list m) + 1)%Z.
Proof.
  destruct (m !! k) as [v|] eqn:Hk; simpl.
  - rewrite <- insert_delete_eq.
    rewrite (Zsum_Permutation _ _
               (fmap_Permutation _ _ _
                  (map_to_list_insert (delete k m) k (add x v)
                     (lookup_delete_eq m k)))).
    rewrite <- (Zsum_Permutation _ _
                  (fmap_Permutation _ _ _ (map_to_list_delete m k v Hk))).
    rewrite !fmap_cons. simpl. rewrite count_add. lia.
  - rewrite (Zsum_Permutation _ _
               (fmap_Permutation _ _ _
                  (map_to_list_insert m k (add x init) Hk))).
    rewrite fmap_cons. simpl. rewrite count_add, count_init. lia.
Qed.

Lemma group_fold_total (l : list A) :
  Zsum ((λ item, count item.2)
          <$> map_to_list (foldl (group_step key add init) ∅ l))
  = Z.of_nat (length (filter (λ x, is_Some (key x)) l)).
Proof.
  induction l as [|x l IH] using rev_ind.
  { simpl. by rewrite map_to_list_empty. }
  rewrite foldl_snoc, filter_app, length_app, filter_cons, filter_nil.
  unfold group_step at 1.
  destruct (key x) as [k|] eqn:Hk.
  - rewrite Zsum_count_insert, IH.
    rewrite decide_True by eauto. simpl. lia.
  - rewrite IH. rewrite decide_False by (by intros [? ?]). simpl. lia.
Qed.

(** The counts of the emitted entries add up to the number of items that
    have a key. *)
Lemma emitted_total (l : list A) :
  Zsum (ocount
          <$> sorted_by okey
                (omap average
                   (map_to_list (foldl (group_step key add init) ∅ l))))
  = Z.of_nat (length (filter (λ x, is_Some (key x)) l)).
Proof.
  unfold sorted_by.
  rewrite (Zsum_Permutation _ _
             (fmap_Permutation _ _ _ (merge_sort_Permutation _ _))).
  rewrite <- group_fold_total.
  assert (Hpos : Forall (λ item : string * Acc, (0 < count item.2)%Z)
                   (map_to_list (foldl (group_step key add init) ∅ l))).
  { apply Forall_forall. intros [k acc] Hin. simpl.
    apply elem_of_map_to_list in Hin.
    apply group_lookup_Some in Hin as [Hne ->].
    rewrite count_fold. by apply nonempty_length_pos. }
  induction Hpos as [|[k acc] items Hp _ IH]; [done|].
  simpl in Hp.
  change (omap average ((k, acc) :: items))
    with (match average (k, acc) with
          | Some o => o :: omap average items
          | None => omap average items
          end).
  destruct (average_emits k acc Hp) as [o Ho]. rewrite Ho.
  rewrite !fmap_cons. simpl. rewrite (average_count _ _ _ Ho).
  by rewrite <- IH.
Qed.

End Emitted.

Lemma daily_average_key k acc d :
  daily_average (k, acc) = Some d → Daily.date d = k.
Proof. unfold daily_average. case_match; [|done]. by intros [= <-]. Qed.

Lemma daily_average_emits k acc :
  (0 < DailyAcc.articles acc)%Z → ∃ d, daily_average (k, acc) = Some d.
Proof.
  intros Hpos. unfold daily_average.
  destruct (Z.ltb_spec 0 (DailyAcc.articles acc)); [eauto|lia].
Qed.

Lemma daily_average_count k acc d :
  daily_average (k, acc) = Some d →
  Daily.articles_count d = DailyAcc.articles acc.
Proof. unfold daily_average. case_match; [|done]. by intros [= <-]. Qed.

Lemma hourly_average_key k acc h :
  hourly_average (k, acc) = Some h → Hourly.date_hour h = k.
Proof. unfold hourly_average. case_match; [|done]. by intros [= <-]. Qed.

Lemma hourly_average_emits k acc :
  (0 < HourlyAcc.tweets acc)%Z → ∃ h, hourly_average (k, acc) = Some h.
Proof.
  intros Hpos. unfold hourly_average.
  destruct (Z.ltb_spec 0 (HourlyAcc.tweets acc)); [eauto|lia].
Qed.

(** X9.  The daily aggregates of the primary bundle are in ascending order
    of date with one entry per date; the dates are exactly the prefixes
    before the first "T" of the [published_at] strings of the articles;
    and the article counts of the entries add up to the number of articles
    whose [published_at] is a string: an article without one stays in the
    article list and is counted in no aggregate. *)
Theorem daily_averages_ordered (articles : list Article.t) :
  let out := daily_averages_of articles in
  StronglySorted (key_le Daily.date) out
  ∧ NoDup (Daily.date <$> out)
  ∧ (∀ date,
       date ∈ (Daily.date <$> out)
       ↔ ∃ a published_at,
           a ∈ articles
           ∧ Article.published_at a = Some published_at
           ∧ split "T" published_at !!! 0%nat = date)
  ∧ Zsum (Daily.articles_count <$> out)
    = Z.of_nat
        (length (filter (λ a, is_Some (Article.published_at a)) articles)).
Proof.
  intros out. unfold out, daily_averages_of. rewrite daily_fold_group.
  destruct (emitted_ordered daily_key daily_add daily_init daily_average
              Daily.date DailyAcc.articles daily_average_key
              daily_average_emits eq_refl (λ _ _, eq_refl) articles)
    as (Hsorted & Hnodup & Hkeys).
  split; [exact Hsorted|]. split; [exact Hnodup|]. split.
  - intros date. rewrite Hkeys. split.
    + intros (a & Ha & Hk). unfold daily_key in Hk.
      destruct (Article.published_at a) as [p|] eqn:Hp; [|done].
      injection Hk as Hk. eauto.
    + intros (a & p & Ha & Hp & Hd). exists a. split; [done|].
      unfold daily_key. rewrite Hp. simpl. by rewrite Hd.
  - rewrite (emitted_total daily_key daily_add daily_init daily_average
               Daily.date DailyAcc.articles Daily.articles_count
               daily_average_emits daily_average_count eq_refl
               (λ _ _, eq_refl)).
    f_equal. f_equal. apply list_filter_iff. intros a.
    unfold daily_key. destruct (Article.published_at a); simpl.
    + split; eauto.
    + split; by intros [? ?].
Qed.

(** X10.  The hourly aggregates of the social bundle are in ascending
    order of their hour key with one entry per hour, and the hours are
    exactly the hours of the tweets whose timestamp parses. *)
Theorem hourly_averages_ordered (w : World) (tweets : list Tweet.t) :
  let out := hourly_averages_of w tweets in
  StronglySorted (key_le Hourly.date_hour) out
  ∧ NoDup (Hourly.date_hour <$> out)
  ∧ ∀ date_hour,
      date_hour ∈ (Hourly.date_hour <$> out)
      ↔ ∃ t created_dt,
          t ∈ tweets
          ∧ strptime w (Tweet.created_at t) TIME_FORMAT = Ok created_dt
          ∧ strftime w "%Y-%m-%d %H" created_dt = date_hour.
Proof.
  intros out. unfold out, hourly_averages_of. rewrite hourly_fold_group.
  destruct (emitted_ordered (hourly_key w) hourly_add hourly_init
              hourly_average Hourly.date_hour HourlyAcc.tweets
              hourly_average_key hourly_average_emits eq_refl
              (λ _ _, eq_refl) tweets)
    as (Hsorted & Hnodup & Hkeys).
  split; [exact Hsorted|]. split; [exact Hnodup|].
  intros date_hour. rewrite Hkeys. split.
  - intros (t & Ht & Hk). unfold hourly_key, date_hour_of in Hk.
    destruct (strptime w (Tweet.created_at t) TIME_FORMAT) as [d|] eqn:Hd;
      simpl in Hk; [|done].
    injection Hk as Hk. eauto.
  - intros (t & d & Ht & Hd & Hk). exists t. split; [done|].
    unfold hourly_key, date_hour_of. rewrite Hd. simpl. by rewrite Hk.
Qed.

(** ** Ranges of the aggregates *)

(** Rounding to three decimals does not leave an interval with integer
    ends. *)
Lemma py_round_3_range (lo hi : Z) (x : Q) :
  (inject_Z lo <= x <= inject_Z hi)%Q →
  (inject_Z lo <= py_round x 3 <= inject_Z hi)%Q.
Proof.
  intros [Hlo Hhi].
  destruct (py_round_3_thousandths x) as (k & -> & Hk).
  assert (Hz : (1000 * lo <= k <= 1000 * hi)%Z).
  { assert (H1 : (inject_Z (1000 * lo) - (1 # 2) <= inject_Z k)%Q).
    { rewrite inject_Z_mult. change (inject_Z 1000) with 1000%Q. lra. }
    assert (H2 : (inject_Z k <= inject_Z (1000 * hi) + (1 # 2))%Q).
    { rewrite inject_Z_mult. change (inject_Z 1000) with 1000%Q. lra. }
    revert H1 H2. unfold Qle, Qminus, Qplus, Qopp, inject_Z; simpl. lia. }
  unfold Qle, inject_Z; simpl. lia.
Qed.

Lemma Qdiv_range (s n : Q) :
  (0 < n)%Q → (- n <= s <= n)%Q → (-1 <= s / n <= 1)%Q.
Proof.
  intros Hn [Hlo Hhi]. split.
  - apply Qle_shift_div_l; [done|]. lra.
  - apply Qle_shift_div_r; [done|]. lra.
Qed.

Lemma Qsum_range (l : list Q) :
  Forall (λ x, (-1 <= x <= 1)%Q) l →
  (- inject_Z (Z.of_nat (length l)) <= Qsum l
   <= inject_Z (Z.of_nat (length l)))%Q.
Proof.
  induction l as [|x l IH] using rev_ind; intros Hl.
  - unfold Qsum. simpl. unfold Qle; simpl; lia.
  - apply Forall_app in Hl as [Hl Hx]. apply Forall_inv in Hx.
    rewrite Qsum_snoc, length_app, Nat2Z.inj_add, inject_Z_plus.
    specialize (IH Hl). change (inject_Z (Z.of_nat (length [x]))) with 1%Q.
    lra.
Qed.

Lemma Qsum_weighted_range {A} (c wt : A → Q) (l : list A) :
  Forall (λ x, (-1 <= c x <= 1)%Q ∧ (0 <= wt x)%Q) l →
  (- Qsum (wt <$> l) <= Qsum ((λ x, c x * wt x)%Q <$> l)
   <= Qsum (wt <$> l))%Q.
Proof.
  induction l as [|x l IH] using rev_ind; intros Hl.
  - unfold Qsum. simpl. lra.
  - apply Forall_app in Hl as [Hl Hx]. apply Forall_inv in Hx.
    destruct Hx as [[Hc1 Hc2] Hw].
    rewrite !fmap_app, !list_fmap_singleton, !Qsum_snoc.
    specialize (IH Hl).
    assert (H1 : (0 <= (1 - c x) * wt x)%Q).
    { apply Qmult_le_0_compat; lra. }
    assert (H2 : (0 <= (1 + c x) * wt x)%Q).
    { apply Qmult_le_0_compat; lra. }
    lra.
Qed.

Lemma count_label_range label (l : list Sentiment.t) :
  (0 <= count_label label l <= Z.of_nat (length l))%Z.
Proof.
  unfold count_label. pose proof (length_filter (λ s, Sentiment.label s = label) l).
  lia.
Qed.

Lemma ratio_range (c n : Z) :
  (0 <= c <= n)%Z → (0 < n)%Z →
  (0 <= py_round (inject_Z c / inject_Z n) 3 <= 1)%Q.
Proof.
  intros Hc Hn.
  apply (py_round_3_range 0 1).
  assert (Hn' : (0 < inject_Z n)%Q).
  { change 0%Q with (inject_Z 0). by rewrite <- Zlt_Qlt. }
  assert (Hc0 : (0 <= inject_Z c)%Q).
  { change 0%Q with (inject_Z 0). rewrite <- Zle_Qle. lia. }
  assert (Hcn : (inject_Z c <= inject_Z n)%Q).
  { rewrite <- Zle_Qle. lia. }
  change (inject_Z 0) with 0%Q. change (inject_Z 1) with 1%Q. split.
  - apply Qle_shift_div_l; [done|]. lra.
  - apply Qle_shift_div_r; [done|]. lra.
Qed.

Lemma primary_article_compound w raw article :
  primary_article w raw = Some article →
  ∃ text, Sentiment.compound (Article.sentiment article)
          = Vader.compound (polarity_scores w text).
Proof.
  unfold primary_article. case_match; [done|]. intros [= <-]. simpl. eauto.
Qed.

Lemma tweet_entry_compound w start status tweet :
  tweet_entry w start status = Some tweet →
  ∃ text, tweet_compound tweet = Vader.compound (polarity_scores w text).
Proof.
  unfold tweet_entry. repeat case_match; try done.
  intros [= <-]. unfold tweet_compound. simpl. eauto.
Qed.

(** What the loop over [daily_sentiment.items()] stores for a date, in
    terms of the articles of that date. *)
Lemma daily_averages_values
    (w : World) (raw : list RawArticle.t) (d : Daily.t) :
  d ∈ daily_averages_of (omap (primary_article w) raw) →
  let b := bucket daily_key (Daily.date d) (omap (primary_article w) raw) in
  let n := Z.of_nat (length b) in
  let labels := Article.sentiment <$> b in
  (0 < n)%Z
  ∧ Daily.avg_sentiment d
    = py_round
        (Qsum ((λ a, Sentiment.compound (Article.sentiment a)) <$> b)
         / inject_Z n) 3
  ∧ Daily.positive_ratio d
    = py_round (inject_Z (count_label "positive" labels) / inject_Z n) 3
  ∧ Daily.negative_ratio d
    = py_round (inject_Z (count_label "negative" labels) / inject_Z n) 3
  ∧ Daily.neutral_ratio d
    = py_round (inject_Z (count_label "neutral" labels) / inject_Z n) 3.
Proof.
  intros Hd. cbv zeta.
  apply daily_averages_elem in Hd as [Hne Hd].
  pose proof (bucket_Forall _ daily_key (Daily.date d) _
                (primary_articles_valid w raw)) as Hvalid.
  set (b0 := bucket daily_key (Daily.date d) (omap (primary_article w) raw))
    in *.
  rewrite (daily_accumulator b0 Hvalid) in Hd.
  pose proof (nonempty_length_pos b0 Hne) as Hpos.
  unfold daily_average in Hd; simpl in Hd.
  destruct (Z.ltb_spec 0 (Z.of_nat (length b0))); [|lia].
  injection Hd as <-. simpl. done.
Qed.

Lemma hourly_ratio_values
    (w : World) (statuses : list Status.t) (start_date : Z) (h : Hourly.t) :
  h ∈ hourly_averages_of w (omap (tweet_entry w start_date) statuses) →
  let b := bucket (hourly_key w) (Hourly.date_hour h)
             (omap (tweet_entry w start_date) statuses) in
  let n := Z.of_nat (length b) in
  let labels := Tweet.sentiment <$> b in
  (0 < n)%Z
  ∧ Hourly.positive_ratio h
    = py_round (inject_Z (count_label "positive" labels) / inject_Z n) 3
  ∧ Hourly.negative_ratio h
    = py_round (inject_Z (count_label "negative" labels) / inject_Z n) 3
  ∧ Hourly.neutral_ratio h
    = py_round (inject_Z (count_label "neutral" labels) / inject_Z n) 3.
Proof.
  intros Hh. cbv zeta.
  apply hourly_averages_elem in Hh as [Hne Hh].
  pose proof (bucket_Forall _ (hourly_key w) (Hourly.date_hour h) _
                (tweet_entries_valid w start_date statuses)) as Hvalid.
  set (b0 := bucket (hourly_key w) (Hourly.date_hour h)
               (omap (tweet_entry w start_date) statuses)) in *.
  rewrite (hourly_accumulator b0 Hvalid) in Hh.
  pose proof (nonempty_length_pos b0 Hne) as Hpos.
  unfold hourly_average in Hh; simpl in Hh.
  destruct (Z.ltb_spec 0 (Z.of_nat (length b0))); [|lia].
  injection Hh as <-. simpl. done.
Qed.

Lemma avg_range (l : list Q) :
  l ≠ [] → Forall (λ x, (-1 <= x <= 1)%Q) l →
  (-1 <= py_round (Qsum l / inject_Z (Z.of_nat (length l))) 3 <= 1)%Q.
Proof.
  intros Hne Hl.
  apply (py_round_3_range (-1) 1).
  change (inject_Z (-1)) with (-1)%Q. change (inject_Z 1) with 1%Q.
  apply Qdiv_range; [|by apply Qsum_range].
  change 0%Q with (inject_Z 0). rewrite <- Zlt_Qlt.
  by apply nonempty_length_pos.
Qed.

(** X11.  With a scorer whose compound score lies in [-1, 1], every
    emitted daily and hourly aggregate has its [avg_sentiment] in [-1, 1]
    and each of its three ratios in [0, 1]; when the fetched posts have
    nonnegative follower, repost and like counts, [weighted_sentiment] lies
    in [-1, 1] as well. *)
Theorem aggregates_stay_in_range (w : World) :
  (∀ text, (-1 <= Vader.compound (polarity_scores w text) <= 1)%Q) →
  (∀ (raw : list RawArticle.t) (d : Daily.t),
     d ∈ daily_averages_of (omap (primary_article w) raw) →
     (-1 <= Daily.avg_sentiment d <= 1)%Q
     ∧ (0 <= Daily.positive_ratio d <= 1)%Q
     ∧ (0 <= Daily.negative_ratio d <= 1)%Q
     ∧ (0 <= Daily.neutral_ratio d <= 1)%Q)
  ∧ (∀ (statuses : list Status.t) (start_date : Z) (h : Hourly.t),
     h ∈ hourly_averages_of w (omap (tweet_entry w start_date) statuses) →
     (-1 <= Hourly.avg_sentiment h <= 1)%Q
     ∧ (0 <= Hourly.positive_ratio h <= 1)%Q
     ∧ (0 <= Hourly.negative_ratio h <= 1)%Q
     ∧ (0 <= Hourly.neutral_ratio h <= 1)%Q
     ∧ (Forall (λ s, (0 <= Status.followers_count s)%Z
                     ∧ (0 <= Status.retweet_count s)%Z
                     ∧ (0 <= Status.favorite_count s)%Z) statuses →
        (-1 <= Hourly.weighted_sentiment h <= 1)%Q)).
Proof.
  intros Hscore. split.
  - intros raw d Hd.
    destruct (daily_averages_values w raw d Hd)
      as (Hpos & -> & -> & -> & ->).
    set (b := bucket daily_key (Daily.date d) (omap (primary_article w) raw))
      in *.
    assert (Hne : b ≠ []) by (intros E; rewrite E in Hpos; simpl in Hpos; lia).
    split.
    + rewrite <- (length_fmap (λ a, Sentiment.compound (Article.sentiment a)) b).
      apply avg_range; [by destruct b|].
      apply Forall_fmap, Forall_forall. intros a Ha. simpl.
      unfold b, bucket in Ha. apply list_elem_of_filter in Ha as [_ Ha].
      apply list_elem_of_omap in Ha as (r & _ & Hr).
      destruct (primary_article_compound _ _ _ Hr) as [text ->]. apply Hscore.
    + pose proof (count_label_range "positive" (Article.sentiment <$> b)).
      pose proof (count_label_range "negative" (Article.sentiment <$> b)).
      pose proof (count_label_range "neutral" (Article.sentiment <$> b)).
      rewrite length_fmap in *.
      repeat split; apply ratio_range; lia.
  - intros statuses start_date h Hh.
    destruct (hourly_ratio_values w statuses start_date h Hh)
      as (Hpos & -> & -> & ->).
    destruct (hourly_averages_values w statuses start_date h Hh)
      as [-> Hwt].
    cbv zeta in Hwt.
    set (b := bucket (hourly_key w) (Hourly.date_hour h)
                (omap (tweet_entry w start_date) statuses)) in *.
    assert (Hne : b ≠ []) by (intros E; rewrite E in Hpos; simpl in Hpos; lia).
    assert (Hcomp : Forall (λ t, (-1 <= tweet_compound t <= 1)%Q) b).
    { apply Forall_forall. intros t Ht.
      unfold b, bucket in Ht. apply list_elem_of_filter in Ht as [_ Ht].
      apply list_elem_of_omap in Ht as (s & _ & Hs).
      destruct (tweet_entry_compound _ _ _ _ Hs) as [text ->]. apply Hscore. }
    assert (Havg :
      (-1 <= py_round (Qsum (tweet_compound <$> b)
                       / inject_Z (Z.of_nat (length b))) 3 <= 1)%Q).
    { rewrite <- (length_fmap tweet_compound b).
      apply avg_range; [by destruct b|]. by apply Forall_fmap. }
    split; [exact Havg|].
    pose proof (count_label_range "positive" (Tweet.sentiment <$> b)).
    pose proof (count_label_range "negative" (Tweet.sentiment <$> b)).
    pose proof (count_label_range "neutral" (Tweet.sentiment <$> b)).
    rewrite length_fmap in *.
    split; [apply ratio_range; lia|].
    split; [apply ratio_range; lia|].
    split; [apply ratio_range; lia|].
    intros Hnonneg. rewrite Hwt.
    destruct (Qis_pos (Qsum (tweet_weight <$> b))) eqn:Hw; [|exact Havg].
    apply Qis_pos_iff in Hw.
    apply (py_round_3_range (-1) 1).
    change (inject_Z (-1)) with (-1)%Q. change (inject_Z 1) with 1%Q.
    apply Qdiv_range; [done|].
    apply Qsum_weighted_range, Forall_forall. intros t Ht.
    split; [by apply (proj1 (Forall_forall _ _) Hcomp)|].
    unfold b, bucket in Ht. apply list_elem_of_filter in Ht as [_ Ht].
    apply list_elem_of_omap in Ht as (s & Hs & Hst).
    rewrite Forall_forall in Hnonneg. destruct (Hnonneg s Hs) as (Hf & Hr & Hl).
    destruct (tweet_entry_counts _ _ _ _ Hst) as (Ef & Er & El).
    unfold tweet_weight. rewrite Ef, Er, El.
    pose proof (weight_ge_1 _ _ _ Hf Hr Hl). lra.
Qed.

(** ** The social collector: failures and filters *)

(** X12.  The social collector returns a payload with the key ["error"]
    exactly when credentials are configured and the search raises; the
    message is then "Social sentiment collection failed: " followed by the
    text of the exception.  Without credentials it returns the status
    "Twitter API credentials not provided" whatever the platform would
    answer. *)
Theorem social_collection_fails_iff
    (w : World) (self : Collector) (ticker asset_type : string)
    (days_back : Z) :
  let result := collect_social_sentiment w self ticker asset_type days_back in
  (has_error result = true
   ↔ ∃ credentials msg,
       twitter_credentials self = Some credentials
       ∧ search_tweets w credentials (social_query ticker asset_type)
         = Raise msg)
  ∧ (∀ credentials msg,
       twitter_credentials self = Some credentials →
       search_tweets w credentials (social_query ticker asset_type)
       = Raise msg →
       result
       = Error (Some ticker) ("Social sentiment collection failed: " +:+ msg))
  ∧ (twitter_credentials self = None →
     ∀ w', collect_social_sentiment w' self ticker asset_type days_back
           = StatusOnly ticker "Twitter API credentials not provided" None).
Proof.
  intros result. unfold result, collect_social_sentiment.
  destruct (twitter_credentials self) as [credentials|].
  - destruct (search_tweets w credentials _) as [statuses|msg] eqn:Hs; simpl.
    + split; [|split; [|done]].
      * split; [done|]. intros (c & m & [= <-] & Hm). congruence.
      * intros c m [= <-] Hm. congruence.
    + split; [|split; [|done]].
      * split; [|done]. intros _. eauto.
      * intros c m [= <-] Hm. congruence.
  - split; [|split; [done|done]].
    split; [done|]. by intros (c & m & ? & _).
Qed.

(** X13.  Every tweet embedded in a social bundle comes from one of the
    first 500 fetched posts, was created inside the window of [days_back]
    days before now, and has a cleaned text of at least 10 characters; it
    carries the post's id and engagement counts unchanged, the cleaned text
    and the sentiment scored on the cleaned text.  The embedded tweets keep
    the fetch order. *)
Theorem bundle_tweets_pass_filters
    (w : World) (self : Collector) (ticker asset_type : string)
    (days_back : Z) (t a : string) (hourly_averages : list Hourly.t)
    (tweets : list Tweet.t) (metadata : SocialMeta.t) :
  collect_social_sentiment w self ticker asset_type days_back
  = SocialData t a hourly_averages tweets metadata →
  ∃ credentials statuses,
    twitter_credentials self = Some credentials
    ∧ search_tweets w credentials (social_query ticker asset_type)
      = Ok statuses
    ∧ Tweet.id <$> tweets
      `sublist_of` Status.id_str <$> take 500 statuses
    ∧ ∀ tweet, tweet ∈ tweets →
        ∃ status,
          status ∈ take 500 statuses
          ∧ (now w - 86400 * days_back <= Status.created_at status)%Z
          ∧ (10 ≤ String.length (Tweet.text tweet))%nat
          ∧ Tweet.text tweet = clean_text w (Status.full_text status)
          ∧ Tweet.id tweet = Status.id_str status
          ∧ Tweet.created_at tweet
            = strftime w TIME_FORMAT (Status.created_at status)
          ∧ Tweet.user_followers tweet = Status.followers_count status
          ∧ Tweet.retweet_count tweet = Status.retweet_count status
          ∧ Tweet.favorite_count tweet = Status.favorite_count status
          ∧ Tweet.sentiment tweet
            = sentiment_entry (polarity_scores w (Tweet.text tweet)).
Proof.
  unfold collect_social_sentiment.
  destruct (twitter_credentials self) as [credentials|]; [|done].
  destruct (search_tweets w credentials _) as [statuses|msg] eqn:Hs;
    simpl; [|done].
  intros [= <- <- <- <- <-].
  exists credentials, statuses. split; [done|]. split; [done|].
  set (start_date := (now w - 86400 * days_back)%Z).
  split.
  - etrans; [apply fmap_sublist, sublist_take|].
    generalize (take 500 statuses). intros l.
    induction l as [|s l IH]; [done|].
    change (omap (tweet_entry w start_date) (s :: l))
      with (match tweet_entry w start_date s with
            | Some y => y :: omap (tweet_entry w start_date) l
            | None => omap (tweet_entry w start_date) l
            end).
    destruct (tweet_entry w start_date s) as [tw|] eqn:Htw.
    + rewrite !fmap_cons.
      assert (Tweet.id tw = Status.id_str s) as ->.
      { revert Htw. unfold tweet_entry. repeat case_match; try done.
        by intros [= <-]. }
      by apply sublist_skip.
    + rewrite fmap_cons. by apply sublist_cons.
  - intros tweet Hin.
    apply elem_of_take in Hin as (j & Hin & _).
    apply list_elem_of_lookup_2 in Hin.
    apply list_elem_of_omap in Hin as (status & Hst & Htw).
    exists status. split; [done|].
    revert Htw. unfold tweet_entry.
    destruct (Z.ltb_spec (Status.created_at status) start_date); [done|].
    destruct (Nat.ltb_spec
                (String.length (clean_text w (Status.full_text status))) 10);
      [done|].
    intros [= <-]. simpl. repeat split; done || lia.
Qed.

(** ** The batch: one outcome per ticker and category *)

Section BatchOutcomes.
Variable w : World.
Variable self : Collector.

Lemma result_entry_record_entry ticker key v st ticker' key' :
  result_entry (record_entry ticker key v st) ticker' key'
  = if decide (ticker = ticker' ∧ key = key') then Some v
    else result_entry st ticker' key'.
Proof.
  unfold result_entry, record_entry. simpl.
  destruct (decide (ticker = ticker')) as [->|Hne].
  - rewrite lookup_insert_eq. simpl.
    destruct (decide (key = key')) as [->|Hk].
    + rewrite lookup_insert_eq. by rewrite decide_True.
    + rewrite lookup_insert_ne by done. rewrite decide_False by tauto.
      by destruct (results st !! ticker').
  - rewrite lookup_insert_ne by done. rewrite decide_False by tauto. done.
Qed.

(** One iteration stores exactly the entry [recorded] names, on any
    disk. *)
Lemma handle_completed_results c st completed :
  results (handle_completed w self c st completed)
  = results (record_entry completed.1 (recorded w self c completed).1
               (recorded w self c completed).2 st).
Proof.
  destruct completed as [ticker [data|msg]];
    unfold handle_completed, recorded; simpl; [|done].
  destruct data; simpl; try done;
    unfold save; destruct (disk_accepts w _); simpl; done.
Qed.

Lemma handle_completed_lookup c st completed ticker' key' :
  result_entry (handle_completed w self c st completed) ticker' key'
  = if decide (completed.1 = ticker'
               ∧ (recorded w self c completed).1 = key')
    then Some (recorded w self c completed).2
    else result_entry st ticker' key'.
Proof.
  rewrite <- result_entry_record_entry.
  unfold result_entry. by rewrite handle_completed_results.
Qed.

Lemma handle_completed_other c st completed ticker' :
  completed.1 ≠ ticker' →
  results (handle_completed w self c st completed) !! ticker'
  = results st !! ticker'.
Proof.
  intros Hne. rewrite handle_completed_results. unfold record_entry. simpl.
  by rewrite lookup_insert_ne.
Qed.

Lemma run_phase_cons c x completed st :
  run_phase w self c (x :: completed) st
  = run_phase w self c completed (handle_completed w self c st x).
Proof. reflexivity. Qed.

(** A phase leaves the tickers it does not handle alone. *)
Lemma run_phase_other c completed st ticker :
  ticker ∉ completed.*1 →
  results (run_phase w self c completed st) !! ticker = results st !! ticker.
Proof.
  revert st.
  induction completed as [|x completed IH]; intros st Hnot; [done|].
  rewrite fmap_cons in Hnot. apply not_elem_of_cons in Hnot as [Hx Hnot].
  rewrite run_phase_cons, IH by done. by apply handle_completed_other.
Qed.

(** A phase that handles each ticker once stores for a ticker the entry of
    its future, and changes no other key of that ticker. *)
Lemma run_phase_lookup c completed st ticker outcome key :
  NoDup completed.*1 →
  (ticker, outcome) ∈ completed →
  result_entry (run_phase w self c completed st) ticker key
  = if decide ((recorded w self c (ticker, outcome)).1 = key)
    then Some (recorded w self c (ticker, outcome)).2
    else result_entry st ticker key.
Proof.
  revert st.
  induction completed as [|x completed IH]; intros st Hnd Hin.
  { by apply elem_of_nil in Hin. }
  rewrite fmap_cons in Hnd. apply NoDup_cons in Hnd as [Hx Hnd].
  rewrite run_phase_cons. apply elem_of_cons in Hin as [<-|Hin].
  - unfold result_entry at 1.
    rewrite (run_phase_other c completed _ ticker Hx).
    fold (result_entry (handle_completed w self c st (ticker, outcome))
            ticker key).
    rewrite handle_completed_lookup. simpl.
    destruct (decide (_ = key)) as [E|E].
    + by rewrite decide_True.
    + rewrite decide_False by tauto. done.
  - rewrite (IH _ Hnd Hin).
    case_decide; [done|].
    rewrite handle_completed_lookup.
    rewrite decide_False; [done|].
    intros [E _]. apply Hx. rewrite E.
    apply list_elem_of_fmap. by exists (ticker, outcome).
Qed.

End BatchOutcomes.

Lemma recorded_Ok w self c ticker data :
  recorded w self c (ticker, Ok data)
  = if has_error data
    then (error_key c, Message (default "" (failure_message (Ok data))))
    else if disk_accepts w (file_path self c ticker)
         then (category_name c, Data data)
         else (error_key c,
               Message ("[Errno 2] No such file or directory: '"
                        +:+ file_path self c ticker +:+ "'")).
Proof. unfold recorded. by destruct data. Qed.

Lemma recorded_key_cases w self c x :
  (recorded w self c x).1 = category_name c
  ∨ (recorded w self c x).1 = error_key c.
Proof.
  destruct x as [ticker [data|msg]]; [|by right].
  rewrite recorded_Ok.
  destruct (has_error data); [by right|].
  destruct (disk_accepts w _); [by left|by right].
Qed.

Section BatchRecords.
Variable w : World.
Variable self : Collector.
Variable as_completed :
  list (string * result Payload) → list (string * result Payload).
Hypothesis completion_order : ∀ l, as_completed l ≡ₚ l.
Variable tickers : list string.
Hypothesis tickers_NoDup : NoDup tickers.

Lemma submitted_tickers (collect : string → Payload) :
  (as_completed (submit collect tickers)).*1 ≡ₚ tickers.
Proof.
  rewrite completion_order. unfold submit.
  rewrite <- list_fmap_compose. simpl.
  by rewrite list_fmap_id.
Qed.

Lemma submitted_elem (collect : string → Payload) ticker :
  ticker ∈ tickers →
  (ticker, Ok (collect ticker)) ∈ as_completed (submit collect tickers).
Proof.
  intros Hin. rewrite completion_order. unfold submit.
  apply list_elem_of_fmap. by exists ticker.
Qed.

(** An optional phase, seen from a ticker of the batch. *)
Lemma optional_phase_lookup (b : bool) c (collect : string → Payload)
    st ticker key :
  ticker ∈ tickers →
  result_entry
    (if b then run_phase w self c (as_completed (submit collect tickers)) st
     else st) ticker key
  = if b && bool_decide
              ((recorded w self c (ticker, Ok (collect ticker))).1 = key)
    then Some (recorded w self c (ticker, Ok (collect ticker))).2
    else result_entry st ticker key.
Proof.
  intros Hin. destruct b; [|done]. simpl.
  rewrite (run_phase_lookup w self c _ st ticker (Ok (collect ticker))).
  - by destruct (decide _) as [E|E];
      [rewrite bool_decide_eq_true_2|rewrite bool_decide_eq_false_2].
  - rewrite submitted_tickers. exact tickers_NoDup.
  - by apply submitted_elem.
Qed.

Lemma optional_phase_other (b : bool) c (collect : string → Payload)
    st ticker :
  ticker ∉ tickers →
  results
    (if b then run_phase w self c (as_completed (submit collect tickers)) st
     else st) !! ticker
  = results st !! ticker.
Proof.
  intros Hnot. destruct b; [|done].
  apply run_phase_other. by rewrite submitted_tickers.
Qed.

End BatchRecords.

(** X14.  A batch over distinct tickers, on any disk and in any completion
    order, leaves for every ticker of the batch and every category exactly
    one outcome when the category's phase runs and none when it does not:
    the payload under the category's key when the collector returned no
    ["error"] and the snapshot file opened, otherwise a message under the
    category's error key and no payload; never both.  The message is the
    payload's ["error"] when it has one.  The social phase runs only with
    credentials configured.  Tickers outside the batch get no entry. *)
Theorem batch_records_one_outcome
    (w : World) (self : Collector)
    (as_completed :
       list (string * result Payload) → list (string * result Payload))
    (tickers : list string) (asset_type : string)
    (collect_price collect_news collect_social : bool) :
  (∀ l, as_completed l ≡ₚ l) →
  NoDup tickers →
  let st :=
    collect_sentiment_data_batch w self as_completed tickers asset_type
      collect_price collect_news collect_social in
  (∀ ticker, ticker ∉ tickers → results st !! ticker = None)
  ∧ ∀ ticker c, ticker ∈ tickers →
      let data := submitted_call w self asset_type c ticker in
      let enabled :=
        phase_enabled self collect_price collect_news collect_social c in
      let saved :=
        negb (has_error data) && disk_accepts w (file_path self c ticker) in
      result_entry st ticker (category_name c)
      = (if enabled && saved then Some (Data data) else None)
      ∧ (if enabled && negb saved
         then ∃ e, result_entry st ticker (error_key c) = Some (Message e)
         else result_entry st ticker (error_key c) = None)
      ∧ (enabled = true → ∀ e, failure_message (Ok data) = Some e →
         result_entry st ticker (error_key c) = Some (Message e)).
Proof.
  intros Horder Hnd st. split.
  - intros ticker Hnot. unfold st, collect_sentiment_data_batch.
    rewrite !(optional_phase_other w self as_completed Horder tickers)
      by done.
    done.
  - intros ticker c Hin data enabled saved.
    assert (Hentry : ∀ key,
      result_entry st ticker key
      = let r c := recorded w self c
                     (ticker, Ok (submitted_call w self asset_type c ticker)) in
        if phase_enabled self collect_price collect_news collect_social Social
           && bool_decide ((r Social).1 = key)
        then Some (r Social).2
        else if collect_news && bool_decide ((r News).1 = key)
             then Some (r News).2
             else if collect_price && bool_decide ((r Price).1 = key)
                  then Some (r Price).2
                  else None).
    { intros key. unfold st, collect_sentiment_data_batch.
      rewrite !(optional_phase_lookup w self as_completed Horder tickers Hnd)
        by done.
      done. }
    assert (Hforeign : ∀ c' x key,
      c' ≠ c → key = category_name c ∨ key = error_key c →
      bool_decide ((recorded w self c' x).1 = key) = false).
    { intros c' x key Hc Hkey. apply bool_decide_eq_false_2.
      destruct (recorded_key_cases w self c' x) as [-> | ->];
        destruct Hkey as [-> | ->]; destruct c, c'; done. }
    assert (Hown : ∀ key, key = category_name c ∨ key = error_key c →
      result_entry st ticker key
      = if enabled
           && bool_decide ((recorded w self c (ticker, Ok data)).1 = key)
        then Some (recorded w self c (ticker, Ok data)).2
        else None).
    { intros key Hkey. rewrite Hentry. cbv beta zeta.
      unfold enabled, data. destruct c.
      - rewrite (Hforeign Social), (Hforeign News) by done.
        by rewrite !andb_false_r.
      - rewrite (Hforeign Social), (Hforeign Price) by done.
        by rewrite !andb_false_r.
      - rewrite (Hforeign News), (Hforeign Price) by done.
        rewrite !andb_false_r. by destruct (_ && bool_decide _). }
    rewrite !Hown by tauto. clear Hown Hforeign Hentry.
    unfold saved. clear saved. clearbody data enabled.
    pose proof (category_keys_differ c) as Hdiff.
    assert (Hsame : ∀ k : string, bool_decide (k = k) = true).
    { intros k. by apply bool_decide_eq_true_2. }
    assert (Hne1 : bool_decide (category_name c = error_key c) = false).
    { by apply bool_decide_eq_false_2. }
    assert (Hne2 : bool_decide (error_key c = category_name c) = false).
    { by apply bool_decide_eq_false_2. }
    rewrite recorded_Ok.
    destruct (has_error data) eqn:Herr.
    + simpl. rewrite Hsame, Hne2, !andb_false_r, !andb_true_r.
      split; [done|]. split.
      * destruct enabled; simpl; eauto.
      * intros -> e He. simpl. by rewrite He.
    + destruct (disk_accepts w (file_path self c ticker)); simpl;
        rewrite ?Hsame, ?Hne1, ?Hne2, ?andb_false_r, ?andb_true_r.
      * split; [done|]. split; [done|].
        intros _ e He. by destruct data.
      * split; [by destruct enabled|]. split.
        -- destruct enabled; simpl; eauto.
        -- intros _ e He. by destruct data.
Qed.

(** ** Snapshot files *)

Lemma string_app_cons (c : ascii) (a b : string) :
  String c a +:+ b = String c (a +:+ b).
Proof. reflexivity. Qed.

Lemma string_app_inv_head (p s1 s2 : string) :
  p +:+ s1 = p +:+ s2 → s1 = s2.
Proof.
  induction p as [|c p IH]; [done|].
  rewrite !string_app_cons. intros [=]. auto.
Qed.

Lemma string_app_assoc (a b c : string) :
  (a +:+ b) +:+ c = a +:+ (b +:+ c).
Proof.
  induction a as [|x a IH]; [done|].
  rewrite !string_app_cons. by rewrite IH.
Qed.

Lemma list_ascii_of_string_app (a b : string) :
  list_ascii_of_string (a +:+ b)
  = list_ascii_of_string a ++ list_ascii_of_string b.
Proof.
  induction a as [|x a IH]; [done|].
  rewrite string_app_cons. simpl. by rewrite IH.
Qed.

Lemma list_ascii_of_string_inj (a b : string) :
  list_ascii_of_string a = list_ascii_of_string b → a = b.
Proof.
  intros H. rewrite <- (string_of_list_ascii_of_string a),
    <- (string_of_list_ascii_of_string b). by rewrite H.
Qed.

Lemma string_app_inv_tail (s1 s2 p : string) :
  s1 +:+ p = s2 +:+ p → s1 = s2.
Proof.
  intros H. apply list_ascii_of_string_inj.
  apply (f_equal list_ascii_of_string) in H.
  rewrite !list_ascii_of_string_app in H. by apply app_inv_tail in H.
Qed.

Lemma path_join_relative (a b : string) :
  (∀ b', b ≠ String "/" b') →
  path_join a b = join_prefix a +:+ b.
Proof.
  intros Hrel. unfold path_join, join_prefix.
  destruct b as [|c b'].
  - destruct a; [done|]. destruct (String.eqb _ _); [done|].
    by rewrite string_app_assoc.
  - destruct (decide (c = "/"%char)) as [->|Hc]; [by destruct (Hrel b')|].
    assert (Hgo : ∀ X Y : string,
      match c with
      | "/"%char => X
      | _ => Y
      end = Y).
    { intros X Y.
      destruct c as [[] [] [] [] [] [] [] []]; try done. }
    rewrite Hgo. destruct a; [done|].
    destruct (String.eqb _ _); [done|]. by rewrite string_app_assoc.
Qed.

(** The last component survives the join, whatever it is. *)
Lemma path_join_suffix (a b : string) :
  ∃ p, path_join a b = p +:+ b.
Proof.
  unfold path_join.
  assert (Hrel : ∃ p,
    match a with
    | EmptyString => b
    | _ => if String.eqb (substring (String.length a - 1) 1 a) "/"
           then a +:+ b else a +:+ "/" +:+ b
    end = p +:+ b).
  { destruct a; [by exists ""|].
    destruct (String.eqb _ _); [by eexists|].
    eexists. by rewrite <- string_app_assoc. }
  destruct b as [|c b']; [done|].
  destruct c as [[] [] [] [] [] [] [] []]; try done. by exists "".
Qed.

Lemma file_name_relative (ticker rest : string) :
  (∀ t', ticker ≠ String "/" t') →
  ∀ b', ticker +:+ "_" +:+ rest ≠ String "/" b'.
Proof.
  intros Hrel b'. destruct ticker as [|c t']; simpl; [done|].
  intros [= -> _]. by destruct (Hrel t').
Qed.

(** Within a category, tickers that do not start with a slash get files of
    their own. *)
Lemma file_path_inj (self : Collector) (c : Category) (t1 t2 : string) :
  relative t1 → relative t2 →
  file_path self c t1 = file_path self c t2 → t1 = t2.
Proof.
  intros H1 H2. unfold file_path.
  rewrite !path_join_relative by by apply file_name_relative.
  intros H. apply string_app_inv_head in H.
  by apply string_app_inv_tail in H.
Qed.

Lemma file_path_category (self1 self2 : Collector) (c1 c2 : Category)
    (t1 t2 : string) :
  file_path self1 c1 t1 = file_path self2 c2 t2 → c1 = c2.
Proof.
  unfold file_path.
  destruct (path_join_suffix (category_dir self1 c1)
              (t1 +:+ "_" +:+ category_name c1 +:+ ".json")) as [p1 ->].
  destruct (path_join_suffix (category_dir self2 c2)
              (t2 +:+ "_" +:+ category_name c2 +:+ ".json")) as [p2 ->].
  intros H. apply (f_equal list_ascii_of_string) in H.
  rewrite !list_ascii_of_string_app in H.
  apply (f_equal (λ l, take 6 (rev l))) in H.
  rewrite !rev_app_distr in H.
  destruct c1, c2; simpl in H; try done.
Qed.

(** X15.  Snapshot files do not collide: the files of two categories are
    always different, and within a category two tickers that do not start
    with a slash get different files.  A ticker that starts with a slash
    names its own absolute path, so the restriction is needed: with the
    output directory "/d" the tickers "/d/price_data/A" and "A" share
    the price file. *)
Theorem snapshot_files_distinct
    (self : Collector) (c1 c2 : Category) (t1 t2 : string) :
  relative t1 →
  relative t2 →
  (file_path self c1 t1 = file_path self c2 t2 → c1 = c2 ∧ t1 = t2)
  ∧ (∀ self' t1' t2',
       file_path self c1 t1' = file_path self' c2 t2' → c1 = c2)
  ∧ file_path (init "/d" None None None None None) Price "/d/price_data/A"
    = file_path (init "/d" None None None None None) Price "A".
Proof.
  intros H1 H2. split; [|split].
  - intros H. pose proof (file_path_category _ _ _ _ _ _ H) as ->.
    split; [done|]. by apply (file_path_inj self c2).
  - intros self' t1' t2'. apply file_path_category.
  - reflexivity.
Qed.

(** ** Ticker lists *)

Lemma relative_letter (c : ascii) (s : string) :
  c ≠ "/"%char → relative (String c s).
Proof. intros Hc t' [= -> _]. done. Qed.

Lemma stock_list_cases (list_type : string) :
  _get_stock_list list_type
  ∈ [_get_stock_list "major"; _get_stock_list "tech";
     _get_stock_list "finance"; _get_stock_list "volatile";
     _get_stock_list "meme"].
Proof.
  unfold _get_stock_list at 1.
  repeat (destruct (String.eqb list_type _);
          [repeat ((by apply list_elem_of_here) || apply list_elem_of_further)|]).
  apply list_elem_of_here.
Qed.

Lemma crypto_list_cases (list_type : string) :
  _get_crypto_list list_type
  ∈ [_get_crypto_list "major"; _get_crypto_list "meme"].
Proof.
  unfold _get_crypto_list at 1.
  repeat (destruct (String.eqb list_type _);
          [repeat ((by apply list_elem_of_here) || apply list_elem_of_further)|]).
  apply list_elem_of_here.
Qed.

Lemma builtin_list_ok (l : list string) :
  l ∈ [_get_stock_list "major"; _get_stock_list "tech";
       _get_stock_list "finance"; _get_stock_list "volatile";
       _get_stock_list "meme";
       _get_crypto_list "major"; _get_crypto_list "meme"] →
  NoDup l ∧ (10 ≤ length l)%nat ∧ Forall relative l.
Proof.
  intros H. repeat (apply elem_of_cons in H as [->|H]);
    [..|by apply elem_of_nil in H];
    (split; [apply (bool_decide_unpack _); by vm_compute|]);
    (split; [vm_compute; lia|]);
    repeat constructor; by apply relative_letter.
Qed.

(** X16.  Every built-in ticker list, for stocks and for crypto assets and
    for any [list_type], has at least 10 tickers and no ticker twice, and
    an unknown [list_type] gives the major list.  For every collector and
    category, its tickers get snapshot files of their own, so a batch over
    a built-in list overwrites no snapshot. *)
Theorem builtin_lists_are_batchable (list_type : string) (l : list string) :
  l = _get_stock_list list_type ∨ l = _get_crypto_list list_type →
  NoDup l
  ∧ (10 ≤ length l)%nat
  ∧ (∀ self c, NoDup (file_path self c <$> l))
  ∧ (list_type ∉ ["major"; "tech"; "finance"; "volatile"; "meme"] →
     _get_stock_list list_type = _get_stock_list "major")
  ∧ (list_type ∉ ["major"; "meme"] →
     _get_crypto_list list_type = _get_crypto_list "major").
Proof.
  intros Hl.
  assert (Hok : NoDup l ∧ (10 ≤ length l)%nat ∧ Forall relative l).
  { apply builtin_list_ok. destruct Hl as [-> | ->].
    - pose proof (stock_list_cases list_type) as H.
      repeat (apply elem_of_cons in H as [->|H]);
        [..|by apply elem_of_nil in H];
        repeat ((by apply list_elem_of_here) || apply list_elem_of_further).
    - pose proof (crypto_list_cases list_type) as H.
      repeat (apply elem_of_cons in H as [->|H]);
        [..|by apply elem_of_nil in H];
        repeat ((by apply list_elem_of_here) || apply list_elem_of_further). }
  destruct Hok as (Hnd & Hlen & Hrel).
  split; [done|]. split; [done|]. split; [|split].
  - intros self c. apply NoDup_fmap_2_strong; [|done].
    intros t1 t2 Ht1 Ht2. rewrite Forall_forall in Hrel.
    apply file_path_inj; by apply Hrel.
  - intros Hnot. unfold _get_stock_list at 1.
    repeat (destruct (String.eqb list_type _) eqn:Heq;
            [apply String.eqb_eq in Heq; exfalso; apply Hnot; rewrite Heq;
             repeat ((by apply list_elem_of_here)
                     || apply list_elem_of_further)|clear Heq]).
    done.
  - intros Hnot. unfold _get_crypto_list at 1.
    repeat (destruct (String.eqb list_type _) eqn:Heq;
            [apply String.eqb_eq in Heq; exfalso; apply Hnot; rewrite Heq;
             repeat ((by apply list_elem_of_here)
                     || apply list_elem_of_further)|clear Heq]).
    done.
Qed.

(** ** The finance lexicon *)

Lemma dict_update_snoc lexicon d item :
  dict_update lexicon (d ++ [item])
  = <[item.1 := item.2]> (dict_update lexicon d).
Proof. unfold dict_update. by rewrite foldl_snoc. Qed.

Lemma dict_update_other lexicon d word :
  word ∉ d.*1 → dict_update lexicon d !! word = lexicon !! word.
Proof.
  induction d as [|item d IH] using rev_ind; intros Hnot; [done|].
  rewrite dict_update_snoc. rewrite fmap_app in Hnot.
  rewrite lookup_insert_ne.
  - apply IH. intros H. apply Hnot. apply elem_of_app. by left.
  - intros Heq. apply Hnot. apply elem_of_app. right. rewrite <- Heq.
    apply list_elem_of_here.
Qed.

Lemma dict_update_item lexicon d word v :
  NoDup d.*1 → (word, v) ∈ d → dict_update lexicon d !! word = Some v.
Proof.
  induction d as [|item d IH] using rev_ind; intros Hnd Hin.
  - by apply elem_of_nil in Hin.
  - rewrite dict_update_snoc. rewrite fmap_app in Hnd.
    apply NoDup_app in Hnd as (Hnd & Hdisj & _).
    apply elem_of_app in Hin as [Hin|Hin].
    + rewrite lookup_insert_ne; [by apply IH|].
      intros Heq. apply (Hdisj word).
      * apply list_elem_of_fmap. by exists (word, v).
      * rewrite <- Heq. simpl. apply list_elem_of_here.
    + apply list_elem_of_singleton in Hin as <-. simpl.
      by rewrite lookup_insert_eq.
Qed.

Lemma finance_lexicon_NoDup : NoDup finance_lexicon.*1.
Proof. apply (bool_decide_unpack _). by vm_compute. Qed.

(** X17.  Whatever the analyzer's lexicon holds, after
    [update_vader_lexicon] each of the 27 finance terms has the valence the
    method lists, replacing a valence the lexicon had for it; the valence
    of every other word is unchanged; the 12 terms listed as positive have
    a positive valence and the 15 listed as negative a negative one; and
    updating twice is updating once. *)
Theorem finance_terms_override_lexicon (lexicon : gmap string Q) :
  let updated := update_vader_lexicon lexicon in
  (∀ word v, (word, v) ∈ finance_lexicon → updated !! word = Some v)
  ∧ (∀ word, word ∉ finance_lexicon.*1 → updated !! word = lexicon !! word)
  ∧ length finance_lexicon = 27%nat
  ∧ Forall (λ item, (0 < item.2)%Q) (take 12 finance_lexicon)
  ∧ Forall (λ item, (item.2 < 0)%Q) (drop 12 finance_lexicon)
  ∧ update_vader_lexicon updated = updated.
Proof.
  intros updated.
  assert (Hitem : ∀ lexicon word v,
    (word, v) ∈ finance_lexicon →
    update_vader_lexicon lexicon !! word = Some v).
  { intros lex word v. apply dict_update_item, finance_lexicon_NoDup. }
  split; [apply Hitem|]. split; [apply dict_update_other|].
  split; [done|].
  split; [repeat constructor|]. split; [repeat constructor|].
  apply map_eq. intros word.
  destruct (decide (word ∈ finance_lexicon.*1)) as [Hin|Hnot].
  - apply list_elem_of_fmap in Hin as ([word' v] & -> & Hin). simpl.
    unfold updated. by rewrite !(Hitem _ word' v).
  - unfold update_vader_lexicon at 1. by rewrite dict_update_other.
Qed.

(** ** Credentials *)

Section PhaseKeys.
Variable w : World.
Variable self : Collector.

Lemma run_phase_foreign_key c completed st ticker key :
  key ≠ category_name c → key ≠ error_key c →
  result_entry (run_phase w self c completed st) ticker key
  = result_entry st ticker key.
Proof.
  intros Hname Herr. revert st.
  induction completed as [|x completed IH]; intros st; [done|].
  rewrite run_phase_cons, IH, handle_completed_lookup.
  rewrite decide_False; [done|].
  intros [_ Hkey].
  destruct (recorded_key_cases w self c x) as [H|H]; congruence.
Qed.

End PhaseKeys.

Lemma init_credentials output_dir k s t a key :
  twitter_credentials (init output_dir k s t a key)
  = if truthy k && truthy s && truthy t && truthy a
    then Some (Credentials.mk (default "" k) (default "" s)
                 (default "" t) (default "" a))
    else None.
Proof. done. Qed.

(** X18.  A collector constructed with one of the four Twitter credentials
    missing or empty has no credentials at all: its social collector
    returns the status "Twitter API credentials not provided" for every
    ticker and in every world, a batch that asks for social sentiment is
    the batch that does not, and its results hold no social payload and no
    social error for any ticker, in any completion order. *)
Theorem incomplete_credentials_disable_social
    (w : World) (output_dir : string)
    (twitter_api_key twitter_api_secret : option string)
    (twitter_access_token twitter_access_secret : option string)
    (newsapi_key : option string)
    (as_completed :
       list (string * result Payload) → list (string * result Payload))
    (tickers : list string) (asset_type : string)
    (collect_price collect_news collect_social : bool) :
  truthy twitter_api_key && truthy twitter_api_secret
  && truthy twitter_access_token && truthy twitter_access_secret = false →
  let self :=
    init output_dir twitter_api_key twitter_api_secret twitter_access_token
      twitter_access_secret newsapi_key in
  let st :=
    collect_sentiment_data_batch w self as_completed tickers asset_type
      collect_price collect_news collect_social in
  twitter_credentials self = None
  ∧ (∀ w' ticker asset_type days_back,
       collect_social_sentiment w' self ticker asset_type days_back
       = StatusOnly ticker "Twitter API credentials not provided" None)
  ∧ st = collect_sentiment_data_batch w self as_completed tickers asset_type
           collect_price collect_news false
  ∧ ∀ ticker,
      result_entry st ticker "social" = None
      ∧ result_entry st ticker "social_error" = None.
Proof.
  intros Hmissing self st.
  assert (Hnone : twitter_credentials self = None).
  { unfold self. rewrite init_credentials. by rewrite Hmissing. }
  assert (Hst : st = collect_sentiment_data_batch w self as_completed tickers
                       asset_type collect_price collect_news false).
  { unfold st, collect_sentiment_data_batch. rewrite Hnone.
    rewrite bool_decide_eq_false_2 by (by intros [? ?]).
    by rewrite andb_false_r. }
  split; [done|]. split.
  { intros w' ticker a days. unfold collect_social_sentiment.
    by rewrite Hnone. }
  split; [done|].
  intros ticker. rewrite Hst. unfold collect_sentiment_data_batch.
  cbv beta zeta. rewrite andb_false_l.
  assert (Hkeys : ∀ key, key = "social" ∨ key = "social_error" →
    ∀ c, c = Price ∨ c = News →
    key ≠ category_name c ∧ key ≠ error_key c).
  { intros key [-> | ->] c [-> | ->]; done. }
  assert (Hempty : ∀ key,
    result_entry {| results := ∅; written := [] |} ticker key = None).
  { intros key. unfold result_entry. simpl. by rewrite lookup_empty. }
  split.
  - destruct collect_price, collect_news;
      rewrite ?run_phase_foreign_key by done; apply Hempty.
  - destruct collect_price, collect_news;
      rewrite ?run_phase_foreign_key by done; apply Hempty.
Qed.

(** ** The further properties at work in the demo world *)

Lemma flat_payload :
  collect_price_data (Demo.flat_world 12) "AAPL" "stock" "30d" "1h"
  = PriceData "AAPL" "stock" "1h" Sample.flat_points Sample.flat_meta.
Proof. vm_compute. reflexivity. Qed.

Lemma readings_survive_witness :
  length Sample.flat_points = 12%nat
  ∧ PriceMeta.data_points Sample.flat_meta = 12%Z.
Proof.
  destruct (readings_survive_indicators (Demo.flat_world 12)
              "AAPL" "stock" "30d" "1h" Sample.flat_hist
              "AAPL" "stock" "1h" Sample.flat_points Sample.flat_meta)
    as (Hlen & Hpoints & _).
  - reflexivity.
  - exact flat_payload.
  - split; [exact Hlen|exact Hpoints].
Defined.

Lemma volume_ratio_witness :
  PricePoint.volume_ratio_5period Sample.sixth_point = Some (Fin (100 # 100)).
Proof.
  destruct (volume_ratio_attached_iff (Demo.flat_world 12)
              "AAPL" "stock" "30d" "1h" Sample.flat_hist
              "AAPL" "stock" "1h" Sample.flat_points Sample.flat_meta
              5 Sample.sixth_point)
    as (Hiff & Hvalue & _).
  - reflexivity.
  - exact flat_payload.
  - reflexivity.
  - rewrite Hvalue.
    + vm_compute. reflexivity.
    + apply Hiff. split; [vm_compute; lia|]. split; [lia|reflexivity].
Defined.

Lemma no_lookahead_witness :
  price_data_of
    (collect_price_data (Demo.flat_world 12) "AAPL" "stock" "30d" "1h")
  !! 7%nat
  = price_data_of
      (collect_price_data (Demo.flat_world 13) "AAPL" "stock" "30d" "1h")
    !! 7%nat.
Proof.
  refine (indicators_have_no_lookahead (Demo.flat_world 12)
            (Demo.flat_world 13) "AAPL" "stock" "30d" "1h"
            (Demo.flat_bar <$> (Z.of_nat <$> seq 0 12))
            (Demo.flat_bar <$> (Z.of_nat <$> seq 0 13)) 7 _ _ _ _ _ _ _ _ _).
  - reflexivity.
  - reflexivity.
  - reflexivity.
  - reflexivity.
  - vm_compute. reflexivity.
  - vm_compute. reflexivity.
  - vm_compute. lia.
  - vm_compute. lia.
  - reflexivity.
Defined.




Lemma news_body_witness :
  ∃ articles metadata,
    collect_news_sentiment Sample.news_world Demo.keyed_collector
      "BTC" "crypto" 7
    = NewsData "BTC" "crypto" (daily_averages_of articles) articles metadata
    ∧ NewsMeta.total_articles metadata = Z.of_nat (length articles)
    ∧ Article.title <$> articles = RawArticle.title <$> Demo.raw_articles.
Proof.
  pose proof (news_body_decides_path Sample.news_world Demo.keyed_collector
                "BTC" "crypto" 7 "Bitcoin OR BTC" Sample.news_response
                Sample.news_body eq_refl eq_refl eq_refl eq_refl eq_refl)
    as H.
  cbv zeta in H. rewrite decide_True in H by (split; [reflexivity|discriminate]).
  destruct H as (articles & metadata & Hres & Htotal & _ & Hkept).
  exists articles, metadata. split; [exact Hres|]. split; [exact Htotal|].
  apply (f_equal (fmap fst)) in Hkept.
  rewrite <- !list_fmap_compose in Hkept. exact Hkept.
Defined.

Lemma demo_scores_range (text : string) :
  (-1 <= Vader.compound (polarity_scores (Demo.social_world 4) text) <= 1)%Q.
Proof.
  change (polarity_scores (Demo.social_world 4) text)
    with (Demo.scores text).
  destruct text as [|c text]; [by vm_compute|].
  destruct c as [[] [] [] [] [] [] [] []]; by vm_compute.
Qed.

Lemma aggregates_range_witness :
  (-1 <= Hourly.avg_sentiment Demo.first_hour <= 1)%Q
  ∧ (0 <= Hourly.positive_ratio Demo.first_hour <= 1)%Q.
Proof.
  destruct (proj2 (aggregates_stay_in_range (Demo.social_world 4)
                     demo_scores_range)
              (Demo.feed 4) Demo.start_date Demo.first_hour
              first_hour_emitted)
    as (Havg & Hpos & _).
  split; [exact Havg|exact Hpos].
Defined.

Lemma social_payload :
  collect_social_sentiment (Demo.social_world 4) Demo.keyed_collector
    "AAPL" "stock" 3
  = SocialData "AAPL" "stock" Sample.social_hours Sample.social_tweets
      Sample.social_meta.
Proof. vm_compute. reflexivity. Qed.

Lemma bundle_tweets_witness :
  ∃ statuses,
    search_tweets (Demo.social_world 4) Demo.credentials
      (social_query "AAPL" "stock") = Ok statuses
    ∧ Tweet.id <$> Sample.social_tweets
      `sublist_of` Status.id_str <$> take 500 statuses.
Proof.
  destruct (bundle_tweets_pass_filters (Demo.social_world 4)
              Demo.keyed_collector "AAPL" "stock" 3 "AAPL" "stock"
              Sample.social_hours Sample.social_tweets Sample.social_meta
              social_payload)
    as (credentials & statuses & Hcred & Hsearch & Hsub & _).
  exists statuses. split; [exact Hsearch|exact Hsub].
Defined.

Lemma demo_tickers_NoDup : NoDup ["AAPL"; "MSFT"].
Proof. apply (bool_decide_unpack _). by vm_compute. Qed.

Lemma batch_records_witness :
  let st :=
    collect_sentiment_data_batch (Demo.flat_world 12) Demo.collector reverse
      ["AAPL"; "MSFT"] "stock" true true true in
  results st !! "TSLA" = None
  ∧ result_entry st "MSFT" "price"
    = Some (Data (collect_price_data (Demo.flat_world 12) "MSFT" "stock"
                    "30d" "1h"))
  ∧ result_entry st "MSFT" "price_error" = None
  ∧ result_entry st "MSFT" "social" = None
  ∧ result_entry st "MSFT" "social_error" = None.
Proof.
  destruct (batch_records_one_outcome (Demo.flat_world 12) Demo.collector
              reverse ["AAPL"; "MSFT"] "stock" true true true
              (λ l, reverse_Permutation l) demo_tickers_NoDup)
    as [Houtside Hinside].
  assert (Hin : "MSFT" ∈ ["AAPL"; "MSFT"]).
  { apply list_elem_of_further, list_elem_of_here. }
  destruct (Hinside "MSFT" Price Hin) as (Hprice & Hprice_error & _).
  destruct (Hinside "MSFT" Social Hin) as (Hsocial & Hsocial_error & _).
  split; [|split; [|split; [|split]]].
  - apply Houtside. by apply (bool_decide_unpack _).
  - exact Hprice.
  - exact Hprice_error.
  - exact Hsocial.
  - exact Hsocial_error.
Defined.

Lemma snapshot_files_witness :
  file_path Demo.collector Price "AAPL" ≠ file_path Demo.collector Price "MSFT"
  ∧ file_path Demo.collector Price "AAPL"
    ≠ file_path Demo.collector News "AAPL".
Proof.
  assert (H1 : relative "AAPL") by (by apply relative_letter).
  assert (H2 : relative "MSFT") by (by apply relative_letter).
  split.
  - intros H.
    destruct (proj1 (snapshot_files_distinct Demo.collector Price Price
                       "AAPL" "MSFT" H1 H2) H) as [_ Heq].
    discriminate Heq.
  - intros H.
    destruct (proj1 (snapshot_files_distinct Demo.collector Price News
                       "AAPL" "AAPL" H1 H1) H) as [Heq _].
    discriminate Heq.
Defined.

Lemma builtin_lists_witness :
  NoDup (_get_stock_list "tech")
  ∧ NoDup (file_path Demo.collector News <$> _get_crypto_list "meme").
Proof.
  split.
  - exact (proj1 (builtin_lists_are_batchable "tech" (_get_stock_list "tech")
                    (or_introl eq_refl))).
  - exact (proj1 (proj2 (proj2
             (builtin_lists_are_batchable "meme" (_get_crypto_list "meme")
                (or_intror eq_refl)))) Demo.collector News).
Defined.

Lemma incomplete_credentials_witness :
  twitter_credentials Sample.half_keyed_collector = None
  ∧ collect_social_sentiment (Demo.social_world 4)
      Sample.half_keyed_collector "AAPL" "stock" 3
    = StatusOnly "AAPL" "Twitter API credentials not provided" None.
Proof.
  destruct (incomplete_credentials_disable_social (Demo.social_world 4)
              "financial_sentiment_data" (Some "k") (Some "") (Some "t")
              (Some "a") None reverse ["AAPL"] "stock" true true true
              eq_refl)
    as (Hnone & Hstatus & _).
  split; [exact Hnone|]. apply Hstatus.
Defined.

Lemma price_collection_fails_witness :
  has_error (collect_price_data (Demo.flat_world 0) "AAPL" "stock" "30d" "1h")
  = true.
Proof.
  refine (proj2 (price_collection_fails_iff (Demo.flat_world 0)
                   "AAPL" "stock" "30d" "1h") _).
  left. reflexivity.
Defined.

Lemma alternative_news_witness :
  collect_alternative_news (Demo.flat_world 12) "BTC" "crypto" 7
  = StatusOnly "BTC" "No articles found through alternative sources"
      (Some "864000").
Proof.
  refine (proj2 (proj2 (alternative_news_never_errors (Demo.flat_world 12)
                          "BTC" "crypto" 7)) _).
  intros url. exact I.
Defined.

Lemma news_collection_fails_witness :
  has_error
    (collect_news_sentiment (Demo.flat_world 12) Demo.keyed_collector
       "BTC" "crypto" 7)
  = true.
Proof.
  refine (proj2 (news_collection_fails_iff (Demo.flat_world 12)
                   Demo.keyed_collector "BTC" "crypto" 7) _).
  split; [reflexivity|exact I].
Defined.

Lemma daily_averages_witness :
  NoDup
    (Daily.date
       <$> daily_averages_of
             (omap (primary_article (Demo.social_world 0))
                Demo.raw_articles)).
Proof.
  exact (proj1 (proj2
           (daily_averages_ordered
              (omap (primary_article (Demo.social_world 0))
                 Demo.raw_articles)))).
Defined.

Lemma hourly_averages_witness :
  StronglySorted (key_le Hourly.date_hour)
    (hourly_averages_of (Demo.social_world 4)
       (omap (tweet_entry (Demo.social_world 4) Demo.start_date)
          (Demo.feed 4))).
Proof.
  exact (proj1
           (hourly_averages_ordered (Demo.social_world 4)
              (omap (tweet_entry (Demo.social_world 4) Demo.start_date)
                 (Demo.feed 4)))).
Defined.

Lemma social_collection_fails_witness :
  collect_social_sentiment (Demo.flat_world 12) Demo.keyed_collector
    "AAPL" "stock" 3
  = Error (Some "AAPL") "Social sentiment collection failed: offline".
Proof.
  exact (proj1 (proj2
           (social_collection_fails_iff (Demo.flat_world 12)
              Demo.keyed_collector "AAPL" "stock" 3))
           Demo.credentials "offline" eq_refl eq_refl).
Defined.

Lemma finance_terms_witness :
  update_vader_lexicon {["crash" := 1%Q; "calm" := 1%Q]} !! "crash"
  = Some (-3.0)%Q
  ∧ update_vader_lexicon {["crash" := 1%Q; "calm" := 1%Q]} !! "calm"
    = Some 1%Q.
Proof.
  destruct (finance_terms_override_lexicon
              {["crash" := 1%Q; "calm" := 1%Q]})
    as (Hitem & Hother & _).
  split.
  - apply Hitem. unfold finance_lexicon.
    do 21 apply list_elem_of_further. apply list_elem_of_here.
  - rewrite Hother.
    + by vm_compute.
    + apply (bool_decide_unpack _). by vm_compute.
Defined.
